(** * Carbon-intensity pipeline: extraction (TP1), processing (TP2) and
      the factors chart (TP3)

    A shallow embedding of [tp1_extraccion.py], [tp2_procesamiento.py] and
    the table that [tp3_vistas.py] draws as the factors chart.

    - Python values (JSON documents, DataFrame cells) are the inductive
      type [value]; the null of every column kind (None, NaN, NaT) is
      [VNull].
    - Numbers are canonical rationals [Qc]: an IEEE double is read as the
      rational it denotes, so comparisons against the thresholds agree.
    - Instants are integers: nanoseconds since the Unix epoch, in UTC.
    - A DataFrame is a header of column names, a list of rows and the row
      labels; cells are always read by column name.
    - The Delta Lake is a finite map from table locations to the DataFrames
      that are read back from them, with the partition columns of every
      table; a write can be refused, and then leaves the table as it was.
      The HTTP service is an oracle indexed by request number; the clock is
      a field of the world and [time.sleep] advances it.
    - What depends on the text formats of dates and numbers is a parameter
      ([Conversions]); so is what depends on the version of pandas, pyarrow
      and deltalake or on the types of the columns ([Libraries]).
    - Exceptions are values of [exn] carried by the [result] type. *)

From Stdlib Require Import ZArith QArith Qcanon Qround String Ascii List Lia.
From stdpp Require Import base decidable option list strings gmap.

Local Open Scope Z_scope.
Local Open Scope string_scope.
Local Open Scope list_scope.

(* ===================================================================== *)
(** ** Numbers *)
(* ===================================================================== *)

#[global] Instance Qc_eq_decision : EqDecision Qc := Qc_eq_dec.

(** The number written as the integer [z]. *)
Definition num (z : Z) : Qc := Q2Qc (inject_Z z).

(** The number written as the fraction [a / b]. *)
Definition frac (a : Z) (b : positive) : Qc := Q2Qc (Qmake a b).

(** [x <= y] on numbers, as a test. *)
Definition Qcleb (x y : Qc) : bool := Qle_bool (this x) (this y).

Definition Qcmax (x y : Qc) : Qc := if Qcleb x y then y else x.

(* ===================================================================== *)
(** ** Python values *)
(* ===================================================================== *)

#[warnings="-register-all"]
Inductive value :=
| VNull                                   (* None, NaN, NaT *)
| VBool (b : bool)
| VNum (q : Qc)
| VStr (s : string)
| VTime (ns : Z)                          (* tz-aware instant, UTC *)
| VList (items : list value)
| VDict (fields : list (string * value)). (* insertion-ordered dict *)

Fixpoint value_eqb (a b : value) {struct a} : bool :=
  match a, b with
  | VNull, VNull => true
  | VBool x, VBool y => bool_decide (x = y)
  | VNum x, VNum y => bool_decide (x = y)
  | VStr x, VStr y => bool_decide (x = y)
  | VTime x, VTime y => bool_decide (x = y)
  | VList l, VList m =>
      (fix go (l m : list value) : bool :=
         match l, m with
         | [], [] => true
         | x :: l', y :: m' => value_eqb x y && go l' m'
         | _, _ => false
         end) l m
  | VDict l, VDict m =>
      (fix go (l m : list (string * value)) : bool :=
         match l, m with
         | [], [] => true
         | (k, x) :: l', (k', y) :: m' =>
             bool_decide (k = k') && value_eqb x y && go l' m'
         | _, _ => false
         end) l m
  | _, _ => false
  end.

(** [pd.isna] on a scalar. *)
Definition isna (v : value) : bool :=
  match v with VNull => true | _ => false end.

(* ===================================================================== *)
(** ** Exceptions and results *)
(* ===================================================================== *)

Inductive exn :=
| RequestException (msg : string)
| AttributeError
| KeyError (key : string)
| NotImplementedError
| TypeError
| ValueError
| DeltaError.  (* a write that the table storage refuses *)

Inductive result (A : Type) :=
| Ok (a : A)
| Raise (e : exn).
Arguments Ok {A} a.
Arguments Raise {A} e.

Definition rbind {A B} (r : result A) (k : A → result B) : result B :=
  match r with Ok a => k a | Raise e => Raise e end.

Fixpoint rmap_list {A B} (f : A → result B) (l : list A) : result (list B) :=
  match l with
  | [] => Ok []
  | x :: l' =>
      rbind (f x) (λ y, rbind (rmap_list f l') (λ ys, Ok (y :: ys)))
  end.

(* ===================================================================== *)
(** ** Python string methods used by the code *)
(* ===================================================================== *)

(** [str.lower] on ASCII letters. *)
Definition lower_ascii (c : ascii) : ascii :=
  let n := nat_of_ascii c in
  if ((65 <=? n) && (n <=? 90))%nat then ascii_of_nat (n + 32) else c.

Fixpoint lower (s : string) : string :=
  match s with
  | EmptyString => EmptyString
  | String c s' => String (lower_ascii c) (lower s')
  end.

Definition is_space (c : ascii) : bool :=
  let n := nat_of_ascii c in
  (((9 <=? n) && (n <=? 13)) || ((28 <=? n) && (n <=? 32)))%nat.

Fixpoint lstrip (s : string) : string :=
  match s with
  | EmptyString => EmptyString
  | String c s' => if is_space c then lstrip s' else s
  end.

Fixpoint rstrip (s : string) : string :=
  match s with
  | EmptyString => EmptyString
  | String c s' =>
      match rstrip s' with
      | EmptyString => if is_space c then EmptyString else String c EmptyString
      | t => String c t
      end
  end.

(** [str.strip]. *)
Definition strip (s : string) : string := rstrip (lstrip s).

(** [s.startswith(p)]. *)
Definition startswith (p s : string) : bool := String.prefix p s.

(** [sub in s]. *)
Fixpoint contains (sub s : string) : bool :=
  String.prefix sub s ||
  match s with
  | EmptyString => false
  | String _ s' => contains sub s'
  end.

(* ===================================================================== *)
(** ** DataFrames *)
(* ===================================================================== *)

(** The row labels. A frame built from data, concatenated with
    [ignore_index=True] or read from a table has the default index, a
    RangeIndex. Selecting or reordering rows (a boolean mask, [take],
    [sort_values]) leaves the labels of the rows taken: [Labels n kept] are
    the positions [kept] out of the [n] rows of a frame that had the default
    index. *)
Inductive Index :=
| RangeIndex
| Labels (n : nat) (kept : list nat).

#[global] Instance Index_eq_decision : EqDecision Index.
Proof. solve_decision. Defined.

(** A frame is a header, rows and the row labels. No function of the
    pipeline reads the labels; they matter when the frame is written. *)
Record DataFrame := Frame {
  columns : list string;
  rows : list (list value);
  index : Index
}.

(** A frame with the default index. *)
Abbreviation mkDF cols rws := (Frame cols rws RangeIndex).

(** The labels after the rows at [positions] are taken from a frame of [n]
    rows with the index [i]. *)
Definition take_index (i : Index) (n : nat) (positions : list nat) : Index :=
  match i with
  | RangeIndex => Labels n positions
  | Labels m kept => Labels m (omap (λ p, kept !! p) positions)
  end.

(** A frame as pandas builds it: distinct column names, and every row
    with one cell per column. *)
Definition well_formed (df : DataFrame) : Prop :=
  NoDup (columns df) ∧ Forall (λ r, length r = length (columns df)) (rows df).

(** [pd.DataFrame()]: no columns, no rows. *)
Definition empty_frame : DataFrame := mkDF [] [].

(** [df.empty]: true when either axis has length 0. *)
Definition df_empty (df : DataFrame) : bool :=
  match columns df, rows df with
  | [], _ | _, [] => true
  | _, _ => false
  end.

(** [c in df.columns]. *)
Definition has_col (c : string) (df : DataFrame) : bool :=
  bool_decide (c ∈ columns df).

(** Position of the first column named [c]. *)
Fixpoint col_index (c : string) (cols : list string) : option nat :=
  match cols with
  | [] => None
  | c' :: cs => if decide (c = c') then Some 0%nat else S <$> col_index c cs
  end.

(** The cell of row [r] under column [c]; null when there is none. *)
Definition cell (cols : list string) (c : string) (r : list value) : value :=
  match col_index c cols with
  | Some i => default VNull (r !! i)
  | None => VNull
  end.

(** The Series [df[c]]. *)
Definition series (c : string) (df : DataFrame) : list value :=
  map (cell (columns df) c) (rows df).

(** Rows laid out again under the header [dst], nulls where [src] has no
    such column: what [reindex(columns=dst)] does. *)
Definition reindex (src dst : list string) (r : list value) : list value :=
  map (λ c, cell src c r) dst.

(** [df[c] = f(df)] computed row by row: overwrites the column [c] when it
    exists and appends it otherwise. [f] is given the row as it was before
    the assignment, as a function from column names to cells. *)
Definition assign (c : string) (f : (string → value) → value)
    (df : DataFrame) : DataFrame :=
  let cols' := if has_col c df then columns df else columns df ++ [c] in
  Frame cols'
    (map (λ r, map (λ c', if decide (c' = c)
                          then f (λ x, cell (columns df) x r)
                          else cell (columns df) c' r) cols')
         (rows df))
    (index df).

(** The same with a cell function that can raise; the first row that raises
    aborts the assignment. *)
Definition assign_r (c : string) (f : (string → value) → result value)
    (df : DataFrame) : result DataFrame :=
  rbind (rmap_list (λ r, f (λ x, cell (columns df) x r)) (rows df)) (λ vals,
    let cols' := if has_col c df then columns df else columns df ++ [c] in
    Ok (Frame cols'
          (map (λ rv : list value * value,
                  map (λ c', if decide (c' = c) then rv.2
                             else cell (columns df) c' rv.1) cols')
               (zip (rows df) vals))
          (index df))).

(** [df.rename(columns=f)]. *)
Definition rename (f : string → string) (df : DataFrame) : DataFrame :=
  Frame (map f (columns df)) (rows df) (index df).

(** [pd.concat([a, b], ignore_index=True)]: the header is the union of the
    two headers in order of first appearance, the rows of [a] come first. *)
Definition concat (a b : DataFrame) : DataFrame :=
  let cols := columns a
              ++ filter (λ c, c ∉ columns a) (remove_dups (columns b)) in
  mkDF cols (map (reindex (columns a) cols) (rows a)
             ++ map (reindex (columns b) cols) (rows b)).

(** Equality of two keys, cell by cell (nulls are equal to each other, as
    in [duplicated]). *)
Fixpoint key_eqb (k1 k2 : list value) : bool :=
  match k1, k2 with
  | [], [] => true
  | x :: k1', y :: k2' => value_eqb x y && key_eqb k1' k2'
  | _, _ => false
  end.

Definition key_in (k : list value) (seen : list (list value)) : bool :=
  existsb (key_eqb k) seen.

(** The key of a row: its cells under the columns of [subset]. *)
Definition key_of (cols subset : list string) (r : list value) : list value :=
  map (λ c, cell cols c r) subset.

(** Keeps the first row of every key ([keep="first"]); [seen] holds the
    keys of the rows already passed. *)
Fixpoint keep_first (key : list value → list value)
    (seen : list (list value)) (l : list (list value)) : list (list value) :=
  match l with
  | [] => []
  | r :: l' =>
      if key_in (key r) seen then keep_first key seen l'
      else r :: keep_first key (key r :: seen) l'
  end.

(** The positions of the rows that [keep_first] keeps, counted from [i]. *)
Fixpoint kept_positions (key : list value → list value)
    (seen : list (list value)) (i : nat) (l : list (list value)) : list nat :=
  match l with
  | [] => []
  | r :: l' =>
      if key_in (key r) seen then kept_positions key seen (S i) l'
      else i :: kept_positions key (key r :: seen) (S i) l'
  end.

(** [df.drop_duplicates(subset=subset)]: an empty frame is returned as it
    is; a column of [subset] missing from the header raises KeyError. The
    rows that are kept keep their labels: there is no [ignore_index]. *)
Definition drop_duplicates (subset : list string) (df : DataFrame)
  : result DataFrame :=
  if df_empty df then Ok df
  else match filter (λ c, c ∉ columns df) subset with
       | c :: _ => Raise (KeyError c)
       | [] =>
           let key := key_of (columns df) subset in
           Ok (Frame (columns df) (keep_first key [] (rows df))
                     (take_index (index df) (length (rows df))
                                 (kept_positions key [] 0 (rows df))))
       end.

(** [d.get(k)] on an insertion-ordered dict. *)
Fixpoint dict_lookup (k : string) (d : list (string * value)) : option value :=
  match d with
  | [] => None
  | (k', v) :: d' => if decide (k = k') then Some v else dict_lookup k d'
  end.

(** [d[k] = v] on an insertion-ordered dict. *)
Fixpoint dict_set (k : string) (v : value) (d : list (string * value))
  : list (string * value) :=
  match d with
  | [] => [(k, v)]
  | (k', v') :: d' =>
      if decide (k = k') then (k, v) :: d' else (k', v') :: dict_set k v d'
  end.

(** [{**d1, **d2}]. *)
Definition dict_update (d1 d2 : list (string * value)) : list (string * value) :=
  fold_left (λ d kv, dict_set kv.1 kv.2 d) d2 d1.

(** [pd.DataFrame(records)] for a list of dicts: the header is the union of
    the keys in order of first appearance, absent entries are null. *)
Definition frame_of_records (records : list (list (string * value)))
  : DataFrame :=
  let cols := remove_dups (mjoin (map (map fst) records)) in
  mkDF cols
    (map (λ d, map (λ c, default VNull (dict_lookup c d)) cols) records).

(** The key under which [_normalise_json] files the entry [key] of a dict
    reached under [key_string]. *)
Definition new_key (key_string key : string) : string :=
  match key_string with
  | EmptyString => key
  | _ => key_string +:+ "." +:+ key
  end.

(** [_normalise_json(data, key_string, normalized_dict, separator=".")]:
    nested dicts are flattened into dotted keys. *)
Fixpoint normalise_json (data : value) (key_string : string)
    (normalized_dict : list (string * value)) : list (string * value) :=
  match data with
  | VDict fs =>
      (fix go (fs : list (string * value)) (acc : list (string * value)) :=
         match fs with
         | [] => acc
         | (k, v) :: fs' => go fs' (normalise_json v (new_key key_string k) acc)
         end) fs normalized_dict
  | _ => dict_set key_string data normalized_dict
  end.

Definition is_dict (v : value) : bool :=
  match v with VDict _ => true | _ => false end.

(** [_normalise_json_ordered]: the scalar entries first, then the
    flattened nested ones. *)
Definition normalise_json_ordered (data : list (string * value))
  : list (string * value) :=
  let top_dict := filter (λ kv, is_dict kv.2 = false) data in
  let nested_dict :=
    normalise_json (VDict (filter (λ kv, is_dict kv.2 = true) data)) "" [] in
  dict_update top_dict nested_dict.

(** One record of [_simple_json_normalize]: a dict is flattened, a scalar
    gives the empty record. A list nested directly in the list is outside
    the fragment modelled here and is reported as a TypeError. *)
Definition simple_json_normalize (ds : value)
  : result (list (string * value)) :=
  match ds with
  | VDict fs => Ok (normalise_json_ordered fs)
  | VList _ => Raise TypeError
  | _ => Ok []
  end.

(** [pd.json_normalize(data)]. *)
Definition json_normalize (data : value) : result DataFrame :=
  match data with
  | VList [] => Ok empty_frame
  | VDict fs => Ok (frame_of_records [normalise_json_ordered fs])
  | VList items =>
      rbind (rmap_list simple_json_normalize items)
            (λ records, Ok (frame_of_records records))
  | _ => Raise NotImplementedError
  end.

(** [data.get(key, default)]: only a dict has the method. *)
Definition dict_get (data : value) (key : string) (dflt : value)
  : result value :=
  match data with
  | VDict fs => Ok (default dflt (dict_lookup key fs))
  | _ => Raise AttributeError
  end.

(* ===================================================================== *)
(** ** Instants and conversions *)
(* ===================================================================== *)

(** A pandas Timestamp, or NaT. *)
Inductive Timestamp :=
| NaT
| At (ns : Z).

#[global] Instance Timestamp_eq_decision : EqDecision Timestamp.
Proof. solve_decision. Defined.

Definition minutes (n : Z) : Z := n * 60 * 1000000000.
Definition days (n : Z) : Z := n * 86400 * 1000000000.

(** [ts + timedelta]: NaT absorbs. *)
Definition ts_add (t : Timestamp) (delta : Z) : Timestamp :=
  match t with NaT => NaT | At ns => At (ns + delta) end.

(** [ts >= now]: every comparison with NaT is False. *)
Definition ts_geb (t : Timestamp) (now : Z) : bool :=
  match t with NaT => false | At ns => (now <=? ns)%Z end.

Definition ts_of_value (v : value) : Timestamp :=
  match v with VTime ns => At ns | _ => NaT end.

Definition value_of_ts (t : Timestamp) : value :=
  match t with NaT => VNull | At ns => VTime ns end.

(** [Series.max()] of a datetime column: nulls are skipped, and the result
    is NaT when nothing is left. *)
Definition ts_max (a b : Timestamp) : Timestamp :=
  match a, b with
  | NaT, _ => b
  | _, NaT => a
  | At x, At y => At (Z.max x y)
  end.

Definition series_max_ts (s : list Timestamp) : Timestamp :=
  foldr ts_max NaT s.

(** What the pipeline takes from pandas and [datetime] as given: the text
    formats of instants and numbers, and the calendar. The functions below
    are stated over any implementation of them. *)
Class Conversions := {
  (** [pd.to_datetime] on a string: [None] when it is not a date, NaT on
      the texts that stand for a missing date *)
  parse_datetime : string → option Timestamp;
  (** [pd.to_datetime] on a number (epoch offset) *)
  number_to_datetime : Qc → option Z;
  (** [pd.to_numeric] on a string: [None] when it is not a number *)
  parse_number : string → option Qc;
  (** [isoformat()] of an instant *)
  isoformat_at : Z → string;
  (** [str(ts.date())] *)
  dt_date : Z → string;
  dt_year : Z → Z;
  dt_month : Z → Z;
  dt_day : Z → Z;
  dt_hour : Z → Z;
  dt_day_name : Z → string
}.

(** The labels [kept] are an arithmetic progression, which is what a
    RangeIndex can hold. *)
Fixpoint constant_step (d a : Z) (l : list Z) : bool :=
  match l with
  | [] => true
  | b :: l' => (b - a =? d)%Z && constant_step d b l'
  end.

Definition evenly_spaced (kept : list nat) : bool :=
  match map Z.of_nat kept with
  | a :: b :: rest => negb (b - a =? 0)%Z && constant_step (b - a) b rest
  | _ => true
  end.

(** What the pipeline takes from pandas, pyarrow and deltalake as given,
    where their behaviour depends on the version of the library or on the
    types of the columns, which the frames here do not carry. The functions
    below are stated over any implementation of them. *)
Class Libraries := {
  (** the labels [kept], left by a selection out of the default index of
      [n] rows, are held as a RangeIndex again (some versions do so when no
      row is dropped, some whenever the labels are evenly spaced, some
      never) *)
  range_after_take : nat → list nat → bool;
  range_after_take_spaced :
    ∀ n kept, range_after_take n kept = true → evenly_spaced kept = true;
  (** Arrow converts the columns of the frame and the table storage takes
      their types, which for an existing table must be the stored ones *)
  types_accepted : option DataFrame → DataFrame → bool;
  (** the rows of a frame written with the given partition columns, in the
      order in which the table is read back *)
  read_back : list string → DataFrame → list (list value);
  read_back_perm : ∀ parts df, read_back parts df ≡ₚ rows df;
  (** a table without partitions is one file, read in the order written *)
  read_back_unpartitioned : ∀ df, read_back [] df = rows df
}.

(* ===================================================================== *)
(** ** The world: HTTP service, clock, Delta Lake *)
(* ===================================================================== *)

(** What one [requests.get(...); raise_for_status(); json()] does. *)
Inductive attempt_outcome :=
| Responded (body : value)      (* 2xx and a body that parses *)
| RequestFailed (err : string)  (* any [requests.RequestException] *)
| Crashed (e : exn).            (* any other exception *)

Inductive event :=
| EvRequest (url : string)
| EvSleep (seconds : Z).

Record World := mkWorld {
  http : nat → string → attempt_outcome; (* answer to the n-th request *)
  sent : nat;                            (* requests made so far *)
  clock : Z;                             (* now, ns since the epoch *)
  lake : gmap string DataFrame;          (* the Delta tables, by location *)
  trace : list event;                    (* requests and sleeps, oldest first *)
  partitions : gmap string (list string) (* their partition columns *)
}.

(** Computations that read and change the world and can raise. *)
Definition M (A : Type) : Type := World → result A * World.

Definition ret {A} (a : A) : M A := λ w, (Ok a, w).
Definition raise {A} (e : exn) : M A := λ w, (Raise e, w).
Definition lift {A} (r : result A) : M A := λ w, (r, w).
Definition bind {A B} (m : M A) (k : A → M B) : M B :=
  λ w, match m w with
       | (Ok a, w') => k a w'
       | (Raise e, w') => (Raise e, w')
       end.

Notation "'let*' x := m 'in' k" := (bind m (λ x, k))
  (at level 10, x name, m at level 100, k at level 200, only parsing).

(** [requests.get(url, params=None, timeout=30)] and the two calls on the
    response. *)
Definition http_get (url : string) : M attempt_outcome :=
  λ w, (Ok (http w (sent w) url),
        mkWorld (http w) (S (sent w)) (clock w) (lake w)
                (trace w ++ [EvRequest url]) (partitions w)).

(** [time.sleep(seconds)]. *)
Definition sleep (seconds : Z) : M unit :=
  λ w, (Ok tt,
        mkWorld (http w) (sent w) (clock w + seconds * 1000000000) (lake w)
                (trace w ++ [EvSleep seconds]) (partitions w)).

(** [datetime.now(timezone.utc)]. *)
Definition get_now : M Z := λ w, (Ok (clock w), w).

Definition get_lake : M (gmap string DataFrame) := λ w, (Ok (lake w), w).

(** The tables of the lake: the frame that is read back from every
    location that holds a table, and the partition columns of the table. *)
Record Store := mkStore {
  tables : gmap string DataFrame;
  partitioned_by : gmap string (list string)
}.

Definition store (w : World) : Store := mkStore (lake w) (partitions w).

Definition set_store (w : World) (s : Store) : World :=
  mkWorld (http w) (sent w) (clock w) (tables s) (trace w) (partitioned_by s).

Definition get_store : M Store := λ w, (Ok (store w), w).

Definition put_store (s : Store) : M unit := λ w, (Ok tt, set_store w s).

(** Configuration: the defaults of [BASE_URL] and [DATA_LAKE_PATH]. *)
Definition BASE_URL : string := "https://api.carbonintensity.org.uk".
Definition BRONZE_ROOT : string := "datalake/bronze/api_carbon_intensity".
Definition INTENSITY_PATH : string := BRONZE_ROOT +:+ "/intensity".
Definition FACTORS_PATH : string := BRONZE_ROOT +:+ "/factors".
Definition BRONZE_INTENSITY : string := INTENSITY_PATH.
Definition BRONZE_FACTORS : string := FACTORS_PATH.
Definition SILVER_ROOT : string := "datalake/silver/api_carbon_intensity".
Definition SILVER_INTENSITY : string := SILVER_ROOT +:+ "/intensity".
Definition SILVER_INTENSITY_DAILY : string := SILVER_ROOT +:+ "/intensity_daily".
Definition SILVER_FACTORS : string := SILVER_ROOT +:+ "/factors".

(** [is_delta_table(path)]. *)
Definition is_delta_table (l : gmap string DataFrame) (path : string) : bool :=
  bool_decide (is_Some (l !! path)).

(** [DeltaTable(path).to_pandas()] for a location that holds a table. *)
Definition to_pandas (l : gmap string DataFrame) (path : string) : DataFrame :=
  default empty_frame (l !! path).

(** The name pyarrow gives to the column that holds the labels of an
    unnamed index. *)
Definition INDEX_COLUMN : string := "__index_level_0__".

Section Storage.
Context {libs : Libraries}.

(** [pa.Table.from_pandas(df)], with which [write_deltalake] begins: a
    RangeIndex is left out of the data, any other index becomes a column of
    it. *)
Definition arrow_table (df : DataFrame) : DataFrame :=
  match index df with
  | RangeIndex => mkDF (columns df) (rows df)
  | Labels n kept =>
      if range_after_take n kept then mkDF (columns df) (rows df)
      else mkDF (columns df ++ [INDEX_COLUMN])
                (zip_with (λ r i, r ++ [VNum (num (Z.of_nat i))])
                          (rows df) kept)
  end.

(** [write_deltalake(path, df, mode="overwrite", partition_by=...)], called
    without [schema_mode]. The write is refused, with the table left as it
    was, when the data has no column, when a partition column is not a
    column of the data, when there is a table whose column names or
    partition columns are not those of the write, and when the types are
    not accepted. Otherwise the table at [path] becomes the data, read back
    in the order of its files. [ensure_dir] creates directories and changes
    no table, it has no counterpart here. *)
Definition write_deltalake (path : string) (df : DataFrame)
    (partition_by : list string) (s : Store) : result Store :=
  let data := arrow_table df in
  let stored := tables s !! path in
  if bool_decide (columns data = []) then Raise DeltaError
  else if negb (bool_decide (partition_by ⊆ columns data))
       then Raise DeltaError
  else if negb (match stored with
                | Some old =>
                    bool_decide (columns old = columns data)
                    && bool_decide (default [] (partitioned_by s !! path)
                                    = partition_by)
                | None => true
                end)
       then Raise DeltaError
  else if negb (types_accepted stored data) then Raise DeltaError
  else Ok (mkStore
             (<[path := mkDF (columns data) (read_back partition_by data)]>
                (tables s))
             (<[path := partition_by]> (partitioned_by s))).

End Storage.

(** [DeltaTable(path).to_pandas()]; [ValueError] stands for the storage
    error raised when there is no table. *)
Definition load_delta_to_df (path : string) : M DataFrame :=
  λ w, (match lake w !! path with
        | Some df => Ok df
        | None => Raise ValueError
        end, w).

(* ===================================================================== *)
(** ** TP1: extraction *)
(* ===================================================================== *)

(** The loop of [call_api]: [attempt] is the loop variable, [remaining]
    the number of iterations of [range(attempt, retries + 1)] left. *)
Fixpoint call_api_loop (url : string) (retries attempt : Z) (remaining : nat)
  : M value :=
  match remaining with
  | O => ret VNull (* the loop ends without a return: the result is None *)
  | S remaining' =>
      let* o := http_get url in
      match o with
      | Responded body => ret body
      | RequestFailed err =>
          if (attempt =? retries)%Z then raise (RequestException err)
          else let* _ := sleep 2 in
               call_api_loop url retries (attempt + 1) remaining'
      | Crashed e => raise e
      end
  end.

Definition call_api (path : string) (retries : Z) : M value :=
  call_api_loop (BASE_URL +:+ path) retries 1 (Z.to_nat retries).

Definition get_intensity_range (from_iso to_iso : string) : M DataFrame :=
  let path := "/intensity/" +:+ from_iso +:+ "/" +:+ to_iso in
  let* data := call_api path 3 in
  let* results := lift (dict_get data "data" (VList [])) in
  lift (json_normalize results).

Definition get_intensity_factors : M DataFrame :=
  let* data := call_api "/intensity/factors" 3 in
  let* results := lift (dict_get data "data" (VList [])) in
  lift (json_normalize results).

Section Pipeline.
Context `{Conversions} {libs : Libraries}.

(** The manual upsert: the first write stores [df_new]; later writes store
    the stored rows followed by the new ones, minus the rows whose key was
    already met. The frame left by [drop_duplicates] is written as it is,
    with the labels of the rows it kept. *)
Definition upsert_delta (df_new : DataFrame) (delta_path : string)
    (key_cols partition_cols : list string) (s : Store) : result Store :=
  if negb (is_delta_table (tables s) delta_path)
  then write_deltalake delta_path df_new partition_cols s
  else
    let df_old := to_pandas (tables s) delta_path in
    let df_all := concat df_old df_new in
    rbind (drop_duplicates key_cols df_all) (λ df_all,
      write_deltalake delta_path df_all partition_cols s).

(** [pd.to_datetime(x, utc=True)] on one cell. *)
Definition to_datetime (v : value) : result value :=
  match v with
  | VNull => Ok VNull
  | VTime ns => Ok (VTime ns)
  | VStr s =>
      match parse_datetime s with
      | Some t => Ok (value_of_ts t)
      | None => Raise ValueError
      end
  | VNum q =>
      match number_to_datetime q with
      | Some ns => Ok (VTime ns)
      | None => Raise ValueError
      end
  | VBool _ | VList _ | VDict _ => Raise TypeError
  end.

(** [pd.to_datetime(x, utc=True, errors="coerce")] on one cell. *)
Definition to_datetime_coerce (v : value) : value :=
  match to_datetime v with Ok x => x | Raise _ => VNull end.

(** [pd.to_numeric(x, errors="coerce")] on one cell. *)
Definition to_numeric (v : value) : value :=
  match v with
  | VNum q => VNum q
  | VBool b => VNum (num (if b then 1 else 0))
  | VStr s =>
      match parse_number s with
      | Some q => VNum q
      | None => VNull
      end
  | VTime ns => VNum (num ns)
  | VNull | VList _ | VDict _ => VNull
  end.

(** [isoformat()] of a Timestamp: NaT prints as ["NaT"]. *)
Definition isoformat (t : Timestamp) : string :=
  match t with NaT => "NaT" | At ns => isoformat_at ns end.

(** [s.dt.date.astype(str)] on one cell of a datetime column. A null instant
    gives the text ["NaT"], as in pandas 2; later versions leave a null. *)
Definition date_text (v : value) : value :=
  match v with VTime ns => VStr (dt_date ns) | _ => VStr "NaT" end.

(** [s.dt.year] and the like on one cell of a datetime column. *)
Definition dt_field (f : Z → Z) (v : value) : value :=
  match v with VTime ns => VNum (num (f ns)) | _ => VNull end.

(** [s.dt.day_name()] on one cell of a datetime column. *)
Definition day_name (v : value) : value :=
  match v with VTime ns => VStr (dt_day_name ns) | _ => VNull end.

(** The column [df["from_dt"]]: ['from'] read as instants, NaT where a cell
    is not a date. *)
Definition from_dt (df : DataFrame) : list Timestamp :=
  map (λ v, ts_of_value (to_datetime_coerce v)) (series "from" df).

Definition get_last_from_timestamp (l : gmap string DataFrame)
    (delta_path : string) : option Timestamp :=
  if negb (is_delta_table l delta_path) then None
  else
    let df := to_pandas l delta_path in
    if negb (has_col "from" df) || df_empty df then None
    else Some (series_max_ts (from_dt df)).

Definition compute_incremental_window (now : Z) (l : gmap string DataFrame)
    (delta_path : string) : option (string * string) :=
  let last_from := get_last_from_timestamp l delta_path in
  let from_dt :=
    match last_from with
    | None => At (now - days 7)
    | Some last_from => ts_add last_from (minutes 30)
    end in
  if ts_geb from_dt now then None
  else Some (isoformat from_dt, isoformat (At now)).

(** [if col in df.columns: df[col] = conv(df[col])], for a conversion that
    can raise and for one that cannot. *)
Definition convert_present (conv : value → result value) (col : string)
    (df : DataFrame) : result DataFrame :=
  if has_col col df then assign_r col (λ row, conv (row col)) df else Ok df.

Definition coerce_present (conv : value → value) (col : string)
    (df : DataFrame) : DataFrame :=
  if has_col col df then assign col (λ row, conv (row col)) df else df.

Definition normalize_intensity (now : Z) (df : DataFrame) : result DataFrame :=
  if df_empty df then Ok df
  else
    rbind (convert_present to_datetime "from" df) (λ df,
    rbind (convert_present to_datetime "to" df) (λ df,
    let df :=
      fold_left (λ d c, if startswith "intensity." c
                        then assign c (λ row, to_numeric (row c)) d else d)
                (columns df) df in
    if negb (has_col "from" df) then Raise (KeyError "from")
    else
      let df := assign "date_part" (λ row, date_text (row "from")) df in
      Ok (assign "ingestion_ts" (λ _, VStr (isoformat_at now)) df))).

Definition normalize_factors (now : Z) (df : DataFrame) : DataFrame :=
  if df_empty df then df
  else
    let df := rename (λ c, strip (lower c)) df in
    let num_cols := filter (λ c, contains "gco2" c = true) (columns df) in
    let df :=
      fold_left (λ d c, assign c (λ row, to_numeric (row c)) d) num_cols df in
    assign "ingestion_ts" (λ _, VStr (isoformat_at now)) df.

Definition run_incremental_intensity : M unit :=
  let* now := get_now in
  let* l := get_lake in
  match compute_incremental_window now l INTENSITY_PATH with
  | None => ret tt
  | Some (from_iso, to_iso) =>
      let* df_raw := get_intensity_range from_iso to_iso in
      let* now' := get_now in
      let* df_norm := lift (normalize_intensity now' df_raw) in
      let* s := get_store in
      let* s' := lift (upsert_delta df_norm INTENSITY_PATH
                                    ["from"; "to"] ["date_part"] s) in
      put_store s'
  end.

Definition run_full_factors : M unit :=
  let* df_raw := get_intensity_factors in
  let* now := get_now in
  let df_norm := normalize_factors now df_raw in
  let* s := get_store in
  let* s' := lift (write_deltalake FACTORS_PATH df_norm [] s) in
  put_store s'.

Definition main_tp1 : M unit :=
  let* _ := run_incremental_intensity in
  run_full_factors.


(* ===================================================================== *)
(** ** TP2: processing *)
(* ===================================================================== *)

(** A float read from a cell of a numeric column: [None] is NaN. *)
Definition float_of (v : value) : option Qc :=
  match v with VNum q => Some q | _ => None end.

Definition value_of_float (o : option Qc) : value :=
  match o with Some q => VNum q | None => VNull end.

(** [a.fillna(b)] on one row. *)
Definition fillna (a b : value) : value := if isna a then b else a.

Definition classify_intensity (v : option Qc) : string :=
  match v with
  | None => "unknown"
  | Some v =>
      if Qcleb v (num 100) then "low"
      else if Qcleb v (num 200) then "moderate"
      else if Qcleb v (num 300) then "high"
      else "very high"
  end.

Definition classify_factor (v : option Qc) : string :=
  match v with
  | None => "unknown"
  | Some v =>
      if Qcleb v (num 150) then "low"
      else if Qcleb v (num 400) then "medium"
      else "high"
  end.

Definition transform_intensity (now : Z) (df : DataFrame) : result DataFrame :=
  if df_empty df then Ok df
  else
    (* 1) 'from' and 'to' as datetimes *)
    let df := coerce_present to_datetime_coerce "from" df in
    let df := coerce_present to_datetime_coerce "to" df in
    (* 2) duplicates on the natural key *)
    rbind (drop_duplicates ["from"; "to"] df) (λ df,
    if negb (has_col "from" df) then Raise (KeyError "from")
    else
      (* 3) calendar columns *)
      let df := assign "date" (λ row, date_text (row "from")) df in
      let df := assign "year" (λ row, dt_field dt_year (row "from")) df in
      let df := assign "month" (λ row, dt_field dt_month (row "from")) df in
      let df := assign "day" (λ row, dt_field dt_day (row "from")) df in
      let df := assign "hour" (λ row, dt_field dt_hour (row "from")) df in
      let df := assign "weekday" (λ row, day_name (row "from")) df in
      (* 4) the unified metric *)
      let df := assign "intensity.actual"
                  (λ row, to_numeric (row "intensity.actual")) df in
      let df := assign "intensity.forecast"
                  (λ row, to_numeric (row "intensity.forecast")) df in
      let df := assign "intensity_value"
                  (λ row, fillna (row "intensity.actual")
                                 (row "intensity.forecast")) df in
      (* 5) the level *)
      let df := assign "intensity_level"
                  (λ row, VStr (classify_intensity
                                  (float_of (row "intensity_value")))) df in
      (* 6) processing stamp *)
      Ok (assign "processed_ts" (λ _, VStr (isoformat_at now)) df)).

(** Order of group keys and of sorted columns. Cells of one kind compare
    by value; the order between kinds is fixed arbitrarily (pandas sorts
    one kind at a time). *)
Definition kind_rank (v : value) : Z :=
  match v with
  | VNull => 6 | VBool _ => 0 | VNum _ => 1 | VStr _ => 2 | VTime _ => 3
  | VList _ => 4 | VDict _ => 5
  end.

Definition value_leb (a b : value) : bool :=
  match a, b with
  | VBool x, VBool y => implb x y
  | VNum x, VNum y => Qcleb x y
  | VStr x, VStr y => String.leb x y
  | VTime x, VTime y => (x <=? y)%Z
  | _, _ => (kind_rank a <=? kind_rank b)%Z
  end.

(** Insertion of [x] into a list sorted by [leb], after its equals. *)
Fixpoint insert_sorted {A} (leb : A → A → bool) (x : A) (l : list A) : list A :=
  match l with
  | [] => [x]
  | y :: l' => if leb y x then y :: insert_sorted leb x l' else x :: l
  end.

(** A stable sort. *)
Definition sort_by {A} (leb : A → A → bool) (l : list A) : list A :=
  fold_left (λ acc x, insert_sorted leb x acc) l [].

(** The positions of the elements of [l] in the order of [sort_by]. *)
Definition sorted_positions {A} (leb : A → A → bool) (l : list A) : list nat :=
  map fst (sort_by (λ a b : nat * A, leb a.2 b.2) (zip (seq 0 (length l)) l)).

(** [df.sort_values(...)] for the order [leb] on rows: the rows are
    reordered and keep their labels. *)
Definition sort_values (leb : list value → list value → bool)
    (df : DataFrame) : DataFrame :=
  Frame (columns df) (sort_by leb (rows df))
        (take_index (index df) (length (rows df))
                    (sorted_positions leb (rows df))).

(** The distinct elements of [l] that are not in [seen], first occurrences,
    by [value_eqb]. *)
Fixpoint distinct_values (seen l : list value) : list value :=
  match l with
  | [] => []
  | x :: l' =>
      if existsb (value_eqb x) seen then distinct_values seen l'
      else x :: distinct_values (x :: seen) l'
  end.

(** The numbers of a column that is aggregated: nulls are skipped, a cell
    that is neither a number nor null makes the aggregation raise. *)
Fixpoint numeric_cells (l : list value) : result (list Qc) :=
  match l with
  | [] => Ok []
  | VNull :: l' => numeric_cells l'
  | VNum q :: l' => rbind (numeric_cells l') (λ qs, Ok (q :: qs))
  | _ :: _ => Raise TypeError
  end.

Definition Qcsum (l : list Qc) : Qc := foldr Qcplus (num 0) l.

(** ["mean"]: NaN on no value. The sum and the quotient are exact here; the
    program rounds both to doubles, so the result is the program's where
    they are exact, as for the whole numbers of the samples. *)
Definition agg_mean (l : list Qc) : option Qc :=
  match l with
  | [] => None
  | _ => Some (Qcsum l / num (Z.of_nat (length l)))%Qc
  end.

(** ["max"]: NaN on no value. *)
Definition agg_max (l : list Qc) : option Qc :=
  match l with
  | [] => None
  | q :: l' => Some (foldr Qcmax q l')
  end.

(** ["count"]: the number of non-null values. *)
Definition agg_count (l : list value) : Z :=
  Z.of_nat (length (filter (λ v, isna v = false) l)).

(** The rows of [df] whose cell under [c] is [k]. *)
Definition group_rows (c : string) (k : value) (df : DataFrame)
  : list (list value) :=
  filter (λ r, value_eqb k (cell (columns df) c r) = true) (rows df).

(** [df.groupby("date", as_index=False).agg(intensity_mean=...,
    intensity_max=..., interval_count=...)]: one row per non-null key, in
    key order. *)
Definition groupby_date_agg (df : DataFrame) : result DataFrame :=
  if negb (has_col "intensity_value" df) then Raise (KeyError "intensity_value")
  else
    let keys :=
      sort_by value_leb
        (distinct_values []
           (filter (λ v, isna v = false) (series "date" df))) in
    rbind
      (rmap_list
         (λ k,
            let vals := map (cell (columns df) "intensity_value")
                            (group_rows "date" k df) in
            rbind (numeric_cells vals) (λ qs,
              Ok [k; value_of_float (agg_mean qs); value_of_float (agg_max qs);
                  VNum (num (agg_count vals))]))
         keys)
      (λ rs, Ok (mkDF ["date"; "intensity_mean"; "intensity_max";
                       "interval_count"] rs)).

(** [s.dt]: only a datetime column has the accessor. *)
Definition is_datetime_column (s : list value) : bool :=
  forallb (λ v, match v with VTime _ | VNull => true | _ => false end) s.

Definition build_intensity_daily (now : Z) (df : DataFrame) : result DataFrame :=
  if df_empty df then Ok df
  else
    rbind
      (if has_col "date" df then Ok df
       else if negb (has_col "from" df) then Raise (KeyError "from")
       else if negb (is_datetime_column (series "from" df))
            then Raise AttributeError
       else Ok (assign "date" (λ row, date_text (row "from")) df)) (λ df,
    rbind (groupby_date_agg df) (λ agg,
    rbind (assign_r "year"
             (λ row, rbind (to_datetime (row "date"))
                           (λ t, Ok (dt_field dt_year t))) agg) (λ agg,
    rbind (assign_r "month"
             (λ row, rbind (to_datetime (row "date"))
                           (λ t, Ok (dt_field dt_month t))) agg) (λ agg,
    Ok (assign "processed_ts" (λ _, VStr (isoformat_at now)) agg))))).

(** Numbers ascending, nulls last: the order of [sort_values]. *)
Definition factor_leb (a b : option Qc) : bool :=
  match a, b with
  | Some x, Some y => Qcleb x y
  | Some _, None => true
  | None, Some _ => false
  | None, None => true
  end.

Definition transform_factors (now : Z) (df : DataFrame) : DataFrame :=
  if df_empty df then df
  else
    let df := rename (λ c, strip (lower c)) df in
    let factor_cols :=
      filter (λ c, contains "gco2perkwh" c = true) (columns df) in
    let df :=
      match factor_cols with
      | factor_col :: _ =>
          let df := assign factor_col (λ row, to_numeric (row factor_col)) df in
          let df :=
            sort_values (λ r1 r2,
                           factor_leb
                             (float_of (cell (columns df) factor_col r1))
                             (float_of (cell (columns df) factor_col r2)))
                        df in
          assign "factor_level"
            (λ row, VStr (classify_factor (float_of (row factor_col)))) df
      | [] => df
      end in
    assign "processed_ts" (λ _, VStr (isoformat_at now)) df.

Definition process_intensity : M unit :=
  let* df_bronze := load_delta_to_df BRONZE_INTENSITY in
  let* now := get_now in
  let* df_silver := lift (transform_intensity now df_bronze) in
  let* s := get_store in
  let* s' := lift (write_deltalake SILVER_INTENSITY df_silver
                                   ["year"; "month"] s) in
  let* _ := put_store s' in
  let* now' := get_now in
  let* df_daily := lift (build_intensity_daily now' df_silver) in
  let* s := get_store in
  let* s' := lift (write_deltalake SILVER_INTENSITY_DAILY df_daily
                                   ["year"; "month"] s) in
  put_store s'.

Definition process_factors : M unit :=
  let* df_bronze := load_delta_to_df BRONZE_FACTORS in
  let* now := get_now in
  let df_silver := transform_factors now df_bronze in
  let* s := get_store in
  let* s' := lift (write_deltalake SILVER_FACTORS df_silver [] s) in
  put_store s'.

Definition main_tp2 : M unit :=
  let* _ := process_intensity in
  process_factors.

End Pipeline.

(* ===================================================================== *)
(** ** A reference implementation of the conversions *)
(* ===================================================================== *)

(** The proleptic Gregorian calendar in UTC and the ISO 8601 texts the
    service uses. It serves to run the model on concrete tables; the
    theorems below do not depend on it. *)
Module Utc.

Definition ns_per_second : Z := 1000000000.
Definition ns_per_day : Z := 86400 * ns_per_second.

(** Year, month and day of the day number [z] (days since 1970-01-01). *)
Definition civil_from_days (z : Z) : Z * Z * Z :=
  let z := z + 719468 in
  let era := z / 146097 in
  let doe := z - era * 146097 in
  let yoe := (doe - doe / 1460 + doe / 36524 - doe / 146096) / 365 in
  let doy := doe - (365 * yoe + yoe / 4 - yoe / 100) in
  let mp := (5 * doy + 2) / 153 in
  let d := doy - (153 * mp + 2) / 5 + 1 in
  let m := if (mp <? 10)%Z then mp + 3 else mp - 9 in
  (yoe + era * 400 + (if (m <=? 2)%Z then 1 else 0), m, d).

Definition days_from_civil (y m d : Z) : Z :=
  let y := if (m <=? 2)%Z then y - 1 else y in
  let era := y / 400 in
  let yoe := y - era * 400 in
  let doy := (153 * (if (2 <? m)%Z then m - 3 else m + 9) + 2) / 5 + d - 1 in
  let doe := yoe * 365 + yoe / 4 - yoe / 100 + doy in
  era * 146097 + doe - 719468.

Definition year (ns : Z) : Z := (civil_from_days (ns / ns_per_day)).1.1.
Definition month (ns : Z) : Z := (civil_from_days (ns / ns_per_day)).1.2.
Definition day (ns : Z) : Z := (civil_from_days (ns / ns_per_day)).2.
Definition hour (ns : Z) : Z := (ns mod ns_per_day) / (3600 * ns_per_second).
Definition minute (ns : Z) : Z :=
  ((ns mod ns_per_day) / (60 * ns_per_second)) mod 60.
Definition second (ns : Z) : Z := ((ns mod ns_per_day) / ns_per_second) mod 60.

Definition digit_char (d : Z) : ascii := ascii_of_nat (Z.to_nat (48 + d mod 10)).

(** [n] in decimal on [w] digits. *)
Fixpoint render (w : nat) (n : Z) : string :=
  match w with
  | O => ""
  | S w' => render w' (n / 10) +:+ String (digit_char n) ""
  end.

Definition date (ns : Z) : string :=
  render 4 (year ns) +:+ "-" +:+ render 2 (month ns) +:+ "-"
  +:+ render 2 (day ns).

Definition isoformat (ns : Z) : string :=
  let micro := (ns mod ns_per_second) / 1000 in
  date ns +:+ "T" +:+ render 2 (hour ns) +:+ ":" +:+ render 2 (minute ns)
  +:+ ":" +:+ render 2 (second ns)
  +:+ (if (micro =? 0)%Z then "" else "." +:+ render 6 micro)
  +:+ "+00:00".

Definition day_name (ns : Z) : string :=
  match (ns / ns_per_day + 3) mod 7 with
  | 0 => "Monday" | 1 => "Tuesday" | 2 => "Wednesday" | 3 => "Thursday"
  | 4 => "Friday" | 5 => "Saturday" | _ => "Sunday"
  end.

Definition digit_of (c : ascii) : option Z :=
  let n := Z.of_nat (nat_of_ascii c) in
  if ((48 <=? n) && (n <=? 57))%Z then Some (n - 48) else None.

(** The number written by a string of decimal digits. *)
Fixpoint digits (acc : Z) (s : string) : option Z :=
  match s with
  | EmptyString => Some acc
  | String c s' =>
      match digit_of c with
      | Some d => digits (acc * 10 + d) s'
      | None => None
      end
  end.

Definition field (start len : nat) (s : string) : option Z :=
  let t := substring start len s in
  if (String.length t =? len)%nat then digits 0 t else None.

(** Time of day and zone after the date: nothing, or [THH:MM], or
    [THH:MM:SS], each followed by nothing, [Z] or [+00:00]. *)
Definition parse_time (s : string) : option Z :=
  let zone_ok (z : string) :=
    bool_decide (z = "" ∨ z = "Z" ∨ z = "+00:00") in
  if bool_decide (s = "") then Some 0
  else if negb (String.prefix "T" s) then None
  else
    match field 1 2 s, field 4 2 s with
    | Some h, Some mi =>
        if negb (bool_decide (substring 3 1 s = ":")) then None
        else if bool_decide (substring 6 1 s = ":") then
          match field 7 2 s with
          | Some sec =>
              if zone_ok (substring 9 (String.length s) s)
              then Some ((h * 3600 + mi * 60 + sec) * ns_per_second)
              else None
          | None => None
          end
        else if zone_ok (substring 6 (String.length s) s)
             then Some ((h * 3600 + mi * 60) * ns_per_second)
             else None
    | _, _ => None
    end.

Definition parse (s : string) : option Timestamp :=
  if bool_decide (s = "NaT" ∨ s = "") then Some NaT
  else
    match field 0 4 s, field 5 2 s, field 8 2 s with
    | Some y, Some m, Some d =>
        if negb (bool_decide (substring 4 1 s = "-" ∧ substring 7 1 s = "-"))
        then None
        else
          match parse_time (substring 10 (String.length s) s) with
          | Some t => Some (At (days_from_civil y m d * ns_per_day + t))
          | None => None
          end
    | _, _, _ => None
    end.

(** Integers in decimal, with an optional minus sign. *)
Definition parse_int (s : string) : option Qc :=
  match s with
  | EmptyString => None
  | String "-" (String c s') => (λ n, num (- n)) <$> digits 0 (String c s')
  | _ => num <$> digits 0 s
  end.

#[export] Instance conversions : Conversions := {|
  parse_datetime := parse;
  number_to_datetime q := Some (Qfloor (this q));
  parse_number := parse_int;
  isoformat_at := isoformat;
  dt_date := date;
  dt_year := year;
  dt_month := month;
  dt_day := day;
  dt_hour := hour;
  dt_day_name := day_name
|}.

End Utc.

(** A reference implementation of the libraries: evenly spaced labels are
    held as a RangeIndex, every type is accepted and a table is read back
    in the order written. Like [Utc], it serves to run the model on
    concrete tables. *)
Module Reference.

#[export] Instance libraries : Libraries := {|
  range_after_take _ kept := evenly_spaced kept;
  range_after_take_spaced _ _ E := E;
  types_accepted _ _ := true;
  read_back _ df := rows df;
  read_back_perm _ _ := reflexivity _;
  read_back_unpartitioned _ := eq_refl
|}.

End Reference.


(* ===================================================================== *)
(** ** Sample tables *)
(* ===================================================================== *)

(** Concrete data on which the statements below are instantiated. *)
Module Sample.

(** Half-hour number [n] of 2024-01-01, as an instant. *)
Definition slot (n : Z) : Z := 1704067200000000000 + minutes (30 * n).

Definition header : list string :=
  ["from"; "to"; "intensity.forecast"; "intensity.actual"].

(** The interval starting at slot [n], with its forecast and actual. *)
Definition interval (n : Z) (forecast actual : value) : list value :=
  [VTime (slot n); VTime (slot (n + 1)); forecast; actual].

(** Stored rows of keys k1, k2; fetched rows of keys k2, k3, the one of
    key k2 with a revised actual value. *)
Definition r1 : list value := interval 0 (VNum (num 80)) (VNum (num 82)).
Definition r2 : list value := interval 1 (VNum (num 90)) (VNum (num 95)).
Definition r2' : list value := interval 1 (VNum (num 90)) (VNum (num 97)).
Definition r3 : list value := interval 2 (VNum (num 99)) VNull.

Definition stored : DataFrame := mkDF header [r1; r2].

Definition lake_with (path : string) (df : DataFrame) : gmap string DataFrame :=
  {[ path := df ]}.

(** A table whose ['from'] cells are texts that are not dates. *)
Definition unparseable : DataFrame :=
  mkDF ["from"; "to"] [[VStr "yesterday"; VStr "today"];
                       [VStr "n/a"; VStr "n/a"]].

(** Noon of 2024-01-03. *)
Definition noon : Z := slot 120.

(** A bronze table: an interval with both readings, one with a forecast of
    42 and no actual, one with neither. *)
Definition bronze : DataFrame :=
  mkDF header [interval 0 (VNum (num 80)) (VNum (num 82));
               interval 1 (VNum (num 42)) VNull;
               interval 2 VNull VNull].

(** The factor catalog as the service answers it. *)
Definition factors_body : value :=
  VDict [("data", VList [VDict [("Biomass", VNum (num 120));
                                ("Coal", VNum (num 937));
                                ("Gas (Combined Cycle)", VNum (num 394));
                                ("Solar", VNum (num 0));
                                ("Wind", VNum (num 0))]])].

(** A service that fails twice and then answers [body]; one that is down. *)
Definition flaky (body : value) : nat → string → attempt_outcome :=
  λ n _, if (n <? 2)%nat then RequestFailed "timeout" else Responded body.

Definition down : nat → string → attempt_outcome :=
  λ _ _, RequestFailed "connection refused".

(** The world at noon with the given service and lake, nothing sent yet. *)
Definition world (service : nat → string → attempt_outcome)
    (l : gmap string DataFrame) : World :=
  mkWorld service 0 noon l [] ∅.

(** The frame of a result, [pd.DataFrame()] if it raised. *)
Definition frame_of (r : result DataFrame) : DataFrame :=
  match r with Ok df => df | Raise _ => empty_frame end.

(** Its detail table, and the rows of it. *)
Definition silver : DataFrame :=
  frame_of (transform_intensity (H := Utc.conversions) noon bronze).

Definition silver_row (i : nat) : list value := nth i (rows silver) [].

(** One day with three intervals whose values are 80, 120 and null: the
    bronze rows, the detail table, the daily table. *)
Definition bronze_day : DataFrame :=
  mkDF header [interval 0 (VNum (num 80)) (VNum (num 80));
               interval 1 (VNum (num 120)) VNull;
               interval 2 VNull VNull].

Definition detail : DataFrame :=
  frame_of (transform_intensity (H := Utc.conversions) noon bronze_day).

Definition daily : DataFrame :=
  frame_of (build_intensity_daily (H := Utc.conversions) noon detail).


Definition null_data : value := VDict [("data", VNull)].

Definition always (body : value) : nat → string → attempt_outcome :=
  λ _ _, Responded body.

End Sample.


(* ===================================================================== *)
(** ** Vocabulary of the statements *)
(* ===================================================================== *)

(** The world with its lake replaced. *)
Definition set_lake (w : World) (l : gmap string DataFrame) : World :=
  mkWorld (http w) (sent w) (clock w) l (trace w) (partitions w).

(** The events of [failed] attempts that each end in the 2-second pause,
    followed by one more attempt. *)
Fixpoint attempts_trace (url : string) (failed : nat) : list event :=
  match failed with
  | O => [EvRequest url]
  | S k => EvRequest url :: EvSleep 2 :: attempts_trace url k
  end.

(** The world after [failed] such attempts and one more request. *)
Definition after_attempts (w : World) (url : string) (failed : nat) : World :=
  mkWorld (http w) (sent w + failed + 1)
          (clock w + 2 * 1000000000 * Z.of_nat failed) (lake w)
          (trace w ++ attempts_trace url failed) (partitions w).


(** The first [k] requests from [w] on are answered by a request error. *)
Definition fail_first (w : World) (url : string) (k : nat) : Prop :=
  ∀ i, (i < k)%nat → ∃ err, http w (sent w + i)%nat url = RequestFailed err.


(** More sample tables. *)
Module Sample2.
Import Sample.

(** A stored table without the ['to'] column. *)
Definition stored_no_to : DataFrame :=
  mkDF ["from"; "intensity.actual"]
       [[VTime (slot 0); VNum (num 82)]; [VTime (slot 1); VNum (num 95)]].

Definition fetched_no_to : DataFrame :=
  mkDF ["from"; "intensity.actual"] [[VTime (slot 2); VNum (num 99)]].

End Sample2.


(** More sample answers and worlds. *)
Module Sample3.
Import Sample.

(** One record of the intensity endpoint. *)
Definition record (from to : string) (forecast actual : value) : value :=
  VDict [("from", VStr from); ("to", VStr to);
         ("intensity", VDict [("forecast", forecast); ("actual", actual);
                              ("index", VStr "moderate")])].

(** An answer with the intervals of slots 1 and 2. *)
Definition intensity_body : value :=
  VDict [("data",
          VList [record "2024-01-01T00:30Z" "2024-01-01T01:00Z"
                        (VNum (num 90)) (VNum (num 97));
                 record "2024-01-01T01:00Z" "2024-01-01T01:30Z"
                        (VNum (num 99)) VNull])].

(** The frame fetched from that answer, and its normalization. *)
Definition fetched_raw : DataFrame :=
  Eval vm_compute in
  frame_of (rbind (dict_get intensity_body "data" (VList [])) json_normalize).

Definition normalized : DataFrame :=
  Eval vm_compute in
  frame_of (normalize_intensity (H := Utc.conversions) noon fetched_raw).

(** A world whose service always gives that answer, over the stored table. *)
Definition second_run : World :=
  world (always intensity_body) (lake_with INTENSITY_PATH stored).

End Sample3.


(** [l] is in ascending order for [leb]: each element is before the next. *)
Fixpoint is_sorted {A} (leb : A → A → bool) (l : list A) : bool :=
  match l with
  | [] => true
  | x :: l' =>
      match l' with [] => true | y :: _ => leb x y end && is_sorted leb l'
  end.

(** The header of a factors table after [rename(columns=lambda c:
    c.lower().strip())]. *)
Definition normalized_header (df : DataFrame) : list string :=
  map (λ c, strip (lower c)) (columns df).

(** Sample factor tables. *)
Module Sample4.
Import Sample.

(** A table with one row per fuel and a factor column. *)
Definition emissions : DataFrame :=
  mkDF ["Fuel"; " gCO2perKWh "]
       [[VStr "Coal"; VNum (num 937)];
        [VStr "Imports"; VNull];
        [VStr "Wind"; VNum (num 0)];
        [VStr "Gas"; VNum (num 394)]].

(** The catalog as the service sends it: one row, one column per fuel. *)
Definition catalog_raw : DataFrame :=
  Eval vm_compute in
    mkDF ["Biomass"; "Coal"; "Gas (Combined Cycle)"; "Solar"; "Wind"]
         [[VNum (num 120); VNum (num 937); VNum (num 394); VNum (num 0);
           VNum (num 0)]].

End Sample4.


(** Lakes that lack what the processing reads. *)
Module Sample5.
Import Sample.

(** Only the factor catalog has been extracted. *)
Definition factors_only : World :=
  world down (<[BRONZE_FACTORS := Sample4.catalog_raw]> ∅).

(** The intensity table exists and has no rows. *)
Definition no_rows : DataFrame := mkDF header [].

Definition empty_bronze : World :=
  world down (<[BRONZE_INTENSITY := no_rows]> ∅).

End Sample5.


(* ===================================================================== *)
(** ** TP3: the table behind the factors chart *)
(* ===================================================================== *)

(** [df.drop(columns=[c], errors="ignore")]. *)
Definition drop_column (c : string) (df : DataFrame) : DataFrame :=
  let cols' := filter (λ x, x ≠ c) (columns df) in
  Frame cols' (map (reindex (columns df) cols') (rows df)) (index df).

(** [df.T.reset_index()] followed by [df_t.columns = names]. The transposed
    frame has one row per column of [df], holding the name of the column
    and then its cells, so it has one column more than [df] has rows; the
    assignment of [names] raises [ValueError] when their number differs. *)
Definition transpose_named (names : list string) (df : DataFrame)
  : result DataFrame :=
  if decide (length names = S (length (rows df)))
  then Ok (mkDF names (map (λ c, VStr c :: series c df) (columns df)))
  else Raise ValueError.

Section Views.
Context `{Conversions}.

(** [plot_factors] up to the call of [plt.barh]: the result is the table
    whose columns ['fuel'] and ['gco2_value'] are drawn, [None] when the
    function returns before drawing. The values are converted cell by cell
    as in a column of one type; the drawing itself and the file it saves
    are not modelled. *)
Definition plot_factors (df_factors : DataFrame) : result (option DataFrame) :=
  if df_empty df_factors then Ok None
  else
    let df := drop_column "ingestion_ts" df_factors in
    rbind (transpose_named ["fuel"; "gco2_value"] df) (λ df_t,
    let df_t :=
      assign "gco2_value" (λ row, to_numeric (row "gco2_value")) df_t in
    Ok (Some
          (sort_values (λ r1 r2,
                          factor_leb
                            (float_of (cell (columns df_t) "gco2_value" r1))
                            (float_of (cell (columns df_t) "gco2_value" r2)))
                       df_t))).

End Views.

(** Silver factor tables. *)
Module Sample6.
Import Sample.

(** The catalog after extraction and processing. *)
Definition silver_factors : DataFrame :=
  Eval vm_compute in
    transform_factors (H := Utc.conversions) noon
      (normalize_factors (H := Utc.conversions) noon Sample4.catalog_raw).

(** A factors table with one row per fuel. *)
Definition per_fuel : DataFrame :=
  Eval vm_compute in
    transform_factors (H := Utc.conversions) noon Sample4.emissions.

End Sample6.


(** A factors location that holds an earlier catalog. *)
Module Sample7.
Import Sample.



End Sample7.


(** The intensity table as the pipeline stores it, with its partition
    column, and fetched rows that overlap it. *)
Module Sample8.
Import Sample.

Definition header : list string := Sample.header ++ ["date_part"].

Definition day (r : list value) : list value := r ++ [VStr "2024-01-01"].

Definition stored : DataFrame := mkDF header [day r1; day r2].
Definition fetched : DataFrame := mkDF header [day r2'; day r3].

(** New rows only. *)
Definition fetched_new : DataFrame := mkDF header [day r3].

Definition bronze_store : Store :=
  mkStore (lake_with INTENSITY_PATH stored)
          {[ INTENSITY_PATH := ["date_part"] ]}.

(** The tables after [stored] is upserted over itself. *)
Definition replayed_store : Store :=
  mkStore (<[INTENSITY_PATH := stored]> (lake_with INTENSITY_PATH stored))
          (<[INTENSITY_PATH := ["date_part"]]>
             {[ INTENSITY_PATH := ["date_part"] ]}).

(** The tables after [fetched_new] is upserted over [stored]. *)
Definition merged_store : Store :=
  mkStore (<[INTENSITY_PATH := mkDF header [day r1; day r2; day r3]]>
             (lake_with INTENSITY_PATH stored))
          (<[INTENSITY_PATH := ["date_part"]]>
             {[ INTENSITY_PATH := ["date_part"] ]}).

End Sample8.

(* ===================================================================== *)
(** * Properties *)
(* ===================================================================== *)

(** ** Equality of values and keys *)

(** Induction on values that reaches inside lists and dicts. *)
Lemma value_nested_ind (P : value → Prop) :
  P VNull → (∀ b, P (VBool b)) → (∀ q, P (VNum q)) → (∀ s, P (VStr s)) →
  (∀ ns, P (VTime ns)) →
  (∀ l, Forall P l → P (VList l)) →
  (∀ l, Forall (λ kv, P kv.2) l → P (VDict l)) →
  ∀ v, P v.
Proof.
  intros HN HB HQ HS HT HL HD.
  fix IH 1. intros [ | b | q | s | ns | l | l ];
    [exact HN | apply HB | apply HQ | apply HS | apply HT | | ].
  - apply HL. induction l as [| x l IHl]; constructor; [apply IH | exact IHl].
  - apply HD. induction l as [| [k x] l IHl]; constructor; [apply IH | exact IHl].
Qed.

Lemma value_eqb_eq (a b : value) : value_eqb a b = true ↔ a = b.
Proof.
  revert b. induction a as [ | x | x | x | x | l IH | l IH ] using value_nested_ind;
    intros [ | y | y | y | y | m | m ]; simpl;
    try (split; [discriminate | discriminate]); try tauto;
    try (rewrite bool_decide_eq_true; split; congruence).
  - revert m. induction IH as [| x l Hx _ IHl]; intros [| y m];
      try (split; [discriminate | discriminate]); try tauto.
    rewrite andb_true_iff, Hx, IHl. split; [intros [-> E]; congruence |].
    intros E. injection E as -> ->. done.
  - revert m. induction IH as [| [k x] l Hx _ IHl]; intros [| [k' y] m];
      try (split; [discriminate | discriminate]); try tauto.
    rewrite !andb_true_iff, bool_decide_eq_true. simpl in Hx.
    rewrite Hx, IHl. split; [intros [[-> ->] E]; congruence |].
    intros E. injection E as -> -> ->. done.
Qed.

#[global] Instance value_eq_decision : EqDecision value.
Proof.
  intros a b. destruct (value_eqb a b) eqn:E.
  - left. by apply value_eqb_eq.
  - right. intros Heq. apply value_eqb_eq in Heq. congruence.
Defined.

Lemma key_eqb_eq (k1 k2 : list value) : key_eqb k1 k2 = true ↔ k1 = k2.
Proof.
  revert k2. induction k1 as [| x k1 IH]; intros [| y k2]; simpl;
    try (split; [discriminate | discriminate]); try tauto.
  rewrite andb_true_iff, value_eqb_eq, IH. split; [intros [-> ->]; done |].
  intros E. injection E as -> ->. done.
Qed.

Lemma key_in_spec (k : list value) (seen : list (list value)) :
  key_in k seen = true ↔ k ∈ seen.
Proof.
  unfold key_in. rewrite existsb_exists. split.
  - intros (k' & Hin & E). apply key_eqb_eq in E. subst.
    by apply list_elem_of_In.
  - intros Hin. exists k. split; [by apply list_elem_of_In | by apply key_eqb_eq].
Qed.

(** ** Cells, headers and rows *)

Lemma col_index_None (c : string) (cols : list string) :
  col_index c cols = None ↔ c ∉ cols.
Proof.
  induction cols as [| c' cs IH]; simpl.
  - split; [intros _; apply not_elem_of_nil | done].
  - destruct (decide (c = c')) as [-> | Hne].
    + split; [discriminate | intros Hn; exfalso; apply Hn; left].
    + rewrite not_elem_of_cons. destruct (col_index c cs); simpl.
      * split; [discriminate | intros [_ Hn]; by apply IH in Hn].
      * split; [intros _; split; [done | by apply IH] | done].
Qed.

Lemma cell_absent (cols : list string) (c : string) (r : list value) :
  c ∉ cols → cell cols c r = VNull.
Proof. intros Hn. unfold cell. apply col_index_None in Hn. by rewrite Hn. Qed.

Lemma cell_cons_eq (c : string) (cs : list string) (v : value) (r : list value) :
  cell (c :: cs) c (v :: r) = v.
Proof. unfold cell. simpl. by rewrite decide_True. Qed.

Lemma cell_cons_ne (c c' : string) (cs : list string) (v : value)
    (r : list value) :
  c ≠ c' → cell (c' :: cs) c (v :: r) = cell cs c r.
Proof.
  intros Hne. unfold cell. simpl. rewrite decide_False by done.
  by destruct (col_index c cs).
Qed.

(** A row built column by column is read back column by column. *)
Lemma cell_map (g : string → value) (cols : list string) (c : string) :
  cell cols c (map g cols) = if decide (c ∈ cols) then g c else VNull.
Proof.
  induction cols as [| c' cs IH].
  - destruct (decide (c ∈ [])) as [Hin | _]; [by apply elem_of_nil in Hin | done].
  - change (map g (c' :: cs)) with (g c' :: map g cs).
    destruct (decide (c = c')) as [-> | Hne].
    + rewrite cell_cons_eq.
      destruct (decide (c' ∈ c' :: cs)) as [_ | Hn]; [done |].
      exfalso. apply Hn. left.
    + rewrite cell_cons_ne, IH by done.
      destruct (decide (c ∈ cs)) as [Hin | Hn];
        destruct (decide (c ∈ c' :: cs)) as [Hin' | Hn']; try done.
      * exfalso. apply Hn'. by right.
      * apply elem_of_cons in Hin' as [-> | Hin']; done.
Qed.

Lemma reindex_id (cols : list string) (r : list value) :
  NoDup cols → length r = length cols → reindex cols cols r = r.
Proof.
  unfold reindex. intros Hnd. revert r.
  induction Hnd as [| c cs Hn Hnd IH]; intros [| v r] Hlen; try done.
  simpl. rewrite cell_cons_eq. f_equal.
  transitivity (map (λ x, cell cs x r) cs); [| apply IH; simpl in Hlen; lia].
  apply map_ext_in. intros x Hx. apply cell_cons_ne.
  intros ->. apply Hn. by apply list_elem_of_In.
Qed.

Lemma filter_none {A} (P : A → Prop) `{∀ x, Decision (P x)} (l : list A) :
  Forall (λ x, ¬ P x) l → filter P l = [].
Proof.
  induction 1 as [| x l Hx _ IH]; [done |].
  rewrite filter_cons, decide_False by done. done.
Qed.

Lemma union_same_header (cols : list string) :
  cols ++ filter (λ c, c ∉ cols) (remove_dups cols) = cols.
Proof.
  rewrite filter_none; [by rewrite app_nil_r |].
  apply Forall_forall. intros c Hc Hn. apply Hn.
  by apply elem_of_remove_dups.
Qed.

(** Concatenating two well-formed frames with the same header appends the
    rows and changes nothing else. *)
Lemma concat_same_header (cols : list string) (rs1 rs2 : list (list value)) :
  well_formed (mkDF cols rs1) → well_formed (mkDF cols rs2) →
  concat (mkDF cols rs1) (mkDF cols rs2) = mkDF cols (rs1 ++ rs2).
Proof.
  intros [Hnd H1] [_ H2]. unfold concat. simpl in *.
  rewrite union_same_header. f_equal. f_equal.
  - rewrite <- (map_id rs1) at 2. apply map_ext_in. intros r Hr.
    apply reindex_id; [done |].
    rewrite Forall_forall in H1. apply H1. by apply list_elem_of_In.
  - rewrite <- (map_id rs2) at 2. apply map_ext_in. intros r Hr.
    apply reindex_id; [done |].
    rewrite Forall_forall in H2. apply H2. by apply list_elem_of_In.
Qed.


(** ** First occurrence wins *)

Section KeepFirst.
Variable key : list value → list value.

Lemma keep_first_ext (s1 s2 : list (list value)) (l : list (list value)) :
  (∀ k, k ∈ s1 ↔ k ∈ s2) → keep_first key s1 l = keep_first key s2 l.
Proof.
  revert s1 s2. induction l as [| r l IH]; intros s1 s2 Hs; simpl; [done |].
  assert (key_in (key r) s1 = key_in (key r) s2) as ->.
  { apply eq_true_iff_eq. rewrite !key_in_spec. apply Hs. }
  destruct (key_in (key r) s2); [by apply IH |].
  f_equal. apply IH. intros k. rewrite !elem_of_cons, Hs. done.
Qed.

Lemma keep_first_cons_seen (seen : list (list value)) (r : list value)
    (l : list (list value)) :
  key r ∈ seen → keep_first key seen (r :: l) = keep_first key seen l.
Proof. intros Hin. apply key_in_spec in Hin. simpl. by rewrite Hin. Qed.

Lemma keep_first_cons_fresh (seen : list (list value)) (r : list value)
    (l : list (list value)) :
  key r ∉ seen →
  keep_first key seen (r :: l) = r :: keep_first key (key r :: seen) l.
Proof.
  intros Hn. simpl. destruct (key_in (key r) seen) eqn:E; [| done].
  by apply key_in_spec in E.
Qed.

(** Rows whose keys are fresh and pairwise distinct are all kept. *)
Lemma keep_first_fresh (seen : list (list value)) (l : list (list value)) :
  NoDup (map key l) → (∀ r, r ∈ l → key r ∉ seen) →
  keep_first key seen l = l.
Proof.
  revert seen. induction l as [| r l IH]; intros seen Hnd Hfresh; simpl; [done |].
  simpl in Hnd. apply NoDup_cons in Hnd as [Hr Hnd].
  destruct (key_in (key r) seen) eqn:E.
  - apply key_in_spec in E. exfalso. by apply (Hfresh r); [left |].
  - f_equal. apply IH; [done |].
    intros r' Hr'. rewrite not_elem_of_cons. split.
    + intros Heq. apply Hr. rewrite <- Heq. apply list_elem_of_fmap.
      by exists r'.
    + apply Hfresh. by right.
Qed.

(** Rows whose keys have all been seen are all dropped. *)
Lemma keep_first_seen (seen : list (list value)) (l : list (list value)) :
  (∀ r, r ∈ l → key r ∈ seen) → keep_first key seen l = [].
Proof.
  induction l as [| r l IH]; intros Hseen; simpl; [done |].
  assert (key_in (key r) seen = true) as ->.
  { apply key_in_spec, Hseen. left. }
  apply IH. intros r' Hr'. apply Hseen. by right.
Qed.

Lemma keep_first_app (seen : list (list value)) (l1 l2 : list (list value)) :
  keep_first key seen (l1 ++ l2)
  = keep_first key seen l1 ++ keep_first key (map key l1 ++ seen) l2.
Proof.
  revert seen. induction l1 as [| r l1 IH]; intros seen; simpl; [done |].
  destruct (key_in (key r) seen) eqn:E.
  - rewrite IH. f_equal. apply keep_first_ext. intros k.
    apply key_in_spec in E. rewrite elem_of_cons.
    split; [intros Hk; by right | intros [-> | Hk]; [| done]].
    apply elem_of_app. by right.
  - simpl. f_equal. rewrite IH. f_equal. apply keep_first_ext. intros k.
    rewrite !elem_of_cons, !elem_of_app, !elem_of_cons. tauto.
Qed.

(** What is kept is part of what was given, in the same order. *)
Lemma keep_first_sublist (seen : list (list value)) (l : list (list value)) :
  sublist (keep_first key seen l) l.
Proof.
  revert seen. induction l as [| r l IH]; intros seen; simpl; [constructor |].
  destruct (key_in (key r) seen).
  - apply sublist_cons, IH.
  - apply sublist_skip, IH.
Qed.

(** The keys that are kept are pairwise distinct and none was seen. *)
Lemma keep_first_NoDup (seen : list (list value)) (l : list (list value)) :
  NoDup (map key (keep_first key seen l))
  ∧ ∀ r, r ∈ keep_first key seen l → key r ∉ seen.
Proof.
  revert seen. induction l as [| r l IH]; intros seen; simpl.
  - split; [constructor | intros r Hr; by apply elem_of_nil in Hr].
  - destruct (key_in (key r) seen) eqn:E; [apply IH |].
    destruct (IH (key r :: seen)) as [Hnd Hfresh]. split.
    + simpl. apply NoDup_cons. split; [| done].
      intros Hin. apply list_elem_of_fmap in Hin as (r' & Heq & Hr').
      apply Hfresh in Hr'. apply Hr'. rewrite Heq. left.
    + intros r' Hr'. apply elem_of_cons in Hr' as [-> | Hr'].
      * intros Hin. apply key_in_spec in Hin. congruence.
      * apply Hfresh in Hr'. rewrite not_elem_of_cons in Hr'. tauto.
Qed.

Lemma kept_positions_ext (s1 s2 : list (list value)) (i : nat)
    (l : list (list value)) :
  (∀ k, k ∈ s1 ↔ k ∈ s2) →
  kept_positions key s1 i l = kept_positions key s2 i l.
Proof.
  revert s1 s2 i. induction l as [| r l IH]; intros s1 s2 i Heq; simpl; [done |].
  assert (key_in (key r) s1 = key_in (key r) s2) as ->.
  { apply eq_true_iff_eq. rewrite !key_in_spec. apply Heq. }
  destruct (key_in (key r) s2); [by apply IH |].
  f_equal. apply IH. intros k. rewrite !elem_of_cons, Heq. done.
Qed.

(** Rows whose keys are fresh and pairwise distinct keep their places. *)
Lemma kept_positions_fresh (seen : list (list value)) (i : nat)
    (l : list (list value)) :
  NoDup (map key l) → (∀ r, r ∈ l → key r ∉ seen) →
  kept_positions key seen i l = seq i (length l).
Proof.
  revert seen i. induction l as [| r l IH]; intros seen i Hnd Hfresh; simpl;
    [done |].
  simpl in Hnd. apply NoDup_cons in Hnd as [Hr Hnd].
  destruct (key_in (key r) seen) eqn:E.
  - apply key_in_spec in E. exfalso. by apply (Hfresh r); [left |].
  - f_equal. apply IH; [done |].
    intros r' Hr'. rewrite not_elem_of_cons. split.
    + intros Heq. apply Hr. rewrite <- Heq. apply list_elem_of_fmap.
      by exists r'.
    + apply Hfresh. by right.
Qed.

Lemma kept_positions_seen (seen : list (list value)) (i : nat)
    (l : list (list value)) :
  (∀ r, r ∈ l → key r ∈ seen) → kept_positions key seen i l = [].
Proof.
  revert i. induction l as [| r l IH]; intros i Hseen; simpl; [done |].
  assert (key_in (key r) seen = true) as ->.
  { apply key_in_spec, Hseen. left. }
  apply IH. intros r' Hr'. apply Hseen. by right.
Qed.

Lemma kept_positions_app (seen : list (list value)) (i : nat)
    (l1 l2 : list (list value)) :
  kept_positions key seen i (l1 ++ l2)
  = kept_positions key seen i l1
    ++ kept_positions key (map key l1 ++ seen) (i + length l1) l2.
Proof.
  revert seen i. induction l1 as [| r l1 IH]; intros seen i; simpl.
  - by rewrite Nat.add_0_r.
  - replace (i + S (length l1))%nat with (S i + length l1)%nat by lia.
    destruct (key_in (key r) seen) eqn:E.
    + rewrite IH. f_equal. apply kept_positions_ext. intros k.
      apply key_in_spec in E. rewrite elem_of_cons.
      split; [intros Hk; by right | intros [-> | Hk]; [| done]].
      apply elem_of_app. by right.
    + simpl. f_equal. rewrite IH. f_equal. apply kept_positions_ext. intros k.
      rewrite !elem_of_cons, !elem_of_app, !elem_of_cons. tauto.
Qed.

End KeepFirst.

(** Hypotheses on concrete tables are settled by evaluation. *)
Ltac by_eval := apply (bool_decide_eq_true_1 _); vm_compute; reflexivity.

(** ** Writes *)

Lemma df_empty_false (cols : list string) (rs : list (list value)) :
  cols ≠ [] → rs ≠ [] → df_empty (mkDF cols rs) = false.
Proof. destruct cols, rs; done. Qed.

Lemma df_empty_no_rows (cols : list string) : df_empty (mkDF cols []) = true.
Proof. by destruct cols. Qed.

Lemma drop_duplicates_present (subset : list string) (cols : list string)
    (rs : list (list value)) :
  cols ≠ [] → rs ≠ [] → subset ⊆ cols →
  drop_duplicates subset (mkDF cols rs)
  = Ok (Frame cols (keep_first (key_of cols subset) [] rs)
              (Labels (length rs) (kept_positions (key_of cols subset) [] 0 rs))).
Proof.
  intros Hc Hr Hsub. unfold drop_duplicates.
  rewrite df_empty_false by done. simpl. rewrite filter_none; [done |].
  apply Forall_forall. intros c Hin Hn. by apply Hn, Hsub.
Qed.

Lemma drop_duplicates_Ok (subset : list string) (df df' : DataFrame) :
  drop_duplicates subset df = Ok df' →
  columns df' = columns df ∧ ∀ r, r ∈ rows df' → r ∈ rows df.
Proof.
  unfold drop_duplicates. destruct (df_empty df).
  - intros E. injection E as <-. done.
  - destruct (filter _ subset); [| discriminate].
    intros E. injection E as <-. simpl. split; [done |].
    intros r Hr. eapply elem_of_sublist; [done | apply keep_first_sublist].
Qed.

Lemma is_delta_table_None (l : gmap string DataFrame) (path : string) :
  l !! path = None → is_delta_table l path = false.
Proof.
  intros E. unfold is_delta_table. rewrite E.
  apply bool_decide_eq_false. by intros [df Hdf].
Qed.

Lemma is_delta_table_Some (l : gmap string DataFrame) (path : string)
    (df : DataFrame) :
  l !! path = Some df → is_delta_table l path = true ∧ to_pandas l path = df.
Proof.
  intros E. unfold is_delta_table, to_pandas. rewrite E.
  split; [by apply bool_decide_eq_true | done].
Qed.

Lemma evenly_spaced_0_1_3 : evenly_spaced [0; 1; 3]%nat = false.
Proof. reflexivity. Qed.

Section Writes.
Context {libs : Libraries}.

Lemma arrow_table_range (df : DataFrame) :
  index df = RangeIndex → arrow_table df = mkDF (columns df) (rows df).
Proof. intros E. unfold arrow_table. by rewrite E. Qed.

(** The data that is written is the frame, or the frame with one more
    column. *)
Lemma arrow_table_cases (df : DataFrame) :
  arrow_table df = mkDF (columns df) (rows df)
  ∨ columns (arrow_table df) = columns df ++ [INDEX_COLUMN].
Proof.
  unfold arrow_table. destruct (index df) as [| n kept]; [by left |].
  destruct (range_after_take n kept); [by left | by right].
Qed.

(** Labels that are not evenly spaced are written as a column, whatever the
    libraries. *)
Lemma arrow_table_uneven (df : DataFrame) (n : nat) (kept : list nat) :
  index df = Labels n kept → evenly_spaced kept = false →
  columns (arrow_table df) = columns df ++ [INDEX_COLUMN].
Proof.
  intros E Hu. unfold arrow_table. rewrite E.
  destruct (range_after_take n kept) eqn:Er; [| done].
  apply range_after_take_spaced in Er. congruence.
Qed.

(** The only error of a write is the refusal. *)
Lemma write_deltalake_raises (path : string) (df : DataFrame)
    (partition_by : list string) (s : Store) (e : exn) :
  write_deltalake path df partition_by s = Raise e → e = DeltaError.
Proof.
  unfold write_deltalake.
  repeat match goal with
         | |- context [if ?b then _ else _] => destruct b
         end; congruence.
Qed.

(** What an accepted write has checked and what it leaves. *)
Lemma write_deltalake_Ok (path : string) (df : DataFrame)
    (partition_by : list string) (s s' : Store) :
  write_deltalake path df partition_by s = Ok s' →
  s' = mkStore
         (<[path := mkDF (columns (arrow_table df))
                         (read_back partition_by (arrow_table df))]>
            (tables s))
         (<[path := partition_by]> (partitioned_by s))
  ∧ columns (arrow_table df) ≠ []
  ∧ partition_by ⊆ columns (arrow_table df)
  ∧ (∀ old, tables s !! path = Some old →
            columns old = columns (arrow_table df)
            ∧ default [] (partitioned_by s !! path) = partition_by)
  ∧ types_accepted (tables s !! path) (arrow_table df) = true.
Proof.
  unfold write_deltalake.
  destruct (bool_decide (columns (arrow_table df) = [])) eqn:E1; [done |].
  destruct (bool_decide (partition_by ⊆ columns (arrow_table df))) eqn:E2;
    [| done].
  cbn [negb].
  destruct (tables s !! path) as [old |] eqn:E3.
  - destruct (bool_decide (columns old = columns (arrow_table df))) eqn:E4;
      [| done].
    destruct (bool_decide (default [] (partitioned_by s !! path)
                           = partition_by)) eqn:E5; [| done].
    cbn [andb negb].
    destruct (types_accepted (Some old) (arrow_table df)) eqn:E6; [| done].
    cbn [negb]. intros [= <-].
    apply bool_decide_eq_false in E1. apply bool_decide_eq_true in E2, E4, E5.
    split; [done |]. split; [done |]. split; [done |]. split; [| done].
    by intros old' [= <-].
  - cbn [negb].
    destruct (types_accepted None (arrow_table df)) eqn:E6; [| done].
    cbn [negb]. intros [= <-].
    apply bool_decide_eq_false in E1. apply bool_decide_eq_true in E2.
    done.
Qed.

(** A write that passes the checks is accepted. *)
Lemma write_deltalake_accepted (path : string) (df : DataFrame)
    (partition_by : list string) (s : Store) :
  columns (arrow_table df) ≠ [] →
  partition_by ⊆ columns (arrow_table df) →
  (∀ old, tables s !! path = Some old →
          columns old = columns (arrow_table df)
          ∧ default [] (partitioned_by s !! path) = partition_by) →
  types_accepted (tables s !! path) (arrow_table df) = true →
  write_deltalake path df partition_by s
  = Ok (mkStore
          (<[path := mkDF (columns (arrow_table df))
                          (read_back partition_by (arrow_table df))]>
             (tables s))
          (<[path := partition_by]> (partitioned_by s))).
Proof.
  intros H1 H2 H3 H4. unfold write_deltalake.
  rewrite bool_decide_eq_false_2 by done.
  rewrite bool_decide_eq_true_2 by done. cbn [negb].
  destruct (tables s !! path) as [old |] eqn:E3.
  - destruct (H3 old eq_refl) as [E4 E5].
    rewrite !bool_decide_eq_true_2 by done. cbn [andb negb].
    by rewrite H4.
  - cbn [negb]. by rewrite H4.
Qed.

(** An overwrite with other column names than the stored ones is refused. *)
Lemma write_deltalake_other_header (path : string) (df old : DataFrame)
    (partition_by : list string) (s : Store) :
  tables s !! path = Some old →
  columns old ≠ columns (arrow_table df) →
  write_deltalake path df partition_by s = Raise DeltaError.
Proof.
  intros E Hne.
  destruct (write_deltalake path df partition_by s) as [s' | e] eqn:Hw.
  - apply write_deltalake_Ok in Hw as (_ & _ & _ & Hold & _).
    by destruct (Hold old E).
  - by rewrite (write_deltalake_raises _ _ _ _ _ Hw).
Qed.


(** A partition column that the data does not have is refused. *)
Lemma write_deltalake_no_partition_column (path : string) (df : DataFrame)
    (partition_by : list string) (s : Store) (c : string) :
  c ∈ partition_by → c ∉ columns (arrow_table df) →
  write_deltalake path df partition_by s = Raise DeltaError.
Proof.
  intros Hc Hn.
  destruct (write_deltalake path df partition_by s) as [s' | e] eqn:Hw.
  - apply write_deltalake_Ok in Hw as (_ & _ & Hsub & _).
    by apply Hsub in Hc.
  - by rewrite (write_deltalake_raises _ _ _ _ _ Hw).
Qed.

(** An accepted write changes no other location. *)
Lemma write_deltalake_other_paths (path : string) (df : DataFrame)
    (partition_by : list string) (s s' : Store) :
  write_deltalake path df partition_by s = Ok s' →
  ∀ p, p ≠ path → tables s' !! p = tables s !! p.
Proof.
  intros Hw p Hp. apply write_deltalake_Ok in Hw as (-> & _).
  cbn [tables]. by rewrite lookup_insert_ne.
Qed.

(** ** Upsert *)

Lemma upsert_delta_absent (df_new : DataFrame) (path : string)
    (key_cols partition_cols : list string) (s : Store) :
  tables s !! path = None →
  upsert_delta df_new path key_cols partition_cols s
  = write_deltalake path df_new partition_cols s.
Proof.
  intros E. unfold upsert_delta.
  by rewrite (is_delta_table_None (tables s) path E).
Qed.

Lemma upsert_delta_present (df_new df_old : DataFrame) (path : string)
    (key_cols partition_cols : list string) (s : Store) :
  tables s !! path = Some df_old →
  upsert_delta df_new path key_cols partition_cols s
  = rbind (drop_duplicates key_cols (concat df_old df_new))
          (λ df_all, write_deltalake path df_all partition_cols s).
Proof.
  intros E. unfold upsert_delta.
  destruct (is_delta_table_Some (tables s) path df_old E) as [-> ->]. done.
Qed.

End Writes.

(** Two frames with the same header are concatenated by appending the
    rows. *)
Lemma concat_same_columns (a b : DataFrame) :
  well_formed a → well_formed b → columns b = columns a →
  concat a b = mkDF (columns a) (rows a ++ rows b).
Proof.
  destruct a as [cols rs1 i1], b as [cols' rs2 i2]. simpl.
  intros Ha Hb ->.
  apply (concat_same_header cols rs1 rs2); [exact Ha | exact Hb].
Qed.


(** Rows that repeat the keys of the rows before them are dropped. *)
Lemma drop_duplicates_app_seen (subset cols : list string)
    (l1 l2 : list (list value)) (df' : DataFrame) :
  cols ≠ [] →
  drop_duplicates subset (mkDF cols (l1 ++ l2)) = Ok df' →
  NoDup (map (key_of cols subset) l1) →
  (∀ r, r ∈ l2 → key_of cols subset r ∈ map (key_of cols subset) l1) →
  rows df' = l1.
Proof.
  intros Hc Hdd Hnd Hseen. unfold drop_duplicates in Hdd.
  destruct (df_empty (mkDF cols (l1 ++ l2))) eqn:He.
  - injection Hdd as <-. cbn [rows].
    destruct cols as [| c cs]; [done |]. cbn in He.
    destruct (l1 ++ l2) eqn:E; [| done].
    apply app_eq_nil in E as [-> ->]. done.
  - cbn [columns rows] in Hdd. destruct (filter _ subset); [| done].
    injection Hdd as <-. cbn [rows].
    rewrite keep_first_app, app_nil_r.
    rewrite keep_first_fresh, keep_first_seen, app_nil_r; [done | done | done |].
    intros r _. apply not_elem_of_nil.
Qed.

Lemma drop_duplicates_replay (subset cols : list string)
    (l1 l2 : list (list value)) :
  cols ≠ [] → l1 ≠ [] → subset ⊆ cols →
  NoDup (map (key_of cols subset) l1) →
  (∀ r, r ∈ l2 → key_of cols subset r ∈ map (key_of cols subset) l1) →
  drop_duplicates subset (mkDF cols (l1 ++ l2))
  = Ok (Frame cols l1
              (Labels (length l1 + length l2) (seq 0 (length l1)))).
Proof.
  intros Hc Hl Hsub Hnd Hseen.
  rewrite drop_duplicates_present; [| done | by destruct l1 | done].
  rewrite keep_first_app, kept_positions_app, !app_nil_r, length_app.
  rewrite keep_first_fresh, keep_first_seen, app_nil_r; [| done | done |].
  - rewrite kept_positions_fresh, kept_positions_seen, app_nil_r;
      [done | done | done |].
    intros r _. apply not_elem_of_nil.
  - intros r _. apply not_elem_of_nil.
Qed.

Section Upsert.
Context {libs : Libraries}.

(** What an upsert into an existing table has done when it returns: the
    frame left by [drop_duplicates] had the stored column names and was
    written without a column of labels. *)
Lemma upsert_delta_Ok (df_new old : DataFrame) (path : string)
    (key_cols partition_cols : list string) (s s' : Store) :
  tables s !! path = Some old →
  upsert_delta df_new path key_cols partition_cols s = Ok s' →
  ∃ df_all,
    drop_duplicates key_cols (concat old df_new) = Ok df_all
    ∧ columns df_all = columns old
    ∧ columns (concat old df_new) = columns old
    ∧ columns old ≠ []
    ∧ partition_cols ⊆ columns old
    ∧ default [] (partitioned_by s !! path) = partition_cols
    ∧ tables s'
      = <[path := mkDF (columns old)
                       (read_back partition_cols
                          (mkDF (columns old) (rows df_all)))]> (tables s).
Proof.
  intros Hl Hup. rewrite (upsert_delta_present _ _ _ _ _ _ Hl) in Hup.
  destruct (drop_duplicates key_cols (concat old df_new)) as [df_all | e]
    eqn:Hdd; [| done].
  cbn [rbind] in Hup. exists df_all. split; [done |].
  pose proof (drop_duplicates_Ok _ _ _ Hdd) as [Hcols _].
  apply write_deltalake_Ok in Hup as (-> & Hne & Hsub & Hold & _).
  destruct (Hold old Hl) as [Hhdr Hpart].
  assert (columns (concat old df_new)
          = columns old
            ++ filter (λ c, c ∉ columns old) (remove_dups (columns df_new)))
    as Hcc by done.
  destruct (arrow_table_cases df_all) as [Ha | Ha].
  - rewrite Ha in Hhdr, Hne, Hsub |- *. cbn [columns rows tables] in *.
    rewrite <- Hhdr. split; [done |]. split; [by rewrite <- Hcols |].
    rewrite Hhdr. done.
  - exfalso. rewrite Ha, Hcols, Hcc in Hhdr.
    apply (f_equal length) in Hhdr. rewrite !length_app in Hhdr.
    simpl in Hhdr. lia.
Qed.

(** C1. Overlap, in memory and on the table. With stored rows [r1], [r2]
    of keys k1, k2 and new rows [r2'], [r3] of keys k2, k3, the frame that
    [drop_duplicates] leaves is [r1; r2; r3]: the row kept for k2 is the
    stored one. But these rows keep the labels 0, 1 and 3, which are not a
    range, so the frame is written with a column of labels that the table
    does not have: the overwrite is refused, the upsert raises, and the
    table stays [r1; r2], without k3. This holds for every version of the
    libraries. *)
Theorem upsert_overlap_is_refused
    (cols key_cols partition_cols : list string) (path : string)
    (s : Store) (r1 r2 r2' r3 : list value) :
  let key := key_of cols key_cols in
  well_formed (mkDF cols [r1; r2]) → well_formed (mkDF cols [r2'; r3]) →
  key_cols ⊆ cols →
  key r1 ≠ key r2 → key r2' = key r2 → key r3 ≠ key r1 → key r3 ≠ key r2 →
  tables s !! path = Some (mkDF cols [r1; r2]) →
  drop_duplicates key_cols (concat (mkDF cols [r1; r2]) (mkDF cols [r2'; r3]))
  = Ok (Frame cols [r1; r2; r3] (Labels 4 [0; 1; 3]%nat))
  ∧ upsert_delta (mkDF cols [r2'; r3]) path key_cols partition_cols s
    = Raise DeltaError
  ∧ tables s !! path = Some (mkDF cols [r1; r2]).
Proof.
  intros key Hold Hnew Hsub H12 H22 H31 H32 Hl.
  assert (cols ≠ []) as Hc.
  { intros ->. apply H12. unfold key, key_of.
    destruct key_cols as [| c cs]; [done |].
    exfalso. apply (not_elem_of_nil c), Hsub. left. }
  assert (drop_duplicates key_cols
            (concat (mkDF cols [r1; r2]) (mkDF cols [r2'; r3]))
          = Ok (Frame cols [r1; r2; r3] (Labels 4 [0; 1; 3]%nat))) as Hdd.
  { rewrite concat_same_header by done.
    rewrite drop_duplicates_present by done. fold key.
    assert (key_in (key r1) [] = false) as E1 by done.
    assert (key_in (key r2) [key r1] = false) as E2.
    { apply not_true_iff_false. rewrite key_in_spec.
      rewrite list_elem_of_singleton. congruence. }
    assert (key_in (key r2') [key r2; key r1] = true) as E3.
    { apply key_in_spec. rewrite H22. left. }
    assert (key_in (key r3) [key r2; key r1] = false) as E4.
    { apply not_true_iff_false. rewrite key_in_spec.
      rewrite !elem_of_cons, elem_of_nil. tauto. }
    cbn [keep_first kept_positions app length].
    rewrite E1, E2, E3, E4. done. }
  split; [exact Hdd |]. split; [| exact Hl].
  rewrite (upsert_delta_present _ _ _ _ _ _ Hl), Hdd. cbn [rbind].
  apply (write_deltalake_other_header _ _ (mkDF cols [r1; r2])); [done |].
  rewrite (arrow_table_uneven _ 4 [0; 1; 3]%nat) by done.
  cbn [columns]. intros E. apply (f_equal length) in E.
  rewrite length_app in E. simpl in E. lia.
Qed.

(** C2. Replay. Let [R] have pairwise distinct keys. Upserting [R] into a
    table that holds the rows of [R] leaves, whenever the upsert returns,
    a table with the same columns and the same rows, none added, none
    doubled; when the write is refused the upsert raises and the table is
    not written at all. The same holds for the replay after a first upsert
    of [R] into a location without a table. The replay returns when the
    labels [0 .. n-1] that [drop_duplicates] leaves are held as a range and
    the table storage accepts the write. *)
Theorem upsert_replay_keeps_rows (R : DataFrame) (path : string)
    (key_cols partition_cols : list string) :
  well_formed R →
  NoDup (map (key_of (columns R) key_cols) (rows R)) →
  (∀ (T : DataFrame) (s s' : Store),
     well_formed T → columns T = columns R → rows T ≡ₚ rows R →
     tables s !! path = Some T →
     upsert_delta R path key_cols partition_cols s = Ok s' →
     ∃ T', tables s' !! path = Some T'
           ∧ columns T' = columns R ∧ rows T' ≡ₚ rows R
           ∧ ∀ p, p ≠ path → tables s' !! p = tables s !! p)
  ∧ (∀ s s1 s2 : Store,
       index R = RangeIndex →
       tables s !! path = None →
       upsert_delta R path key_cols partition_cols s = Ok s1 →
       upsert_delta R path key_cols partition_cols s1 = Ok s2 →
       ∃ T1 T2,
         tables s1 !! path = Some T1 ∧ tables s2 !! path = Some T2
         ∧ columns T1 = columns R ∧ rows T1 ≡ₚ rows R
         ∧ columns T2 = columns R ∧ rows T2 ≡ₚ rows R)
  ∧ (∀ s : Store,
       tables s !! path = Some (mkDF (columns R) (rows R)) →
       columns R ≠ [] → rows R ≠ [] → key_cols ⊆ columns R →
       partition_cols ⊆ columns R →
       default [] (partitioned_by s !! path) = partition_cols →
       range_after_take (length (rows R) + length (rows R))
                        (seq 0 (length (rows R))) = true →
       types_accepted (Some (mkDF (columns R) (rows R)))
                      (mkDF (columns R) (rows R)) = true →
       ∃ s', upsert_delta R path key_cols partition_cols s = Ok s').
Proof.
  intros HR Hnd.
  assert (∀ (T : DataFrame) (s s' : Store),
            well_formed T → columns T = columns R → rows T ≡ₚ rows R →
            tables s !! path = Some T →
            upsert_delta R path key_cols partition_cols s = Ok s' →
            ∃ T', tables s' !! path = Some T'
                  ∧ columns T' = columns R ∧ rows T' ≡ₚ rows R
                  ∧ ∀ p, p ≠ path → tables s' !! p = tables s !! p) as Hreplay.
  { intros T s s' HT Hcols Hperm Hl Hup.
    destruct (upsert_delta_Ok _ _ _ _ _ _ _ Hl Hup)
      as (df_all & Hdd & _ & _ & Hne & _ & _ & Htab).
    rewrite concat_same_columns in Hdd by done.
    assert (rows df_all = rows T) as Hrows.
    { apply (drop_duplicates_app_seen key_cols (columns T) _ (rows R));
        [done | done | |].
      - rewrite Hcols, Hperm. done.
      - intros r Hr. rewrite Hcols. rewrite Hperm.
        apply list_elem_of_fmap. by exists r. }
    rewrite Htab. eexists. split; [apply lookup_insert_eq |].
    cbn [columns rows]. split; [done |]. split.
    - rewrite read_back_perm. cbn [rows]. by rewrite Hrows.
    - intros p Hp. by rewrite lookup_insert_ne. }
  split; [exact Hreplay |]. split.
  - intros s s1 s2 Hi Hnone Hup1 Hup2.
    rewrite (upsert_delta_absent _ _ _ _ _ Hnone) in Hup1.
    apply write_deltalake_Ok in Hup1 as (-> & _).
    rewrite (arrow_table_range R Hi) in Hup2 |- *.
    cbn [columns tables] in *.
    set (T1 := mkDF (columns R)
                    (read_back partition_cols (mkDF (columns R) (rows R))))
      in *.
    assert (rows T1 ≡ₚ rows R) as Hp1
      by apply (read_back_perm partition_cols (mkDF (columns R) (rows R))).
    assert (well_formed T1) as Hwf1.
    { destruct HR as [Hnd' Hall]. split; [done |].
      cbn [rows columns]. rewrite Forall_forall in Hall |- *.
      intros r Hr. apply Hall. by rewrite <- Hp1. }
    destruct (Hreplay T1 _ s2 Hwf1 eq_refl Hp1 (lookup_insert_eq _ _ _) Hup2)
      as (T2 & Hl2 & Hc2 & Hr2 & _).
    exists T1, T2. rewrite lookup_insert_eq. done.
  - intros s Hl Hc Hrows Hkeys Hparts Hpart Hrange Hty.
    eexists. rewrite (upsert_delta_present _ _ _ _ _ _ Hl).
    rewrite concat_same_columns; [| | done | done].
    2: { destruct HR as [? ?]. by split. }
    cbn [columns rows].
    rewrite drop_duplicates_replay; [| done | done | done | done |].
    2: { intros r Hr. apply list_elem_of_fmap. by exists r. }
    cbn [rbind]. apply write_deltalake_accepted.
    all: unfold arrow_table; cbn [index columns rows]; rewrite Hrange.
    all: cbn [columns rows].
    + done.
    + done.
    + intros old Hold. rewrite Hl in Hold. injection Hold as <-. done.
    + by rewrite Hl.
Qed.

End Upsert.

Lemma upsert_overlap_is_refused_witness :
  drop_duplicates ["from"; "to"] (concat Sample8.stored Sample8.fetched)
  = Ok (Frame Sample8.header
              [Sample8.day Sample.r1; Sample8.day Sample.r2;
               Sample8.day Sample.r3]
              (Labels 4 [0; 1; 3]%nat))
  ∧ upsert_delta (libs := Reference.libraries) Sample8.fetched INTENSITY_PATH
      ["from"; "to"] ["date_part"] Sample8.bronze_store
    = Raise DeltaError
  ∧ tables Sample8.bronze_store !! INTENSITY_PATH = Some Sample8.stored.
Proof.
  apply (upsert_overlap_is_refused (libs := Reference.libraries)
           Sample8.header ["from"; "to"] ["date_part"] INTENSITY_PATH
           Sample8.bronze_store (Sample8.day Sample.r1)
           (Sample8.day Sample.r2) (Sample8.day Sample.r2')
           (Sample8.day Sample.r3)).
  - split; by_eval.
  - split; by_eval.
  - by_eval.
  - vm_compute. discriminate.
  - vm_compute. reflexivity.
  - vm_compute. discriminate.
  - vm_compute. discriminate.
  - vm_compute. reflexivity.
Defined.

Lemma upsert_replay_keeps_rows_witness :
  ∃ s1 s2 T2,
    upsert_delta (libs := Reference.libraries) Sample8.stored INTENSITY_PATH
      ["from"; "to"] ["date_part"] (mkStore ∅ ∅) = Ok s1
    ∧ upsert_delta (libs := Reference.libraries) Sample8.stored INTENSITY_PATH
        ["from"; "to"] ["date_part"] s1 = Ok s2
    ∧ tables s2 !! INTENSITY_PATH = Some T2
    ∧ columns T2 = columns Sample8.stored
    ∧ rows T2 ≡ₚ rows Sample8.stored.
Proof.
  assert (well_formed Sample8.stored) as Hwf by (split; by_eval).
  assert (NoDup (map (key_of (columns Sample8.stored) ["from"; "to"])
                     (rows Sample8.stored))) as Hnd by by_eval.
  assert (upsert_delta (libs := Reference.libraries) Sample8.stored
            INTENSITY_PATH ["from"; "to"] ["date_part"] (mkStore ∅ ∅)
          = Ok Sample8.bronze_store) as Hup1 by (vm_compute; reflexivity).
  assert (upsert_delta (libs := Reference.libraries) Sample8.stored
            INTENSITY_PATH ["from"; "to"] ["date_part"] Sample8.bronze_store
          = Ok Sample8.replayed_store) as Hup2 by (vm_compute; reflexivity).
  destruct (upsert_replay_keeps_rows (libs := Reference.libraries)
              Sample8.stored INTENSITY_PATH ["from"; "to"] ["date_part"]
              Hwf Hnd) as (_ & Hfirst & _).
  destruct (Hfirst (mkStore ∅ ∅) Sample8.bronze_store Sample8.replayed_store
              eq_refl (lookup_empty _) Hup1 Hup2)
    as (T1 & T2 & _ & HT2 & _ & _ & Hc2 & Hr2).
  exists Sample8.bronze_store, Sample8.replayed_store, T2.
  split; [exact Hup1 |]. split; [exact Hup2 |]. split; [exact HT2 |].
  split; [exact Hc2 | exact Hr2].
Defined.

(** ** The incremental window *)

Section Windowing.
Context `{Conversions}.

Lemma series_max_ts_NaT (s : list Timestamp) :
  (∀ t, t ∈ s → t = NaT) → series_max_ts s = NaT.
Proof.
  induction s as [| t s IH]; intros Hall; simpl; [done |].
  rewrite (Hall t) by left. simpl. apply IH. intros t' Ht'. apply Hall. by right.
Qed.

Lemma series_max_ts_elem (s : list Timestamp) (m : Z) :
  series_max_ts s = At m → At m ∈ s.
Proof.
  revert m. induction s as [| [| z] s IH]; intros m E; simpl in E.
  - discriminate.
  - right. by apply IH.
  - destruct (series_max_ts s) as [| y] eqn:Ey.
    + injection E as <-. left.
    + injection E as <-. destruct (Z.max_spec z y) as [[_ ->] | [_ ->]].
      * right. by apply IH.
      * left.
Qed.

Lemma series_max_ts_ge (s : list Timestamp) (t : Z) :
  At t ∈ s → ∃ m, series_max_ts s = At m ∧ (t ≤ m)%Z.
Proof.
  induction s as [| [| z] s IH]; intros Hin.
  - by apply elem_of_nil in Hin.
  - apply elem_of_cons in Hin as [Hin | Hin]; [discriminate |]. by apply IH.
  - simpl. apply elem_of_cons in Hin as [Hin | Hin].
    + injection Hin as <-. destruct (series_max_ts s) as [| y].
      * exists t. split; [done | lia].
      * exists (Z.max t y). split; [done | lia].
    + destruct (IH Hin) as (m & -> & Hle). exists (Z.max z m). split; [done | lia].
Qed.

(** [Series.max()] returns the greatest of the instants of the column. *)
Lemma series_max_ts_At (s : list Timestamp) (T : Z) :
  At T ∈ s → (∀ t, At t ∈ s → (t ≤ T)%Z) → series_max_ts s = At T.
Proof.
  intros Hin Hmax. destruct (series_max_ts_ge s T Hin) as (m & E & Hle).
  rewrite E. f_equal. apply series_max_ts_elem, Hmax in E. lia.
Qed.

(** C3. The window: with no stored maximum (no table, an empty table, or a
    table without a ['from'] column) it is the last 7 days up to now; with
    a stored maximum [T] it starts at [T + 30 min] and ends now; and when
    that start is not before now there is no window, which is a normal
    result. *)
Theorem compute_incremental_window_spec (now : Z) (l : gmap string DataFrame)
    (path : string) :
  ((l !! path = None
    ∨ ∃ df, l !! path = Some df
            ∧ (df_empty df = true ∨ has_col "from" df = false)) →
   get_last_from_timestamp l path = None
   ∧ compute_incremental_window now l path
     = Some (isoformat_at (now - days 7), isoformat_at now))
  ∧ (∀ df T,
       l !! path = Some df → df_empty df = false → has_col "from" df = true →
       At T ∈ from_dt df → (∀ t, At t ∈ from_dt df → (t ≤ T)%Z) →
       get_last_from_timestamp l path = Some (At T)
       ∧ ((T + minutes 30 < now)%Z →
          compute_incremental_window now l path
          = Some (isoformat_at (T + minutes 30), isoformat_at now))
       ∧ ((now ≤ T + minutes 30)%Z →
          compute_incremental_window now l path = None)).
Proof.
  assert (ts_geb (At (now - days 7)) now = false) as Hboot.
  { simpl. apply Z.leb_gt. unfold days. lia. }
  split.
  - intros Hnone.
    assert (get_last_from_timestamp l path = None) as Hlast.
    { unfold get_last_from_timestamp.
      destruct Hnone as [Hl | (df & Hl & Hdf)].
      - by rewrite (is_delta_table_None l path Hl).
      - destruct (is_delta_table_Some l path df Hl) as [-> ->]. simpl.
        destruct Hdf as [-> | ->]; [by rewrite orb_true_r | done]. }
    split; [done |]. unfold compute_incremental_window.
    rewrite Hlast, Hboot. done.
  - intros df T Hl Hne Hcol Hin Hmax.
    assert (get_last_from_timestamp l path = Some (At T)) as Hlast.
    { unfold get_last_from_timestamp.
      destruct (is_delta_table_Some l path df Hl) as [-> ->].
      rewrite Hcol, Hne. simpl. f_equal. by apply series_max_ts_At. }
    split; [done |]. unfold compute_incremental_window. rewrite Hlast. simpl.
    split; intros Hcmp.
    + rewrite (proj2 (Z.leb_gt _ _)) by done. done.
    + rewrite (proj2 (Z.leb_le _ _)) by done. done.
Qed.

(** C10. A table whose ['from'] column is there and not empty but holds no
    date at all: the stored maximum is NaT, not None, and the window is
    neither the 7-day one nor absent: its start is the text ["NaT"]. *)
Theorem window_of_unparseable_from (now : Z) (l : gmap string DataFrame)
    (path : string) (df : DataFrame) :
  l !! path = Some df → has_col "from" df = true → df_empty df = false →
  (∀ v, v ∈ series "from" df → to_datetime_coerce v = VNull) →
  get_last_from_timestamp l path = Some NaT
  ∧ compute_incremental_window now l path = Some ("NaT", isoformat_at now).
Proof.
  intros Hl Hcol Hne Hall.
  assert (get_last_from_timestamp l path = Some NaT) as Hlast.
  { unfold get_last_from_timestamp.
    destruct (is_delta_table_Some l path df Hl) as [-> ->].
    rewrite Hcol, Hne. simpl. f_equal.
    apply series_max_ts_NaT. intros t Ht. unfold from_dt in Ht.
    apply list_elem_of_fmap in Ht as (v & -> & Hv). by rewrite (Hall v Hv). }
  split; [done |]. unfold compute_incremental_window. by rewrite Hlast.
Qed.

End Windowing.

Lemma compute_incremental_window_spec_witness :
  compute_incremental_window (H := Utc.conversions) Sample.noon ∅ INTENSITY_PATH
  = Some ("2023-12-27T12:00:00+00:00", "2024-01-03T12:00:00+00:00")
  ∧ get_last_from_timestamp (H := Utc.conversions)
      (Sample.lake_with INTENSITY_PATH Sample.stored) INTENSITY_PATH
    = Some (At (Sample.slot 1))
  ∧ compute_incremental_window (H := Utc.conversions) Sample.noon
      (Sample.lake_with INTENSITY_PATH Sample.stored) INTENSITY_PATH
    = Some ("2024-01-01T01:00:00+00:00", "2024-01-03T12:00:00+00:00")
  ∧ compute_incremental_window (H := Utc.conversions) (Sample.slot 2)
      (Sample.lake_with INTENSITY_PATH Sample.stored) INTENSITY_PATH
    = None.
Proof.
  assert (∀ t, At t ∈ from_dt (H := Utc.conversions) Sample.stored →
               (t ≤ Sample.slot 1)%Z) as Hmax.
  { intros t Ht.
    change (At t ∈ [At (Sample.slot 0); At (Sample.slot 1)]) in Ht.
    rewrite !elem_of_cons in Ht. destruct Ht as [Ht | [Ht | Ht]].
    - injection Ht as ->. vm_compute. discriminate.
    - injection Ht as ->. vm_compute. discriminate.
    - by apply elem_of_nil in Ht. }
  split.
  - apply (proj1 (compute_incremental_window_spec (H := Utc.conversions)
                    Sample.noon ∅ INTENSITY_PATH)).
    left. apply lookup_empty.
  - destruct (proj2 (compute_incremental_window_spec (H := Utc.conversions)
                       Sample.noon
                       (Sample.lake_with INTENSITY_PATH Sample.stored)
                       INTENSITY_PATH)
                Sample.stored (Sample.slot 1)
                (lookup_singleton_eq _ _) eq_refl eq_refl
                ltac:(by_eval) Hmax) as (Hlast & Hwin & _).
    destruct (proj2 (compute_incremental_window_spec (H := Utc.conversions)
                       (Sample.slot 2)
                       (Sample.lake_with INTENSITY_PATH Sample.stored)
                       INTENSITY_PATH)
                Sample.stored (Sample.slot 1)
                (lookup_singleton_eq _ _) eq_refl eq_refl
                ltac:(by_eval) Hmax) as (_ & _ & Hnone).
    split; [exact Hlast |].
    split; [apply Hwin; vm_compute; reflexivity |].
    apply Hnone. vm_compute. discriminate.
Defined.

Lemma window_of_unparseable_from_witness :
  get_last_from_timestamp (H := Utc.conversions)
    (Sample.lake_with INTENSITY_PATH Sample.unparseable) INTENSITY_PATH
  = Some NaT
  ∧ compute_incremental_window (H := Utc.conversions) Sample.noon
      (Sample.lake_with INTENSITY_PATH Sample.unparseable) INTENSITY_PATH
    = Some ("NaT", "2024-01-03T12:00:00+00:00").
Proof.
  apply (window_of_unparseable_from (H := Utc.conversions) Sample.noon
           (Sample.lake_with INTENSITY_PATH Sample.unparseable)
           INTENSITY_PATH Sample.unparseable).
  - apply lookup_singleton_eq.
  - reflexivity.
  - reflexivity.
  - intros v Hv. change (v ∈ [VStr "yesterday"; VStr "n/a"]) in Hv.
    rewrite !elem_of_cons in Hv. destruct Hv as [-> | [-> | Hv]].
    + reflexivity.
    + reflexivity.
    + by apply elem_of_nil in Hv.
Defined.

(** ** Classification *)

Lemma Qcleb_le (x y : Qc) : Qcleb x y = true ↔ (x <= y)%Qc.
Proof. unfold Qcleb, Qcle. apply Qle_bool_iff. Qed.

Lemma Qcleb_gt (x y : Qc) : Qcleb x y = false ↔ (y < x)%Qc.
Proof.
  rewrite <- not_true_iff_false, Qcleb_le. split.
  - apply Qcnot_le_lt.
  - apply Qclt_not_le.
Qed.

(** C5. The boundaries of the two classifications. Intensity: 100 is low,
    100.01 and 200 are moderate, 200.01 and 300 are high, 300.01 is very
    high, null is unknown, and in general the classes are the intervals
    closed on the right at 100, 200 and 300. Factor: at most 150 is low,
    above 150 and at most 400 is medium, above 400 is high, null is
    unknown. *)
Theorem classification_boundaries :
  (classify_intensity (Some (num 100)) = "low"
   ∧ classify_intensity (Some (frac 10001 100)) = "moderate"
   ∧ classify_intensity (Some (num 200)) = "moderate"
   ∧ classify_intensity (Some (frac 20001 100)) = "high"
   ∧ classify_intensity (Some (num 300)) = "high"
   ∧ classify_intensity (Some (frac 30001 100)) = "very high"
   ∧ classify_intensity None = "unknown")
  ∧ (∀ v : Qc,
       ((v <= num 100)%Qc → classify_intensity (Some v) = "low")
       ∧ ((num 100 < v)%Qc → (v <= num 200)%Qc →
          classify_intensity (Some v) = "moderate")
       ∧ ((num 200 < v)%Qc → (v <= num 300)%Qc →
          classify_intensity (Some v) = "high")
       ∧ ((num 300 < v)%Qc → classify_intensity (Some v) = "very high"))
  ∧ (classify_factor None = "unknown"
     ∧ ∀ v : Qc,
         ((v <= num 150)%Qc → classify_factor (Some v) = "low")
         ∧ ((num 150 < v)%Qc → (v <= num 400)%Qc →
            classify_factor (Some v) = "medium")
         ∧ ((num 400 < v)%Qc → classify_factor (Some v) = "high")).
Proof.
  assert (num 100 < num 200)%Qc as H12 by reflexivity.
  assert (num 200 < num 300)%Qc as H23 by reflexivity.
  assert (num 150 < num 400)%Qc as Hf by reflexivity.
  split; [repeat split; reflexivity |]. split.
  - intros v. unfold classify_intensity. repeat split.
    + intros H1. by rewrite (proj2 (Qcleb_le _ _) H1).
    + intros H1 H2.
      by rewrite (proj2 (Qcleb_gt _ _) H1), (proj2 (Qcleb_le _ _) H2).
    + intros H2 H3.
      assert (num 100 < v)%Qc as H1 by (by eapply Qclt_trans).
      by rewrite (proj2 (Qcleb_gt _ _) H1), (proj2 (Qcleb_gt _ _) H2),
                 (proj2 (Qcleb_le _ _) H3).
    + intros H3.
      assert (num 200 < v)%Qc as H2 by (by eapply Qclt_trans).
      assert (num 100 < v)%Qc as H1 by (by eapply Qclt_trans).
      by rewrite (proj2 (Qcleb_gt _ _) H1), (proj2 (Qcleb_gt _ _) H2),
                 (proj2 (Qcleb_gt _ _) H3).
  - split; [reflexivity |]. intros v. unfold classify_factor. repeat split.
    + intros H1. by rewrite (proj2 (Qcleb_le _ _) H1).
    + intros H1 H2.
      by rewrite (proj2 (Qcleb_gt _ _) H1), (proj2 (Qcleb_le _ _) H2).
    + intros H2.
      assert (num 150 < v)%Qc as H1 by (by eapply Qclt_trans).
      by rewrite (proj2 (Qcleb_gt _ _) H1), (proj2 (Qcleb_gt _ _) H2).
Qed.

Lemma classification_boundaries_witness :
  classify_intensity (Some (num 250)) = "high"
  ∧ classify_factor (Some (num 150)) = "low"
  ∧ classify_factor (Some (num 400)) = "medium"
  ∧ classify_factor (Some (frac 40001 100)) = "high".
Proof.
  destruct classification_boundaries as (_ & Hi & _ & Hf).
  split; [apply (Hi (num 250)); reflexivity || (intros E; discriminate E) |].
  split; [apply (Hf (num 150)); intros E; discriminate E |].
  split; [apply (Hf (num 400)); reflexivity || (intros E; discriminate E) |].
  apply (Hf (frac 40001 100)). reflexivity.
Defined.

(** ** The unified metric *)

(** Every row after an assignment comes from a row before it, with the
    assigned column computed from that row and the others unchanged. *)
Lemma in_assign (c : string) (f : (string → value) → value) (df : DataFrame)
    (r' : list value) :
  r' ∈ rows (assign c f df) →
  ∃ r, r ∈ rows df
       ∧ ∀ x, cell (columns (assign c f df)) x r'
              = if decide (x = c) then f (λ y, cell (columns df) y r)
                else cell (columns df) x r.
Proof.
  unfold assign. simpl. intros Hin.
  apply list_elem_of_fmap in Hin as (r & -> & Hr). exists r. split; [done |].
  intros x. rewrite cell_map.
  destruct (decide (x = c)) as [-> | Hne].
  - rewrite decide_True; [done |]. unfold has_col.
    destruct (bool_decide (c ∈ columns df)) eqn:E.
    + by apply bool_decide_eq_true in E.
    + apply elem_of_app. right. left.
  - destruct (decide (x ∈ (if has_col c df then columns df else columns df ++ [c])))
      as [Hin | Hn]; [done |].
    symmetry. apply cell_absent. intros Hx. apply Hn.
    destruct (has_col c df); [done |]. apply elem_of_app. by left.
Qed.

Lemma in_coerce_present (conv : value → value) (c : string) (df : DataFrame)
    (r' : list value) :
  r' ∈ rows (coerce_present conv c df) →
  ∃ r, r ∈ rows df
       ∧ ∀ x, x ≠ c →
              cell (columns (coerce_present conv c df)) x r'
              = cell (columns df) x r.
Proof.
  unfold coerce_present. destruct (has_col c df).
  - intros Hin. apply in_assign in Hin as (r & Hr & Hcell).
    exists r. split; [done |]. intros x Hne.
    rewrite Hcell, decide_False by done. done.
  - intros Hin. by exists r'.
Qed.

Section Metric.
Context `{Conversions}.

(** The chain of assignments of [transform_intensity], read backwards from
    a row of the result. *)
Ltac back_step Hr r E :=
  apply in_assign in Hr as (r & Hr & E).
Ltac read E x :=
  rewrite (E x);
  first [ rewrite decide_True by reflexivity
        | rewrite decide_False by discriminate ].

(** C6. The unified metric. In every row of the detail table,
    [intensity_value] is [intensity.actual] when that is not null and
    [intensity.forecast] otherwise, both being the numeric readings of the
    bronze row it comes from, and [intensity_level] is the class of
    [intensity_value]. So a null actual with a forecast of 42 gives 42, and
    two nulls give null, classified ["unknown"]. *)
Theorem intensity_value_fallback (now : Z) (df out : DataFrame) :
  transform_intensity now df = Ok out → df_empty df = false →
  ∀ r', r' ∈ rows out →
    let get := λ x, cell (columns out) x r' in
    get "intensity_value"
    = (if isna (get "intensity.actual") then get "intensity.forecast"
       else get "intensity.actual")
    ∧ get "intensity_level"
      = VStr (classify_intensity (float_of (get "intensity_value")))
    ∧ (∃ r, r ∈ rows df
            ∧ get "intensity.actual"
              = to_numeric (cell (columns df) "intensity.actual" r)
            ∧ get "intensity.forecast"
              = to_numeric (cell (columns df) "intensity.forecast" r))
    ∧ (get "intensity.actual" = VNull →
       get "intensity.forecast" = VNum (num 42) →
       get "intensity_value" = VNum (num 42))
    ∧ (get "intensity.actual" = VNull →
       get "intensity.forecast" = VNull →
       get "intensity_value" = VNull
       ∧ get "intensity_level" = VStr "unknown").
Proof.
  intros Hout Hne r' Hr. unfold transform_intensity in Hout.
  rewrite Hne in Hout.
  set (df1 := coerce_present to_datetime_coerce "to"
                (coerce_present to_datetime_coerce "from" df)) in Hout.
  destruct (drop_duplicates ["from"; "to"] df1) as [df2 | e] eqn:Hdd;
    [| discriminate]. cbn [rbind] in Hout.
  destruct (has_col "from" df2); [| discriminate]. cbn [negb] in Hout.
  injection Hout as Hout. rewrite <- Hout in Hr.
  back_step Hr r11 E11. rewrite Hout in E11. clear Hout.
  back_step Hr r10 E10. back_step Hr r9 E9.
  back_step Hr r8 E8. back_step Hr r7 E7. back_step Hr r6 E6.
  back_step Hr r5 E5. back_step Hr r4 E4. back_step Hr r3 E3.
  back_step Hr r2 E2. back_step Hr r1 E1.
  apply drop_duplicates_Ok in Hdd as [Hcols Hsub]. apply Hsub in Hr.
  apply in_coerce_present in Hr as (rb & Hr & Eb).
  apply in_coerce_present in Hr as (ra & Hr & Ea).
  set (A := to_numeric (cell (columns df) "intensity.actual" ra)).
  set (F := to_numeric (cell (columns df) "intensity.forecast" ra)).
  assert (cell (columns df2) "intensity.actual" r1
          = cell (columns df) "intensity.actual" ra) as HA.
  { rewrite Hcols, Eb by discriminate. apply Ea. discriminate. }
  assert (cell (columns df2) "intensity.forecast" r1
          = cell (columns df) "intensity.forecast" ra) as HF.
  { rewrite Hcols, Eb by discriminate. apply Ea. discriminate. }
  cbv beta zeta.
  assert (cell (columns out) "intensity.actual" r' = A) as ->.
  { read E11 "intensity.actual". read E10 "intensity.actual".
    read E9 "intensity.actual". read E8 "intensity.actual".
    read E7 "intensity.actual". read E6 "intensity.actual".
    read E5 "intensity.actual". read E4 "intensity.actual".
    read E3 "intensity.actual". read E2 "intensity.actual".
    read E1 "intensity.actual". by rewrite HA. }
  assert (cell (columns out) "intensity.forecast" r' = F) as ->.
  { read E11 "intensity.forecast". read E10 "intensity.forecast".
    read E9 "intensity.forecast". read E8 "intensity.forecast".
    read E7 "intensity.forecast". read E6 "intensity.forecast".
    read E5 "intensity.forecast". read E4 "intensity.forecast".
    read E3 "intensity.forecast". read E2 "intensity.forecast".
    read E1 "intensity.forecast". by rewrite HF. }
  assert (cell (columns out) "intensity_value" r' = fillna A F) as ->.
  { read E11 "intensity_value". read E10 "intensity_value".
    read E9 "intensity_value". f_equal.
    - read E8 "intensity.actual". read E7 "intensity.actual".
      read E6 "intensity.actual". read E5 "intensity.actual".
      read E4 "intensity.actual". read E3 "intensity.actual".
      read E2 "intensity.actual". read E1 "intensity.actual". by rewrite HA.
    - read E8 "intensity.forecast". read E7 "intensity.forecast".
      read E6 "intensity.forecast". read E5 "intensity.forecast".
      read E4 "intensity.forecast". read E3 "intensity.forecast".
      read E2 "intensity.forecast". read E1 "intensity.forecast".
      by rewrite HF. }
  assert (cell (columns out) "intensity_level" r'
          = VStr (classify_intensity (float_of (fillna A F)))) as ->.
  { read E11 "intensity_level". read E10 "intensity_level". do 3 f_equal.
    read E9 "intensity_value". f_equal.
    - read E8 "intensity.actual". read E7 "intensity.actual".
      read E6 "intensity.actual". read E5 "intensity.actual".
      read E4 "intensity.actual". read E3 "intensity.actual".
      read E2 "intensity.actual". read E1 "intensity.actual". by rewrite HA.
    - read E8 "intensity.forecast". read E7 "intensity.forecast".
      read E6 "intensity.forecast". read E5 "intensity.forecast".
      read E4 "intensity.forecast". read E3 "intensity.forecast".
      read E2 "intensity.forecast". read E1 "intensity.forecast".
      by rewrite HF. }
  split; [done |]. split; [done |].
  split; [exists ra; done |]. unfold fillna.
  split; [intros -> ->; done | intros -> ->; done].
Qed.

End Metric.

Lemma intensity_value_fallback_witness :
  (cell (columns Sample.silver) "intensity_value" (Sample.silver_row 1)
   = VNum (num 42))
  ∧ (cell (columns Sample.silver) "intensity_value" (Sample.silver_row 2)
     = VNull
     ∧ cell (columns Sample.silver) "intensity_level" (Sample.silver_row 2)
       = VStr "unknown").
Proof.
  assert (transform_intensity (H := Utc.conversions) Sample.noon Sample.bronze
          = Ok Sample.silver) as Hout by (vm_compute; reflexivity).
  split.
  - refine (proj1 (proj2 (proj2 (proj2
      (intensity_value_fallback (H := Utc.conversions) Sample.noon
         Sample.bronze Sample.silver Hout _ (Sample.silver_row 1) _)))) _ _).
    + reflexivity.
    + by_eval.
    + vm_compute. reflexivity.
    + vm_compute. reflexivity.
  - refine (proj2 (proj2 (proj2 (proj2
      (intensity_value_fallback (H := Utc.conversions) Sample.noon
         Sample.bronze Sample.silver Hout _ (Sample.silver_row 2) _)))) _ _).
    + reflexivity.
    + by_eval.
    + vm_compute. reflexivity.
    + vm_compute. reflexivity.
Defined.

(** ** Retries *)

Lemma after_attempts_step (w : World) (url : string) (k : nat) :
  after_attempts
    (mkWorld (http w) (S (sent w)) (clock w + 2 * 1000000000) (lake w)
             ((trace w ++ [EvRequest url]) ++ [EvSleep 2]) (partitions w))
    url k
  = after_attempts w url (S k).
Proof.
  unfold after_attempts. simpl. f_equal; [lia | lia |].
  by rewrite <- !app_assoc.
Qed.

(** The loop, run against [k] request errors and then one more answer. *)
Lemma call_api_loop_run (url : string) (retries : Z) (k : nat) :
  ∀ (remaining : nat) (attempt : Z) (w : World),
    (k < remaining)%nat → attempt + Z.of_nat remaining = retries + 1 →
    fail_first w url k →
    match http w (sent w + k)%nat url with
    | Responded body =>
        call_api_loop url retries attempt remaining w
        = (Ok body, after_attempts w url k)
    | RequestFailed err =>
        S k = remaining →
        call_api_loop url retries attempt remaining w
        = (Raise (RequestException err), after_attempts w url k)
    | Crashed e =>
        call_api_loop url retries attempt remaining w
        = (Raise e, after_attempts w url k)
    end.
Proof.
  induction k as [| k IH]; intros remaining attempt w Hk Hinv Hfail.
  - destruct remaining as [| remaining]; [lia |].
    assert (after_attempts w url 0
            = mkWorld (http w) (S (sent w)) (clock w) (lake w)
                      (trace w ++ [EvRequest url]) (partitions w)) as ->.
    { unfold after_attempts. simpl. f_equal; lia. }
    simpl. unfold bind, http_get. rewrite Nat.add_0_r.
    destruct (http w (sent w) url) as [body | err | e]; [done | | done].
    intros E. assert (attempt = retries) as -> by lia.
    rewrite Z.eqb_refl. done.
  - destruct remaining as [| remaining]; [lia |].
    destruct (Hfail 0%nat) as [err0 H0]; [lia |].
    rewrite Nat.add_0_r in H0.
    assert (call_api_loop url retries attempt (S remaining) w
            = call_api_loop url retries (attempt + 1) remaining
                (mkWorld (http w) (S (sent w)) (clock w + 2 * 1000000000)
                         (lake w) ((trace w ++ [EvRequest url]) ++ [EvSleep 2])
                         (partitions w)))
      as Hstep.
    { simpl. unfold bind at 1. unfold http_get at 1. simpl. rewrite H0.
      rewrite (proj2 (Z.eqb_neq attempt retries)) by lia.
      unfold bind, sleep. simpl. done. }
    rewrite Hstep.
    match goal with |- context [call_api_loop _ _ _ _ ?w'] =>
      specialize (IH remaining (attempt + 1) w') end.
    simpl in IH. replace (S (sent w + k)) with (sent w + S k)%nat in IH by lia.
    rewrite after_attempts_step in IH.
    assert (∀ i, (i < k)%nat →
              ∃ err, http w (S (sent w + i)) url = RequestFailed err) as Hfail'.
    { intros i Hi. destruct (Hfail (S i)) as [err Herr]; [lia |].
      exists err. rewrite <- Herr. f_equal. lia. }
    specialize (IH ltac:(lia) ltac:(lia) Hfail').
    destruct (http w (sent w + S k)%nat url) as [body | err | e]; [done | | done].
    intros E. apply IH. lia.
Qed.

(** No more than [remaining] requests are made, whatever the answers. *)
Lemma call_api_loop_bound (url : string) (retries : Z) (remaining : nat) :
  ∀ (attempt : Z) (w : World),
    (sent (call_api_loop url retries attempt remaining w).2
     ≤ sent w + remaining)%nat.
Proof.
  induction remaining as [| remaining IH]; intros attempt w; simpl; [lia |].
  unfold bind at 1. unfold http_get at 1. simpl.
  destruct (http w (sent w) url) as [body | err | e]; simpl; [lia | | lia].
  destruct (attempt =? retries)%Z; simpl; [lia |].
  unfold bind, sleep. simpl.
  match goal with |- context [call_api_loop _ _ _ _ ?w'] =>
    specialize (IH (attempt + 1) w') end.
  simpl in IH. lia.
Qed.

(** C9. Bounded retry. With [retries >= 1]: a response at attempt [k + 1]
    after [k] request errors is returned as parsed, after [k] pauses of 2
    seconds; when all [retries] attempts end in a request error, the error
    of the last one is raised to the caller, after [retries - 1] pauses;
    and never more than [retries] requests are made. *)
Theorem call_api_retries (path : string) (retries : Z) (w : World) :
  (1 ≤ retries)%Z →
  let url := BASE_URL +:+ path in
  let n := Z.to_nat retries in
  (∀ k body,
     (k < n)%nat → fail_first w url k →
     http w (sent w + k)%nat url = Responded body →
     call_api path retries w = (Ok body, after_attempts w url k))
  ∧ (∀ err,
       fail_first w url (n - 1) →
       http w (sent w + (n - 1))%nat url = RequestFailed err →
       call_api path retries w
       = (Raise (RequestException err), after_attempts w url (n - 1)))
  ∧ (sent (call_api path retries w).2 ≤ sent w + n)%nat.
Proof.
  intros Hr url n. unfold call_api. fold url. fold n. repeat split.
  - intros k body Hk Hfail Hresp.
    pose proof (call_api_loop_run url retries k n 1 w Hk ltac:(lia) Hfail) as Hrun.
    by rewrite Hresp in Hrun.
  - intros err Hfail Herr.
    pose proof (call_api_loop_run url retries (n - 1) n 1 w
                  ltac:(lia) ltac:(lia) Hfail) as Hrun.
    rewrite Herr in Hrun. apply Hrun. lia.
  - apply call_api_loop_bound.
Qed.

Lemma call_api_retries_witness :
  call_api "/intensity/factors" 3
    (Sample.world (Sample.flaky Sample.factors_body) ∅)
  = (Ok Sample.factors_body,
     after_attempts (Sample.world (Sample.flaky Sample.factors_body) ∅)
       (BASE_URL +:+ "/intensity/factors") 2)
  ∧ call_api "/intensity/factors" 3 (Sample.world Sample.down ∅)
    = (Raise (RequestException "connection refused"),
       after_attempts (Sample.world Sample.down ∅)
         (BASE_URL +:+ "/intensity/factors") 2).
Proof.
  split.
  - apply (proj1 (call_api_retries "/intensity/factors" 3
                    (Sample.world (Sample.flaky Sample.factors_body) ∅)
                    ltac:(lia)) 2%nat Sample.factors_body).
    + vm_compute. lia.
    + intros i Hi. exists "timeout".
      destruct i as [| [| i]]; [reflexivity | reflexivity | lia].
    + reflexivity.
  - apply (proj1 (proj2 (call_api_retries "/intensity/factors" 3
                           (Sample.world Sample.down ∅) ltac:(lia)))
             "connection refused").
    + intros i Hi. by exists "connection refused".
    + reflexivity.
Defined.

(** ** Full refresh of the factors *)

Lemma set_lake_same (w : World) : set_lake w (lake w) = w.
Proof. by destruct w. Qed.

Lemma set_store_same (w : World) : set_store w (store w) = w.
Proof. by destruct w. Qed.

(** The requests do not read the lake and do not change it. *)
Lemma call_api_loop_lake (url : string) (retries : Z) (remaining : nat) :
  ∀ (attempt : Z) (w : World) (l : gmap string DataFrame),
    call_api_loop url retries attempt remaining (set_lake w l)
    = ((call_api_loop url retries attempt remaining w).1,
       set_lake (call_api_loop url retries attempt remaining w).2 l).
Proof.
  induction remaining as [| remaining IH]; intros attempt w l; [done |].
  cbn [call_api_loop]. unfold bind, http_get, sleep, ret, raise. simpl.
  destruct (http w (sent w) url) as [body | err | e]; [done | | done].
  destruct (attempt =? retries)%Z; [done |]. cbn.
  match goal with
  | |- context [call_api_loop _ _ _ _ (mkWorld ?h ?s ?c l ?t ?p)] =>
      change (mkWorld h s c l t p)
        with (set_lake (mkWorld h s c (lake w) t p) l)
  end.
  by rewrite IH.
Qed.


Lemma get_intensity_factors_lake (w : World) (l : gmap string DataFrame) :
  get_intensity_factors (set_lake w l)
  = ((get_intensity_factors w).1, set_lake (get_intensity_factors w).2 l).
Proof.
  unfold get_intensity_factors, call_api, bind. rewrite call_api_loop_lake.
  destruct (call_api_loop _ 3 1 _ w) as [[data | e] w1]; [| done]. simpl.
  unfold lift. destruct (dict_get data "data" (VList [])); [| done].
  done.
Qed.

Lemma get_intensity_factors_keeps_lake (w : World) :
  lake (get_intensity_factors w).2 = lake w.
Proof.
  rewrite <- (set_lake_same w) at 1. by rewrite get_intensity_factors_lake.
Qed.



Lemma assign_row_count (c : string) (f : (string → value) → value)
    (df : DataFrame) :
  length (rows (assign c f df)) = length (rows df).
Proof. unfold assign. simpl. apply length_map. Qed.


Section Factors.
Context `{Conversions} {libs : Libraries}.

Lemma normalize_factors_row_count (now : Z) (df : DataFrame) :
  length (rows (normalize_factors now df)) = length (rows df).
Proof.
  unfold normalize_factors. destruct (df_empty df); [done |].
  rewrite assign_row_count.
  generalize (filter (λ c, contains "gco2" c = true)
                     (columns (rename (λ c, strip (lower c)) df))).
  intros cs. change (rows df) with (rows (rename (λ c, strip (lower c)) df)).
  generalize (rename (λ c, strip (lower c)) df). clear df.
  induction cs as [| c cs IH]; intros df; [done |].
  simpl. rewrite IH. apply assign_row_count.
Qed.


(** The run, once the catalog is fetched: one write, of the normalized
    frame, without partition columns. *)
Lemma run_full_factors_unfold (w : World) :
  run_full_factors w
  = match get_intensity_factors w with
    | (Ok df_raw, w1) =>
        match write_deltalake FACTORS_PATH
                (normalize_factors (clock w1) df_raw) [] (store w1) with
        | Ok s' => (Ok tt, set_store w1 s')
        | Raise e => (Raise e, w1)
        end
    | (Raise e, w1) => (Raise e, w1)
    end.
Proof.
  unfold run_full_factors, bind, get_now, get_store, lift, put_store.
  destruct (get_intensity_factors w) as [[df_raw | e] w1]; [| done].
  by destruct (write_deltalake _ _ _ _).
Qed.


End Factors.



(** ** The daily aggregate *)

Lemma rmap_list_Ok {A B} (f : A → result B) (l : list A) (ys : list B) :
  rmap_list f l = Ok ys → Forall2 (λ x y, f x = Ok y) l ys.
Proof.
  revert ys. induction l as [| x l IH]; intros ys E; simpl in E.
  - injection E as <-. constructor.
  - destruct (f x) as [y | e] eqn:Ey; [| discriminate]. simpl in E.
    destruct (rmap_list f l) as [ys' | e]; [| discriminate]. simpl in E.
    injection E as <-. constructor; [done | by apply IH].
Qed.

Lemma filter_map_length {A B} (P : B → Prop) `{∀ y, Decision (P y)}
    (g : A → B) (l : list A) :
  length (filter P (map g l)) = length (filter (λ x, P (g x)) l).
Proof.
  induction l as [| x l IH]; [done |]. simpl.
  rewrite !filter_cons. destruct (decide (P (g x))); simpl; by rewrite IH.
Qed.

(** What [interval_count] is in the code: for the date [k] of an output
    row, the number of detail rows of that date whose [intensity_value] is
    not null. *)
Lemma groupby_interval_count (df agg : DataFrame) :
  groupby_date_agg df = Ok agg →
  ∀ r, r ∈ rows agg →
    cell (columns agg) "interval_count" r
    = VNum (num (Z.of_nat (length
        (filter (λ row, isna (cell (columns df) "intensity_value" row) = false)
                (group_rows "date" (cell (columns agg) "date" r) df))))).
Proof.
  unfold groupby_date_agg. destruct (has_col "intensity_value" df); [| done].
  simpl. destruct (rmap_list _ _) as [rs | e] eqn:E; [| done]. simpl.
  intros Hagg. injection Hagg as <-. simpl. intros r Hr.
  apply rmap_list_Ok in E.
  apply list_elem_of_lookup in Hr as [i Hi].
  destruct (Forall2_lookup_r _ _ _ _ _ E Hi) as (k & _ & Hk).
  destruct (numeric_cells _) as [qs | e]; [| done]. simpl in Hk.
  injection Hk as <-. unfold agg_count.
  rewrite filter_map_length. reflexivity.
Qed.

(** C4, at the day with values 80, 120 and null. The mean is 100 and the
    maximum 120, as stated, but [interval_count] is 2, the number of
    non-null values, while the day has 3 detail rows. *)
Theorem daily_count_skips_null :
  build_intensity_daily (H := Utc.conversions) Sample.noon Sample.detail
  = Ok Sample.daily
  ∧ series "date" Sample.detail
    = [VStr "2024-01-01"; VStr "2024-01-01"; VStr "2024-01-01"]
  ∧ series "intensity_value" Sample.detail
    = [VNum (num 80); VNum (num 120); VNull]
  ∧ series "date" Sample.daily = [VStr "2024-01-01"]
  ∧ series "intensity_mean" Sample.daily = [VNum (num 100)]
  ∧ series "intensity_max" Sample.daily = [VNum (num 120)]
  ∧ series "interval_count" Sample.daily = [VNum (num 2)]
  ∧ length (group_rows "date" (VStr "2024-01-01") Sample.detail) = 3%nat.
Proof.
  split; [vm_compute; reflexivity |].
  repeat split; by_eval.
Qed.

(** ** Empty results *)




(** The same for an object whose ['data'] is null. *)
Lemma null_data_is_fatal :
  (get_intensity_range "2024-01-01T00:30:00+00:00" "2024-01-03T12:00:00+00:00"
     (Sample.world (Sample.always Sample.null_data) ∅)).1
  = Raise NotImplementedError.
Proof. vm_compute. reflexivity. Qed.

Section EmptyResults.
Context `{Conversions} {libs : Libraries}.




End EmptyResults.


(* ===================================================================== *)
(** * Further properties of the code *)
(* ===================================================================== *)

(** ** [call_api]: bounds of the loop *)

(** X1. With [retries <= 0] the loop body never runs: no request is made,
    nothing is raised, and the caller gets None. *)
Theorem call_api_no_attempt (path : string) (retries : Z) (w : World) :
  (retries ≤ 0)%Z → call_api path retries w = (Ok VNull, w).
Proof.
  intros Hr. unfold call_api.
  assert (Z.to_nat retries = 0%nat) as -> by lia. done.
Qed.

Lemma call_api_no_attempt_witness :
  call_api "/intensity/factors" 0 (Sample.world Sample.down ∅)
  = (Ok VNull, Sample.world Sample.down ∅).
Proof. apply call_api_no_attempt. lia. Defined.

(** X2. Only request errors are retried: an attempt that raises anything
    else ends the call at once with that exception, without a pause and
    without another request. *)
Theorem call_api_other_exception (path : string) (retries : Z) (w : World)
    (k : nat) (e : exn) :
  (k < Z.to_nat retries)%nat →
  fail_first w (BASE_URL +:+ path) k →
  http w (sent w + k)%nat (BASE_URL +:+ path) = Crashed e →
  call_api path retries w
  = (Raise e, after_attempts w (BASE_URL +:+ path) k).
Proof.
  intros Hk Hfail Hcrash. unfold call_api.
  pose proof (call_api_loop_run (BASE_URL +:+ path) retries k
                (Z.to_nat retries) 1 w Hk ltac:(lia) Hfail) as Hrun.
  by rewrite Hcrash in Hrun.
Qed.

Lemma call_api_other_exception_witness :
  call_api "/intensity/factors" 3
    (Sample.world (λ n _, match n with
                          | O => RequestFailed "timeout"
                          | _ => Crashed TypeError
                          end) ∅)
  = (Raise TypeError,
     after_attempts
       (Sample.world (λ n _, match n with
                             | O => RequestFailed "timeout"
                             | _ => Crashed TypeError
                             end) ∅)
       (BASE_URL +:+ "/intensity/factors") 1).
Proof.
  apply (call_api_other_exception "/intensity/factors" 3 _ 1%nat TypeError).
  - vm_compute. lia.
  - intros i Hi. exists "timeout". destruct i as [| i]; [reflexivity | lia].
  - reflexivity.
Defined.

(** The pauses of the loop when [attempt] counts up to [retries]: one less
    than the iterations left. *)
Lemma call_api_loop_clock (url : string) (retries : Z) (remaining : nat) :
  ∀ (attempt : Z) (w : World),
    attempt + Z.of_nat remaining = retries + 1 →
    (clock w ≤ clock (call_api_loop url retries attempt remaining w).2
     ≤ clock w + 2 * 1000000000 * Z.max 0 (Z.of_nat remaining - 1))%Z.
Proof.
  induction remaining as [| remaining IH]; intros attempt w Hinv.
  - cbn [call_api_loop ret snd]. lia.
  - cbn [call_api_loop]. unfold bind, http_get, sleep, ret, raise.
    cbn [http sent clock lake trace fst snd].
    destruct (http w (sent w) url) as [body | err | e];
      [cbn [snd clock]; lia | | cbn [snd clock]; lia].
    destruct (attempt =? retries)%Z eqn:E; [cbn [snd clock]; lia |].
    apply Z.eqb_neq in E. cbn [http sent clock lake trace fst snd].
    match goal with |- context [call_api_loop _ _ _ _ ?w'] =>
      specialize (IH (attempt + 1) w' ltac:(lia)) end.
    cbn [clock] in IH. lia.
Qed.

(** X3. The time a call spends sleeping is bounded: at most
    [retries - 1] pauses of 2 seconds, none after the last attempt, and the
    clock never goes back. *)
Theorem call_api_sleep_bound (path : string) (retries : Z) (w : World) :
  (1 ≤ retries)%Z →
  (clock w ≤ clock (call_api path retries w).2
   ≤ clock w + 2 * 1000000000 * (retries - 1))%Z.
Proof.
  intros Hr. unfold call_api.
  pose proof (call_api_loop_clock (BASE_URL +:+ path) retries
                (Z.to_nat retries) 1 w ltac:(lia)) as Hc.
  lia.
Qed.

Lemma call_api_sleep_bound_witness :
  (clock (Sample.world Sample.down ∅)
   ≤ clock (call_api "/intensity/factors" 3 (Sample.world Sample.down ∅)).2
   ≤ clock (Sample.world Sample.down ∅) + 2 * 1000000000 * (3 - 1))%Z.
Proof. apply call_api_sleep_bound. lia. Defined.

(** ** [upsert_delta]: what a write guarantees *)

Lemma keep_first_complete (key : list value → list value)
    (seen : list (list value)) (l : list (list value)) (r : list value) :
  r ∈ l → key r ∈ seen ∨ key r ∈ map key (keep_first key seen l).
Proof.
  revert seen. induction l as [| x l IH]; intros seen Hin.
  - by apply elem_of_nil in Hin.
  - simpl. destruct (key_in (key x) seen) eqn:E.
    + apply elem_of_cons in Hin as [-> | Hin]; [| by apply IH].
      left. by apply key_in_spec.
    + apply elem_of_cons in Hin as [-> | Hin]; [right; left |].
      destruct (IH (key x :: seen) Hin) as [Hs | Hk].
      * apply elem_of_cons in Hs as [-> | Hs]; [right; left | by left].
      * right. by right.
Qed.

Lemma df_empty_perm (cols : list string) (rs1 rs2 : list (list value))
    (i1 i2 : Index) :
  rs1 ≡ₚ rs2 → df_empty (Frame cols rs1 i1) = df_empty (Frame cols rs2 i2).
Proof.
  intros Hp. unfold df_empty. cbn [columns rows]. destruct cols; [done |].
  destruct rs1, rs2; try done.
  - by apply Permutation_nil_cons in Hp.
  - symmetry in Hp. by apply Permutation_nil_cons in Hp.
Qed.

(** In a frame that [drop_duplicates] has left and that is not empty, no
    key occurs twice. *)
Lemma drop_duplicates_keys_distinct (subset : list string)
    (df df' : DataFrame) :
  drop_duplicates subset df = Ok df' → df_empty df' = false →
  NoDup (map (key_of (columns df') subset) (rows df')).
Proof.
  unfold drop_duplicates. destruct (df_empty df) eqn:He.
  - intros [= <-]. congruence.
  - destruct (filter _ subset); [| done]. intros [= <-] _.
    cbn [columns rows]. apply keep_first_NoDup.
Qed.

Section UpsertGuarantees.
Context {libs : Libraries}.

(** X4. Whatever the stored table and the new rows are, a successful
    upsert into an existing table leaves a table in which no key occurs
    twice (unless the result is an empty frame, which is stored as it is),
    and it touches no other location. *)
Theorem upsert_delta_keys_distinct (df_new old : DataFrame) (path : string)
    (key_cols partition_cols : list string) (s s' : Store) :
  tables s !! path = Some old →
  upsert_delta df_new path key_cols partition_cols s = Ok s' →
  ∃ merged,
    tables s' !! path = Some merged
    ∧ columns merged = columns (concat old df_new)
    ∧ (df_empty merged = false →
       NoDup (map (key_of (columns merged) key_cols) (rows merged)))
    ∧ ∀ p, p ≠ path → tables s' !! p = tables s !! p.
Proof.
  intros Hl Hup.
  destruct (upsert_delta_Ok _ _ _ _ _ _ _ Hl Hup)
    as (df_all & Hdd & Hcols & Hcc & _ & _ & _ & Htab).
  rewrite Htab. eexists. split; [apply lookup_insert_eq |].
  cbn [columns rows]. split; [done |]. split.
  - intros He.
    pose proof (read_back_perm partition_cols
                  (mkDF (columns old) (rows df_all))) as Hperm.
    cbn [rows] in Hperm. rewrite Hperm. rewrite <- Hcols.
    apply (drop_duplicates_keys_distinct _ _ _ Hdd).
    rewrite <- He. destruct df_all as [cols rs idx]. cbn [columns rows] in *.
    subst cols. symmetry. by apply df_empty_perm.
  - intros p Hp. by rewrite lookup_insert_ne.
Qed.

(** X5. A key column that neither frame has makes the upsert of a
    non-empty result raise KeyError for such a column; nothing is written,
    since the function returns no lake. *)
Theorem upsert_delta_missing_key (df_new old : DataFrame) (path : string)
    (key_cols partition_cols : list string) (s : Store) (c : string) :
  tables s !! path = Some old →
  df_empty (concat old df_new) = false →
  c ∈ key_cols → c ∉ columns old → c ∉ columns df_new →
  ∃ c', upsert_delta df_new path key_cols partition_cols s = Raise (KeyError c')
        ∧ c' ∈ key_cols ∧ (c' ∉ columns old) ∧ (c' ∉ columns df_new).
Proof.
  intros Hl Hne Hc Hold Hnew. rewrite (upsert_delta_present _ _ _ _ _ _ Hl).
  unfold drop_duplicates. rewrite Hne.
  assert (∀ x, x ∉ columns (concat old df_new) ↔
               (x ∉ columns old) ∧ (x ∉ columns df_new)) as Hcols.
  { intros x. unfold concat. simpl.
    rewrite elem_of_app, list_elem_of_filter, elem_of_remove_dups.
    destruct (decide (x ∈ columns old)); tauto. }
  destruct (filter (λ x, x ∉ columns (concat old df_new)) key_cols)
    as [| c' rest] eqn:E.
  - exfalso. apply (not_elem_of_nil c). rewrite <- E.
    apply list_elem_of_filter. split; [by apply Hcols | done].
  - exists c'. split; [done |].
    assert (c' ∈ filter (λ x, x ∉ columns (concat old df_new)) key_cols) as Hin
      by (rewrite E; left).
    apply list_elem_of_filter in Hin as [Hn Hk]. apply Hcols in Hn. tauto.
Qed.

End UpsertGuarantees.

Lemma upsert_delta_keys_distinct_witness :
  ∃ merged,
    tables Sample8.merged_store !! INTENSITY_PATH = Some merged
    ∧ columns merged = columns (concat Sample8.stored Sample8.fetched_new)
    ∧ (df_empty merged = false →
       NoDup (map (key_of (columns merged) ["from"; "to"]) (rows merged)))
    ∧ ∀ p, p ≠ INTENSITY_PATH →
           tables Sample8.merged_store !! p
           = tables Sample8.bronze_store !! p.
Proof.
  apply (upsert_delta_keys_distinct (libs := Reference.libraries)
           Sample8.fetched_new Sample8.stored INTENSITY_PATH ["from"; "to"]
           ["date_part"] Sample8.bronze_store).
  - vm_compute. reflexivity.
  - vm_compute. reflexivity.
Defined.

Lemma upsert_delta_missing_key_witness :
  ∃ c', upsert_delta (libs := Reference.libraries) Sample2.fetched_no_to
          INTENSITY_PATH ["from"; "to"] ["date_part"]
          (mkStore (Sample.lake_with INTENSITY_PATH Sample2.stored_no_to) ∅)
        = Raise (KeyError c')
        ∧ c' ∈ ["from"; "to"] ∧ (c' ∉ columns Sample2.stored_no_to)
        ∧ (c' ∉ columns Sample2.fetched_no_to).
Proof.
  apply (upsert_delta_missing_key (libs := Reference.libraries)
           Sample2.fetched_no_to Sample2.stored_no_to
           INTENSITY_PATH ["from"; "to"] ["date_part"]
           (mkStore (Sample.lake_with INTENSITY_PATH Sample2.stored_no_to) ∅)
           "to").
  - apply lookup_singleton_eq.
  - reflexivity.
  - by_eval.
  - by_eval.
  - by_eval.
Defined.

(** ** [run_incremental_intensity] and [main]: the runs that store nothing *)

Lemma call_api_exhausted (path : string) (w : World) (err : string) :
  fail_first w (BASE_URL +:+ path) 2 →
  http w (sent w + 2)%nat (BASE_URL +:+ path) = RequestFailed err →
  call_api path 3 w
  = (Raise (RequestException err), after_attempts w (BASE_URL +:+ path) 2).
Proof.
  intros Hfail Herr.
  pose proof (call_api_loop_run (BASE_URL +:+ path) 3 2 3 1 w
                ltac:(lia) ltac:(lia) Hfail) as Hrun.
  rewrite Herr in Hrun. by apply Hrun.
Qed.

Section Runs.
Context `{Conversions} {libs : Libraries}.

Lemma get_last_from_timestamp_At (l : gmap string DataFrame) (path : string)
    (df : DataFrame) (T : Z) :
  l !! path = Some df → df_empty df = false → has_col "from" df = true →
  At T ∈ from_dt df → (∀ t, At t ∈ from_dt df → (t ≤ T)%Z) →
  get_last_from_timestamp l path = Some (At T).
Proof.
  intros Hl Hne Hcol Hin Hmax. unfold get_last_from_timestamp.
  destruct (is_delta_table_Some l path df Hl) as [-> ->].
  rewrite Hcol, Hne. simpl. f_equal. by apply series_max_ts_At.
Qed.

(** X7. A run on a table that is up to date, that is whose latest ['from']
    is less than 30 minutes before now (or in the future), does
    nothing: no request is sent, no table is written, no error is raised. *)
Theorem run_incremental_up_to_date (w : World) (df : DataFrame) (T : Z) :
  lake w !! INTENSITY_PATH = Some df →
  df_empty df = false → has_col "from" df = true →
  At T ∈ from_dt df → (∀ t, At t ∈ from_dt df → (t ≤ T)%Z) →
  (clock w ≤ T + minutes 30)%Z →
  run_incremental_intensity w = (Ok tt, w).
Proof.
  intros Hl Hne Hcol Hin Hmax Hnow.
  unfold run_incremental_intensity, bind, get_now, get_lake.
  unfold compute_incremental_window.
  rewrite (get_last_from_timestamp_At _ _ df T Hl Hne Hcol Hin Hmax). simpl.
  by rewrite (proj2 (Z.leb_le _ _) Hnow).
Qed.

(** X8. When the intensity service answers the three attempts of a run
    with request errors, the run raises the last of them after two pauses,
    the lake is left as it was, and [main] stops there: the factors are
    neither requested nor refreshed. *)
Theorem run_incremental_service_down (w : World) (from_iso to_iso err : string) :
  let url := BASE_URL +:+ "/intensity/" +:+ from_iso +:+ "/" +:+ to_iso in
  compute_incremental_window (clock w) (lake w) INTENSITY_PATH
  = Some (from_iso, to_iso) →
  fail_first w url 2 →
  http w (sent w + 2)%nat url = RequestFailed err →
  run_incremental_intensity w
  = (Raise (RequestException err), after_attempts w url 2)
  ∧ main_tp1 w = (Raise (RequestException err), after_attempts w url 2)
  ∧ lake (after_attempts w url 2) = lake w
  ∧ trace (after_attempts w url 2)
    = trace w ++ [EvRequest url; EvSleep 2; EvRequest url; EvSleep 2;
                  EvRequest url].
Proof.
  intros url Hwin Hfail Herr.
  assert (run_incremental_intensity w
          = (Raise (RequestException err), after_attempts w url 2)) as Hrun.
  { unfold run_incremental_intensity, bind at 1 2, get_now, get_lake.
    rewrite Hwin. unfold get_intensity_range, bind.
    by rewrite (call_api_exhausted _ w err Hfail Herr). }
  split; [exact Hrun |]. split; [| done].
  unfold main_tp1, bind. by rewrite Hrun.
Qed.

End Runs.

Lemma run_incremental_up_to_date_witness :
  run_incremental_intensity (H := Utc.conversions)
    (libs := Reference.libraries)
    (mkWorld Sample.down 0 (Sample.slot 2)
             (Sample.lake_with INTENSITY_PATH Sample.stored) [] ∅)
  = (Ok tt,
     mkWorld Sample.down 0 (Sample.slot 2)
             (Sample.lake_with INTENSITY_PATH Sample.stored) [] ∅).
Proof.
  apply (run_incremental_up_to_date (H := Utc.conversions)
           (libs := Reference.libraries) _ Sample.stored (Sample.slot 1)).
  - apply lookup_singleton_eq.
  - reflexivity.
  - reflexivity.
  - by_eval.
  - intros t Ht.
    change (At t ∈ [At (Sample.slot 0); At (Sample.slot 1)]) in Ht.
    rewrite !elem_of_cons in Ht. destruct Ht as [Ht | [Ht | Ht]].
    + injection Ht as ->. vm_compute. discriminate.
    + injection Ht as ->. vm_compute. discriminate.
    + by apply elem_of_nil in Ht.
  - vm_compute. discriminate.
Defined.

Lemma run_incremental_service_down_witness :
  main_tp1 (H := Utc.conversions) (libs := Reference.libraries)
    (Sample.world Sample.down ∅)
  = (Raise (RequestException "connection refused"),
     after_attempts (Sample.world Sample.down ∅)
       (BASE_URL +:+ "/intensity/" +:+ "2023-12-27T12:00:00+00:00" +:+ "/"
        +:+ "2024-01-03T12:00:00+00:00") 2).
Proof.
  apply (run_incremental_service_down (H := Utc.conversions)
           (libs := Reference.libraries)
           (Sample.world Sample.down ∅) "2023-12-27T12:00:00+00:00"
           "2024-01-03T12:00:00+00:00" "connection refused").
  - vm_compute. reflexivity.
  - intros i Hi. by exists "connection refused".
  - reflexivity.
Defined.

(** ** The layers: who writes where *)

Lemma call_api_keeps_lake (path : string) (retries : Z) (w : World) :
  lake (call_api path retries w).2 = lake w.
Proof.
  unfold call_api. rewrite <- (set_lake_same w) at 1.
  by rewrite call_api_loop_lake.
Qed.

(** [get_intensity_range] leaves the lake as it was. *)
Lemma get_intensity_range_result (from_iso to_iso : string) (w : World) :
  lake (get_intensity_range from_iso to_iso w).2 = lake w.
Proof.
  unfold get_intensity_range, bind.
  pose proof (call_api_keeps_lake
                ("/intensity/" +:+ from_iso +:+ "/" +:+ to_iso) 3 w) as Hl.
  destruct (call_api _ 3 w) as [[data | e] w1]; simpl in *; [| done].
  unfold lift. by destruct (dict_get data "data" (VList [])) as [results | e].
Qed.

Lemma get_intensity_factors_result (w : World) :
  lake (get_intensity_factors w).2 = lake w.
Proof. apply get_intensity_factors_keeps_lake. Qed.

Section Layers.
Context `{Conversions} {libs : Libraries}.

Lemma upsert_delta_other_paths (df_new : DataFrame) (path : string)
    (key_cols partition_cols : list string) (s s' : Store) :
  upsert_delta df_new path key_cols partition_cols s = Ok s' →
  ∀ p, p ≠ path → tables s' !! p = tables s !! p.
Proof.
  intros Hup p Hp. destruct (tables s !! path) as [old |] eqn:Hl.
  - rewrite (upsert_delta_present _ _ _ _ _ _ Hl) in Hup.
    destruct (drop_duplicates _ _) as [d | e]; [| discriminate].
    simpl in Hup. by apply (write_deltalake_other_paths _ _ _ _ _ Hup).
  - rewrite (upsert_delta_absent _ _ _ _ _ Hl) in Hup.
    by apply (write_deltalake_other_paths _ _ _ _ _ Hup).
Qed.

Lemma run_incremental_other_paths (w : World) (p : string) :
  p ≠ INTENSITY_PATH →
  lake (run_incremental_intensity w).2 !! p = lake w !! p.
Proof.
  intros Hp. unfold run_incremental_intensity.
  unfold bind at 1 2, get_now, get_lake.
  destruct (compute_incremental_window _ _ _) as [[from_iso to_iso] |];
    [| done].
  unfold bind at 1.
  pose proof (get_intensity_range_result from_iso to_iso w) as Hlake.
  destruct (get_intensity_range from_iso to_iso w) as [[df_raw | e] w1];
    simpl in Hlake; [| simpl; by rewrite Hlake].
  unfold bind, get_now, lift, get_store, put_store.
  destruct (normalize_intensity (clock w1) df_raw) as [df_norm | e];
    [| simpl; by rewrite Hlake].
  destruct (upsert_delta df_norm INTENSITY_PATH _ _ (store w1))
    as [s' | e] eqn:Eu; [| simpl; by rewrite Hlake].
  cbn [snd set_store lake].
  rewrite (upsert_delta_other_paths _ _ _ _ _ _ Eu p Hp).
  cbn [store tables]. by rewrite Hlake.
Qed.

Lemma run_full_factors_other_paths (w : World) (p : string) :
  p ≠ FACTORS_PATH → lake (run_full_factors w).2 !! p = lake w !! p.
Proof.
  intros Hp. rewrite run_full_factors_unfold.
  pose proof (get_intensity_factors_result w) as Hlake.
  destruct (get_intensity_factors w) as [[df_raw | e] w1]; simpl in *.
  - destruct (write_deltalake _ _ _ _) as [s' | e] eqn:Hw.
    + cbn [snd set_store lake].
      rewrite (write_deltalake_other_paths _ _ _ _ _ Hw p Hp).
      cbn [store tables]. by rewrite Hlake.
    + cbn [snd]. by rewrite Hlake.
  - by rewrite Hlake.
Qed.

(** X10. The extraction writes the two bronze tables and nothing else:
    whatever the service answers and whether the run completes or raises,
    every other location of the lake, the silver tables among them, is
    left as it was. *)
Theorem main_tp1_writes_bronze_only (w : World) (p : string) :
  p ≠ INTENSITY_PATH → p ≠ FACTORS_PATH →
  lake (main_tp1 w).2 !! p = lake w !! p.
Proof.
  intros Hi Hf. unfold main_tp1, bind.
  pose proof (run_incremental_other_paths w p Hi) as H1.
  destruct (run_incremental_intensity w) as [[[] | e] w1]; simpl in *;
    [| done].
  by rewrite run_full_factors_other_paths.
Qed.

Lemma process_intensity_other_paths (w : World) (p : string) :
  p ≠ SILVER_INTENSITY → p ≠ SILVER_INTENSITY_DAILY →
  lake (process_intensity w).2 !! p = lake w !! p.
Proof.
  intros Hs Hd. unfold process_intensity, bind, load_delta_to_df, get_now,
    lift, get_store, put_store.
  destruct (lake w !! BRONZE_INTENSITY) as [df_bronze |]; [| done].
  destruct (transform_intensity (clock w) df_bronze) as [df_silver | e];
    [| done].
  destruct (write_deltalake SILVER_INTENSITY df_silver _ (store w))
    as [s1 | e] eqn:Hw1; [| done].
  cbn [set_store clock].
  destruct (build_intensity_daily (clock w) df_silver) as [df_daily | e].
  - destruct (write_deltalake SILVER_INTENSITY_DAILY df_daily _ _)
      as [s2 | e] eqn:Hw2.
    + cbn [snd set_store lake].
      rewrite (write_deltalake_other_paths _ _ _ _ _ Hw2 p Hd).
      cbn [store set_store lake tables].
      by rewrite (write_deltalake_other_paths _ _ _ _ _ Hw1 p Hs).
    + cbn [snd set_store lake].
      by rewrite (write_deltalake_other_paths _ _ _ _ _ Hw1 p Hs).
  - cbn [snd set_store lake].
    by rewrite (write_deltalake_other_paths _ _ _ _ _ Hw1 p Hs).
Qed.

Lemma process_factors_other_paths (w : World) (p : string) :
  p ≠ SILVER_FACTORS → lake (process_factors w).2 !! p = lake w !! p.
Proof.
  intros Hs. unfold process_factors, bind, load_delta_to_df, get_now,
    lift, get_store, put_store.
  destruct (lake w !! BRONZE_FACTORS) as [df_bronze |]; [| done].
  destruct (write_deltalake SILVER_FACTORS _ _ (store w)) as [s1 | e] eqn:Hw;
    [| done].
  cbn [snd set_store lake].
  by rewrite (write_deltalake_other_paths _ _ _ _ _ Hw p Hs).
Qed.

(** X11. The processing writes the three silver tables and nothing else;
    in particular it never changes a bronze table, whether it completes or
    raises on the way. *)
Theorem main_tp2_writes_silver_only (w : World) :
  (∀ p, p ≠ SILVER_INTENSITY → p ≠ SILVER_INTENSITY_DAILY →
        p ≠ SILVER_FACTORS →
        lake (main_tp2 w).2 !! p = lake w !! p)
  ∧ lake (main_tp2 w).2 !! BRONZE_INTENSITY = lake w !! BRONZE_INTENSITY
  ∧ lake (main_tp2 w).2 !! BRONZE_FACTORS = lake w !! BRONZE_FACTORS.
Proof.
  assert (∀ p, p ≠ SILVER_INTENSITY → p ≠ SILVER_INTENSITY_DAILY →
               p ≠ SILVER_FACTORS →
               lake (main_tp2 w).2 !! p = lake w !! p) as Hall.
  { intros p Hs Hd Hf. unfold main_tp2, bind.
    pose proof (process_intensity_other_paths w p Hs Hd) as H1.
    destruct (process_intensity w) as [[[] | e] w1]; simpl in *; [| done].
    by rewrite process_factors_other_paths. }
  split; [exact Hall |]. split; apply Hall; discriminate.
Qed.

End Layers.

Lemma main_tp1_writes_bronze_only_witness :
  lake (main_tp1 (H := Utc.conversions) (libs := Reference.libraries)
          Sample3.second_run).2
  !! SILVER_INTENSITY
  = lake Sample3.second_run !! SILVER_INTENSITY.
Proof.
  apply (main_tp1_writes_bronze_only (H := Utc.conversions)
           (libs := Reference.libraries)
           Sample3.second_run SILVER_INTENSITY); discriminate.
Defined.

Lemma main_tp2_writes_silver_only_witness :
  lake (main_tp2 (H := Utc.conversions) (libs := Reference.libraries)
          Sample3.second_run).2
  !! "datalake/gold/report"
  = lake Sample3.second_run !! "datalake/gold/report".
Proof.
  apply (proj1 (main_tp2_writes_silver_only (H := Utc.conversions)
                  (libs := Reference.libraries)
                  Sample3.second_run)); discriminate.
Defined.

(** ** [transform_intensity]: keys and errors *)

(** Reading a row that an assignment has built. *)
Lemma cell_assign (c : string) (f : (string → value) → value) (df : DataFrame)
    (r : list value) (x : string) :
  let cols' := if has_col c df then columns df else columns df ++ [c] in
  cell cols' x
       (map (λ c', if decide (c' = c) then f (λ y, cell (columns df) y r)
                   else cell (columns df) c' r) cols')
  = if decide (x = c) then f (λ y, cell (columns df) y r)
    else cell (columns df) x r.
Proof.
  intros cols'. rewrite cell_map.
  destruct (decide (x = c)) as [-> | Hne].
  - rewrite decide_True; [done |]. unfold cols', has_col.
    destruct (bool_decide (c ∈ columns df)) eqn:E.
    + by apply bool_decide_eq_true in E.
    + apply elem_of_app. right. left.
  - destruct (decide (x ∈ cols')) as [Hin | Hn]; [done |].
    symmetry. apply cell_absent. intros Hx. apply Hn. unfold cols'.
    destruct (has_col c df); [done |]. apply elem_of_app. by left.
Qed.

(** An assignment to a column outside [subset] changes no key. *)
Lemma map_key_assign (c : string) (f : (string → value) → value)
    (df : DataFrame) (subset : list string) :
  c ∉ subset →
  map (key_of (columns (assign c f df)) subset) (rows (assign c f df))
  = map (key_of (columns df) subset) (rows df).
Proof.
  intros Hc. unfold assign. simpl. rewrite map_map.
  apply map_ext. intros r. unfold key_of. apply map_ext_in. intros x Hx.
  rewrite cell_assign. rewrite decide_False; [done |].
  intros ->. apply Hc. by apply list_elem_of_In.
Qed.

Lemma columns_coerce_present (conv : value → value) (c : string)
    (df : DataFrame) :
  columns (coerce_present conv c df) = columns df.
Proof.
  unfold coerce_present. destruct (has_col c df) eqn:E; [| done].
  unfold assign. simpl. by rewrite E.
Qed.

Lemma row_count_coerce_present (conv : value → value) (c : string)
    (df : DataFrame) :
  length (rows (coerce_present conv c df)) = length (rows df).
Proof.
  unfold coerce_present. destruct (has_col c df); [| done].
  apply assign_row_count.
Qed.

Lemma df_empty_same (a b : DataFrame) :
  columns a = columns b → length (rows a) = length (rows b) →
  df_empty a = df_empty b.
Proof.
  unfold df_empty. intros -> Hlen.
  destruct (columns b); [done |].
  destruct (rows a), (rows b); done.
Qed.

Section TransformIntensity.
Context `{Conversions}.

Ltac peel :=
  first [ rewrite map_key_assign by by_eval
        | rewrite assign_row_count ].

(** X12. The detail table has the natural key: in the result of
    [transform_intensity] no pair of ['from'] and ['to'] occurs twice, and
    the result never has more rows than the bronze table. *)
Theorem transform_intensity_keys_distinct (now : Z) (df out : DataFrame) :
  transform_intensity now df = Ok out → df_empty df = false →
  NoDup (map (key_of (columns out) ["from"; "to"]) (rows out))
  ∧ (length (rows out) ≤ length (rows df))%nat.
Proof.
  intros Hout Hne. unfold transform_intensity in Hout. rewrite Hne in Hout.
  set (df1 := coerce_present to_datetime_coerce "to"
                (coerce_present to_datetime_coerce "from" df)) in Hout.
  assert (df_empty df1 = false) as Hne1.
  { rewrite <- Hne. apply df_empty_same.
    - unfold df1. by rewrite !columns_coerce_present.
    - unfold df1. by rewrite !row_count_coerce_present. }
  assert (length (rows df1) = length (rows df)) as Hlen
    by (unfold df1; by rewrite !row_count_coerce_present).
  unfold drop_duplicates in Hout. rewrite Hne1 in Hout.
  destruct (filter _ ["from"; "to"]); [| discriminate].
  cbn [rbind] in Hout.
  destruct (has_col "from" _); [| discriminate]. cbn [negb] in Hout.
  injection Hout as <-. split.
  - repeat peel. simpl. apply keep_first_NoDup.
  - repeat peel. simpl. rewrite <- Hlen.
    apply sublist_length, keep_first_sublist.
Qed.

(** X13. A non-empty bronze table without its ['from'] or its ['to']
    column makes [transform_intensity] raise KeyError for the first of the
    two that is missing. *)
Theorem transform_intensity_missing_key (now : Z) (df : DataFrame) :
  df_empty df = false →
  has_col "from" df = false ∨ has_col "to" df = false →
  transform_intensity now df
  = Raise (KeyError (if has_col "from" df then "to" else "from")).
Proof.
  intros Hne Hmissing. unfold transform_intensity. rewrite Hne.
  set (df1 := coerce_present to_datetime_coerce "to"
                (coerce_present to_datetime_coerce "from" df)).
  assert (columns df1 = columns df) as Hcols
    by (unfold df1; by rewrite !columns_coerce_present).
  assert (df_empty df1 = false) as Hne1.
  { rewrite <- Hne. apply df_empty_same; [done |].
    unfold df1. by rewrite !row_count_coerce_present. }
  unfold drop_duplicates. rewrite Hne1, Hcols. unfold has_col in *.
  rewrite !filter_cons, filter_nil.
  destruct (bool_decide ("from" ∈ columns df)) eqn:Ef.
  - apply bool_decide_eq_true in Ef. rewrite decide_False by tauto.
    destruct Hmissing as [Hm | Hm]; [discriminate |].
    apply bool_decide_eq_false in Hm. by rewrite decide_True.
  - apply bool_decide_eq_false in Ef. by rewrite decide_True.
Qed.

End TransformIntensity.

Lemma transform_intensity_keys_distinct_witness :
  NoDup (map (key_of (columns Sample.silver) ["from"; "to"])
             (rows Sample.silver))
  ∧ (length (rows Sample.silver) ≤ length (rows Sample.bronze))%nat.
Proof.
  apply (transform_intensity_keys_distinct (H := Utc.conversions) Sample.noon
           Sample.bronze Sample.silver).
  - vm_compute. reflexivity.
  - reflexivity.
Defined.

Lemma transform_intensity_missing_key_witness :
  transform_intensity (H := Utc.conversions) Sample.noon Sample2.stored_no_to
  = Raise (KeyError "to").
Proof.
  apply (transform_intensity_missing_key (H := Utc.conversions) Sample.noon
           Sample2.stored_no_to).
  - reflexivity.
  - right. reflexivity.
Defined.

(** ** [normalize_intensity]: what it stores and what it rejects *)

Lemma rmap_list_length {A B} (f : A → result B) (l : list A) (ys : list B) :
  rmap_list f l = Ok ys → length ys = length l.
Proof.
  intros E. apply rmap_list_Ok in E. symmetry. by eapply Forall2_length.
Qed.

Lemma assign_r_columns (c : string) (f : (string → value) → result value)
    (df df' : DataFrame) :
  assign_r c f df = Ok df' →
  columns df' = (if has_col c df then columns df else columns df ++ [c])
  ∧ length (rows df') = length (rows df).
Proof.
  unfold assign_r. destruct (rmap_list _ (rows df)) as [vals | e] eqn:E;
    [| done].
  simpl. intros E'. injection E' as <-. simpl. split; [done |].
  rewrite length_map, length_zip. apply rmap_list_length in E. lia.
Qed.

(** Every row after an assignment that can raise comes from a row before
    it, for which the cell function succeeded. *)
Lemma in_assign_r (c : string) (f : (string → value) → result value)
    (df df' : DataFrame) (r' : list value) :
  assign_r c f df = Ok df' → r' ∈ rows df' →
  ∃ r v, r ∈ rows df
         ∧ f (λ y, cell (columns df) y r) = Ok v
         ∧ ∀ x, cell (columns df') x r'
                = if decide (x = c) then v else cell (columns df) x r.
Proof.
  unfold assign_r. destruct (rmap_list _ (rows df)) as [vals | e] eqn:E;
    [| done].
  simpl. intros E'. injection E' as <-. simpl. intros Hin.
  apply list_elem_of_fmap in Hin as ([r v] & -> & Hrv).
  apply list_elem_of_lookup in Hrv as [i Hi].
  apply lookup_zip_Some in Hi as [Hr Hv].
  apply rmap_list_Ok in E.
  pose proof (Forall2_lookup_lr _ _ _ _ _ _ E Hr Hv) as Hf.
  exists r, v. split; [by eapply list_elem_of_lookup_2 |]. split; [done |].
  intros x. simpl. rewrite cell_map.
  destruct (decide (x = c)) as [-> | Hne].
  - rewrite decide_True; [done |]. unfold has_col.
    destruct (bool_decide (c ∈ columns df)) eqn:Ec.
    + by apply bool_decide_eq_true in Ec.
    + apply elem_of_app. right. left.
  - destruct (decide (x ∈ (if has_col c df then columns df
                           else columns df ++ [c]))) as [Hx | Hn]; [done |].
    symmetry. apply cell_absent. intros Hx. apply Hn.
    destruct (has_col c df); [done |]. apply elem_of_app. by left.
Qed.

Section NormalizeIntensity.
Context `{Conversions}.

Lemma to_numeric_idem (v : value) : to_numeric (to_numeric v) = to_numeric v.
Proof.
  destruct v as [ | b | q | s | ns | l | l ]; try done.
  simpl. by destruct (parse_number s).
Qed.

Lemma convert_to_datetime_columns (col : string) (df df' : DataFrame) :
  convert_present to_datetime col df = Ok df' →
  columns df' = columns df ∧ length (rows df') = length (rows df).
Proof.
  unfold convert_present. destruct (has_col col df) eqn:E.
  - intros Ha. apply assign_r_columns in Ha. by rewrite E in Ha.
  - intros Ha. by injection Ha as <-.
Qed.

Lemma in_convert_to_datetime (col : string) (df df' : DataFrame)
    (r' : list value) :
  convert_present to_datetime col df = Ok df' → r' ∈ rows df' →
  ∃ r, r ∈ rows df
       ∧ to_datetime (cell (columns df) col r) = Ok (cell (columns df') col r')
       ∧ ∀ x, x ≠ col → cell (columns df') x r' = cell (columns df) x r.
Proof.
  unfold convert_present. destruct (has_col col df) eqn:E.
  - intros Ha Hin. destruct (in_assign_r _ _ _ _ _ Ha Hin) as (r & v & Hr & Hv & Hc).
    exists r. split; [done |]. split.
    + rewrite Hc, decide_True by done. done.
    + intros x Hx. rewrite Hc, decide_False by done. done.
  - intros Ha Hin. injection Ha as <-. exists r'. split; [done |].
    split; [| done].
    rewrite cell_absent; [done |]. by apply bool_decide_eq_false in E.
Qed.

Lemma fold_numeric_columns (cs : list string) (d : DataFrame) :
  cs ⊆ columns d →
  columns (fold_left (λ d c, if startswith "intensity." c
                             then assign c (λ row, to_numeric (row c)) d
                             else d) cs d) = columns d
  ∧ length (rows (fold_left (λ d c, if startswith "intensity." c
                                    then assign c (λ row, to_numeric (row c)) d
                                    else d) cs d)) = length (rows d).
Proof.
  revert d. induction cs as [| c cs IH]; intros d Hsub; [done |]. simpl.
  assert (has_col c d = true) as Hc.
  { apply bool_decide_eq_true, Hsub. left. }
  assert (columns (assign c (λ row, to_numeric (row c)) d) = columns d) as Hcols
    by (unfold assign; simpl; by rewrite Hc).
  destruct (startswith "intensity." c).
  - destruct (IH (assign c (λ row, to_numeric (row c)) d)) as [E1 E2].
    + rewrite Hcols. intros x Hx. apply Hsub. by right.
    + by rewrite E1, E2, Hcols, assign_row_count.
  - apply IH. intros x Hx. apply Hsub. by right.
Qed.

Lemma in_fold_numeric (cs : list string) (d : DataFrame) (r' : list value) :
  r' ∈ rows (fold_left (λ d c, if startswith "intensity." c
                               then assign c (λ row, to_numeric (row c)) d
                               else d) cs d) →
  ∃ r, r ∈ rows d
       ∧ ∀ x, cell (columns (fold_left
                               (λ d c, if startswith "intensity." c
                                       then assign c (λ row, to_numeric (row c)) d
                                       else d) cs d)) x r'
              = if bool_decide (x ∈ cs) && startswith "intensity." x
                then to_numeric (cell (columns d) x r)
                else cell (columns d) x r.
Proof.
  revert d. induction cs as [| c cs IH]; intros d Hin.
  - exists r'. split; [done |]. intros x. cbn [fold_left].
    destruct (bool_decide (x ∈ [])) eqn:E; [| done].
    apply bool_decide_eq_true in E. by apply elem_of_nil in E.
  - cbn [fold_left] in Hin |- *.
    destruct (startswith "intensity." c) eqn:Ec.
    + apply IH in Hin as (r1 & Hr1 & E1).
      apply in_assign in Hr1 as (r & Hr & E0). exists r. split; [done |].
      intros x. rewrite E1, !E0.
      destruct (decide (x = c)) as [-> | Hne].
      * rewrite Ec, andb_true_r, (bool_decide_eq_true_2 (c ∈ c :: cs)) by left.
        destruct (bool_decide (c ∈ cs)); simpl; [apply to_numeric_idem | done].
      * assert (bool_decide (x ∈ c :: cs) = bool_decide (x ∈ cs)) as ->; [| done].
        apply bool_decide_ext. rewrite elem_of_cons. tauto.
    + apply IH in Hin as (r1 & Hr1 & E1).
      exists r1. split; [done |]. intros x. rewrite E1.
      destruct (decide (x = c)) as [-> | Hne].
      * by rewrite Ec, !andb_false_r.
      * assert (bool_decide (x ∈ c :: cs) = bool_decide (x ∈ cs)) as ->; [| done].
        apply bool_decide_ext. rewrite elem_of_cons. tauto.
Qed.

(** X14. What the normalization stores. For a non-empty frame that it
    accepts, it keeps the number of rows, and every stored row comes from
    a fetched record with: ['from'] parsed as an instant, [date_part] the
    date of that instant, [ingestion_ts] the time of the run, and every
    column whose name starts with ["intensity."] read as a number, so that
    a textual one such as [intensity.index] is stored as null. *)
Theorem normalize_intensity_stores (now : Z) (df out : DataFrame) :
  normalize_intensity now df = Ok out → df_empty df = false →
  length (rows out) = length (rows df)
  ∧ ∀ r', r' ∈ rows out →
      ∃ r, r ∈ rows df
           ∧ to_datetime (cell (columns df) "from" r)
             = Ok (cell (columns out) "from" r')
           ∧ cell (columns out) "date_part" r'
             = date_text (cell (columns out) "from" r')
           ∧ cell (columns out) "ingestion_ts" r' = VStr (isoformat_at now)
           ∧ ∀ c, c ∈ columns df → startswith "intensity." c = true →
                  cell (columns out) c r'
                  = to_numeric (cell (columns df) c r).
Proof.
  intros Hout Hne. unfold normalize_intensity in Hout. rewrite Hne in Hout.
  destruct (convert_present to_datetime "from" df) as [df1 | e] eqn:E1;
    [| discriminate]. cbn [rbind] in Hout.
  destruct (convert_present to_datetime "to" df1) as [df2 | e] eqn:E2;
    [| discriminate]. cbn [rbind] in Hout.
  set (df3 := fold_left _ (columns df2) df2) in Hout.
  destruct (has_col "from" df3); [| discriminate]. cbn [negb] in Hout.
  injection Hout as Hout.
  destruct (convert_to_datetime_columns _ _ _ E1) as [Hc1 Hl1].
  destruct (convert_to_datetime_columns _ _ _ E2) as [Hc2 Hl2].
  destruct (fold_numeric_columns (columns df2) df2) as [Hc3 Hl3]; [done |].
  fold df3 in Hc3, Hl3. split.
  - rewrite <- Hout, !assign_row_count. congruence.
  - intros r' Hr. rewrite <- Hout in Hr.
    apply in_assign in Hr as (r4 & Hr & E5). rewrite Hout in E5.
    apply in_assign in Hr as (r3 & Hr & E4).
    apply in_fold_numeric in Hr as (r2 & Hr & E3). fold df3 in E3.
    destruct (in_convert_to_datetime _ _ _ _ E2 Hr) as (r1 & Hr1 & _ & Eb).
    destruct (in_convert_to_datetime _ _ _ _ E1 Hr1) as (r & Hr0 & Ea & Ea').
    exists r. split; [done |].
    assert (cell (columns out) "from" r' = cell (columns df1) "from" r1) as Hfrom.
    { rewrite (E5 "from"), decide_False by discriminate.
      rewrite (E4 "from"), decide_False by discriminate.
      rewrite (E3 "from"). simpl. rewrite andb_false_r.
      apply Eb. discriminate. }
    split; [by rewrite Hfrom |]. split.
    { rewrite (E5 "date_part"), decide_False by discriminate.
      rewrite (E4 "date_part"), decide_True by done.
      rewrite Hfrom. f_equal. rewrite (E3 "from"). simpl.
      rewrite andb_false_r. apply Eb. discriminate. }
    split.
    { by rewrite (E5 "ingestion_ts"), decide_True by done. }
    intros c Hc Hstart.
    assert (c ≠ "ingestion_ts" ∧ c ≠ "date_part" ∧ c ≠ "to" ∧ c ≠ "from")
      as (N1 & N2 & N3 & N4).
    { repeat split; intros ->; discriminate Hstart. }
    rewrite (E5 c), decide_False by done.
    rewrite (E4 c), decide_False by done.
    rewrite (E3 c), Hstart, andb_true_r.
    rewrite bool_decide_eq_true_2 by (by rewrite Hc2, Hc1).
    f_equal. rewrite (Eb c N3). by apply Ea'.
Qed.

(** X15. A non-empty frame without a ['from'] column is never stored: the
    normalization raises, KeyError for ['from'] unless the conversion of
    ['to'] has raised before. *)
Theorem normalize_intensity_missing_from (now : Z) (df : DataFrame) :
  df_empty df = false → has_col "from" df = false →
  normalize_intensity now df = Raise (KeyError "from")
  ∨ ∃ e, convert_present to_datetime "to" df = Raise e
         ∧ normalize_intensity now df = Raise e.
Proof.
  intros Hne Hcol. unfold normalize_intensity. rewrite Hne.
  assert (convert_present to_datetime "from" df = Ok df) as ->
    by (unfold convert_present; by rewrite Hcol).
  cbn [rbind].
  destruct (convert_present to_datetime "to" df) as [df2 | e] eqn:E2.
  - left. cbn [rbind].
    destruct (convert_to_datetime_columns _ _ _ E2) as [Hc2 _].
    destruct (fold_numeric_columns (columns df2) df2) as [Hc3 _]; [done |].
    unfold has_col at 1. rewrite Hc3, Hc2.
    unfold has_col in Hcol. by rewrite Hcol.
  - right. by exists e.
Qed.

End NormalizeIntensity.

Lemma normalize_intensity_stores_witness :
  length (rows Sample3.normalized) = 2%nat
  ∧ ∃ r, r ∈ rows Sample3.fetched_raw
         ∧ to_datetime (H := Utc.conversions)
             (cell (columns Sample3.fetched_raw) "from" r)
           = Ok (cell (columns Sample3.normalized) "from"
                      (nth 0 (rows Sample3.normalized) []))
         ∧ cell (columns Sample3.normalized) "date_part"
                (nth 0 (rows Sample3.normalized) [])
           = VStr "2024-01-01"
         ∧ cell (columns Sample3.normalized) "intensity.index"
                (nth 0 (rows Sample3.normalized) [])
           = to_numeric (H := Utc.conversions)
               (cell (columns Sample3.fetched_raw) "intensity.index" r).
Proof.
  destruct (normalize_intensity_stores (H := Utc.conversions) Sample.noon
              Sample3.fetched_raw Sample3.normalized)
    as [Hlen Hrows].
  - vm_compute. reflexivity.
  - reflexivity.
  - split; [exact Hlen |].
    destruct (Hrows (nth 0 (rows Sample3.normalized) []))
      as (r & Hr & Hfrom & Hdate & _ & Hnum); [left |].
    exists r. split; [exact Hr |]. split; [exact Hfrom |].
    split; [rewrite Hdate; vm_compute; reflexivity |].
    apply (Hnum "intensity.index"); [by_eval | reflexivity].
Defined.

Lemma normalize_intensity_missing_from_witness :
  normalize_intensity (H := Utc.conversions) Sample.noon
    (mkDF ["to"] [[VStr "2024-01-01T01:00Z"]])
  = Raise (KeyError "from")
  ∨ ∃ e, convert_present (to_datetime (H := Utc.conversions)) "to"
           (mkDF ["to"] [[VStr "2024-01-01T01:00Z"]]) = Raise e
         ∧ normalize_intensity (H := Utc.conversions) Sample.noon
             (mkDF ["to"] [[VStr "2024-01-01T01:00Z"]]) = Raise e.
Proof.
  apply (normalize_intensity_missing_from (H := Utc.conversions)); reflexivity.
Defined.

(** ** [build_intensity_daily]: the rows of the daily table *)

Lemma value_seen_spec (x : value) (seen : list value) :
  existsb (value_eqb x) seen = true ↔ x ∈ seen.
Proof.
  rewrite existsb_exists. split.
  - intros (y & Hy & E). apply value_eqb_eq in E. subst.
    by apply list_elem_of_In.
  - intros Hin. exists x. split; [by apply list_elem_of_In | by apply value_eqb_eq].
Qed.

Lemma distinct_values_spec (seen l : list value) :
  NoDup (distinct_values seen l)
  ∧ ∀ x, x ∈ distinct_values seen l ↔ x ∈ l ∧ x ∉ seen.
Proof.
  revert seen. induction l as [| y l IH]; intros seen; simpl.
  - split; [constructor |]. intros x. split.
    + intros Hx. by apply elem_of_nil in Hx.
    + intros [Hx _]. by apply elem_of_nil in Hx.
  - destruct (existsb (value_eqb y) seen) eqn:E.
    + apply value_seen_spec in E. destruct (IH seen) as [Hnd Hiff].
      split; [done |]. intros x. rewrite Hiff, elem_of_cons. split.
      * intros [Hx Hn]. split; [by right | done].
      * intros [[-> | Hx] Hn]; [done | done].
    + assert (y ∉ seen) as Hy.
      { intros Hin. apply value_seen_spec in Hin. congruence. }
      destruct (IH (y :: seen)) as [Hnd Hiff]. split.
      * apply NoDup_cons. split; [| done]. rewrite Hiff.
        intros [_ Hn]. apply Hn. left.
      * intros x. rewrite !elem_of_cons, Hiff, not_elem_of_cons. split.
        -- intros [-> | [Hx [Hne Hn]]]; [split; [by left | done] |].
           split; [by right | done].
        -- intros [[-> | Hx] Hn]; [by left |].
           destruct (decide (x = y)) as [-> | Hne]; [by left | right; done].
Qed.

Lemma insert_sorted_perm {A} (leb : A → A → bool) (x : A) (l : list A) :
  insert_sorted leb x l ≡ₚ x :: l.
Proof.
  induction l as [| y l IH]; simpl; [done |].
  destruct (leb y x); [| done]. rewrite IH. apply Permutation_swap.
Qed.

Lemma sort_by_perm {A} (leb : A → A → bool) (l : list A) :
  sort_by leb l ≡ₚ l.
Proof.
  unfold sort_by.
  assert (∀ acc, fold_left (λ acc x, insert_sorted leb x acc) l acc ≡ₚ l ++ acc)
    as Hgen.
  { induction l as [| x l IH]; intros acc; simpl; [done |].
    rewrite IH, insert_sorted_perm. by rewrite Permutation_middle. }
  by rewrite Hgen, app_nil_r.
Qed.

Lemma series_assign_ne (c c' : string) (f : (string → value) → value)
    (df : DataFrame) :
  c ≠ c' → series c (assign c' f df) = series c df.
Proof.
  intros Hne. unfold series, assign. simpl. rewrite map_map.
  apply map_ext. intros r. rewrite cell_assign. by rewrite decide_False.
Qed.

Lemma series_assign_r_ne (c c' : string) (f : (string → value) → result value)
    (df df' : DataFrame) :
  assign_r c' f df = Ok df' → c ≠ c' → series c df' = series c df.
Proof.
  intros Ha Hne. unfold series. apply list_eq. intros i.
  rewrite !list_lookup_fmap.
  destruct (rows df' !! i) as [r' |] eqn:Hi.
  - assert (r' ∈ rows df') as Hin by (by eapply list_elem_of_lookup_2).
    revert Ha Hi. unfold assign_r.
    destruct (rmap_list _ (rows df)) as [vals | e]; [| done]. simpl.
    intros E. injection E as <-. simpl. rewrite list_lookup_fmap.
    destruct (zip (rows df) vals !! i) as [[r v] |] eqn:Hz; [| done].
    simpl. intros E. injection E as <-.
    apply lookup_zip_Some in Hz as [Hr _]. rewrite Hr. simpl. f_equal.
    rewrite cell_map. rewrite (decide_False (P := c = c')) by done.
    destruct (decide (c ∈ _)) as [_ | Hn]; [done |].
    symmetry. apply cell_absent. intros Hc. apply Hn.
    destruct (has_col c' df); [done |]. apply elem_of_app. by left.
  - apply assign_r_columns in Ha as [_ Hlen].
    apply lookup_ge_None in Hi. rewrite lookup_ge_None_2; [done | lia].
Qed.

(** The dates of the aggregate are the group keys, one row each. *)
Lemma groupby_date_series (df agg : DataFrame) :
  groupby_date_agg df = Ok agg →
  series "date" agg
  = sort_by value_leb
      (distinct_values [] (filter (λ v, isna v = false) (series "date" df))).
Proof.
  unfold groupby_date_agg. destruct (has_col "intensity_value" df); [| done].
  simpl. generalize (sort_by value_leb
                       (distinct_values []
                          (filter (λ v, isna v = false) (series "date" df)))).
  intros keys. destruct (rmap_list _ keys) as [rs | e] eqn:E; [| done].
  simpl. intros Ha. injection Ha as <-. unfold series. simpl.
  apply rmap_list_Ok in E. induction E as [| k r keys rs Hk _ IH]; [done |].
  simpl. rewrite IH. f_equal.
  destruct (numeric_cells _) as [qs | e]; [| done]. simpl in Hk.
  by injection Hk as <-.
Qed.

Section Daily.
Context `{Conversions}.

(** X16. The daily table has one row per day: for a detail table with a
    [date] column, no date occurs twice in the result, and its dates are
    exactly the non-null dates of the detail table. *)
Theorem daily_one_row_per_date (now : Z) (df out : DataFrame) :
  build_intensity_daily now df = Ok out →
  df_empty df = false → has_col "date" df = true →
  NoDup (series "date" out)
  ∧ ∀ k, k ∈ series "date" out ↔ k ≠ VNull ∧ k ∈ series "date" df.
Proof.
  intros Hout Hne Hcol. unfold build_intensity_daily in Hout.
  rewrite Hne, Hcol in Hout. cbn [rbind] in Hout.
  destruct (groupby_date_agg df) as [agg | e] eqn:Eg; [| discriminate].
  cbn [rbind] in Hout.
  destruct (assign_r "year" _ agg) as [agg1 | e] eqn:E1; [| discriminate].
  cbn [rbind] in Hout.
  destruct (assign_r "month" _ agg1) as [agg2 | e] eqn:E2; [| discriminate].
  cbn [rbind] in Hout. injection Hout as <-.
  rewrite series_assign_ne by discriminate.
  rewrite (series_assign_r_ne _ _ _ _ _ E2) by discriminate.
  rewrite (series_assign_r_ne _ _ _ _ _ E1) by discriminate.
  rewrite (groupby_date_series _ _ Eg).
  destruct (distinct_values_spec []
              (filter (λ v, isna v = false) (series "date" df))) as [Hnd Hiff].
  split.
  - by rewrite sort_by_perm.
  - intros k. rewrite sort_by_perm, Hiff, list_elem_of_filter. split.
    + intros [[Hk Hin] _]. split; [by destruct k | done].
    + intros [Hk Hin]. split; [| apply not_elem_of_nil].
      split; [by destruct k | done].
Qed.

End Daily.

Lemma daily_one_row_per_date_witness :
  NoDup (series "date" Sample.daily)
  ∧ ∀ k, k ∈ series "date" Sample.daily
         ↔ k ≠ VNull ∧ k ∈ series "date" Sample.detail.
Proof.
  apply (daily_one_row_per_date (H := Utc.conversions) Sample.noon
           Sample.detail Sample.daily).
  - vm_compute. reflexivity.
  - reflexivity.
  - reflexivity.
Defined.

(** ** The factor tables *)
(* ===================================================================== *)

Lemma lower_ascii_idem (c : ascii) : lower_ascii (lower_ascii c) = lower_ascii c.
Proof. destruct c as [[] [] [] [] [] [] [] []]; reflexivity. Qed.

Lemma is_space_lower_ascii (c : ascii) : is_space (lower_ascii c) = is_space c.
Proof. destruct c as [[] [] [] [] [] [] [] []]; reflexivity. Qed.

Lemma lower_idem (s : string) : lower (lower s) = lower s.
Proof.
  induction s as [| c s IH]; [done |]. simpl. by rewrite lower_ascii_idem, IH.
Qed.

Lemma lstrip_lower (s : string) : lstrip (lower s) = lower (lstrip s).
Proof.
  induction s as [| c s IH]; [done |]. simpl. rewrite is_space_lower_ascii.
  by destruct (is_space c).
Qed.

Lemma rstrip_lower (s : string) : rstrip (lower s) = lower (rstrip s).
Proof.
  induction s as [| c s IH]; [done |]. simpl.
  rewrite IH, is_space_lower_ascii.
  destruct (rstrip s); simpl; [by destruct (is_space c) | done].
Qed.

Lemma rstrip_idem (s : string) : rstrip (rstrip s) = rstrip s.
Proof.
  induction s as [| c s IH]; [done |]. simpl.
  destruct (rstrip s) as [| c' t] eqn:E.
  - destruct (is_space c) eqn:Ec; [done |]. simpl. by rewrite Ec.
  - cbn [rstrip]. cbn [rstrip] in IH. rewrite IH. done.
Qed.

(** Stripping on the right leaves a string that starts with no space as it
    starts. *)
Lemma lstrip_rstrip (s : string) : lstrip (rstrip (lstrip s)) = rstrip (lstrip s).
Proof.
  induction s as [| c s IH]; [done |]. cbn [lstrip].
  destruct (is_space c) eqn:Ec; [done |]. cbn [rstrip].
  destruct (rstrip s); rewrite ?Ec; cbn [lstrip]; by rewrite Ec.
Qed.

Lemma strip_idem (s : string) : strip (strip s) = strip s.
Proof. unfold strip. by rewrite lstrip_rstrip, rstrip_idem. Qed.

Lemma lower_strip (s : string) : lower (strip s) = strip (lower s).
Proof. unfold strip. by rewrite <- rstrip_lower, <- lstrip_lower. Qed.

Lemma strip_lower_idem (s : string) :
  strip (lower (strip (lower s))) = strip (lower s).
Proof. by rewrite lower_strip, lower_idem, strip_idem. Qed.

Lemma columns_assign (c : string) (f : (string → value) → value)
    (df : DataFrame) :
  columns (assign c f df)
  = if has_col c df then columns df else columns df ++ [c].
Proof. done. Qed.

Lemma columns_assign_present (c : string) (f : (string → value) → value)
    (df : DataFrame) :
  c ∈ columns df → columns (assign c f df) = columns df.
Proof.
  intros Hc. rewrite columns_assign. unfold has_col.
  by rewrite bool_decide_eq_true_2.
Qed.

Lemma series_assign_eq (c : string) (f : (string → value) → value)
    (df : DataFrame) :
  series c (assign c f df) = map (λ r, f (λ y, cell (columns df) y r)) (rows df).
Proof.
  unfold series, assign. simpl. rewrite map_map.
  apply map_ext. intros r. rewrite cell_assign. by rewrite decide_True.
Qed.

Section FactorTables.
Context `{Conversions}.

Lemma fold_to_numeric_columns (cs : list string) (d : DataFrame) :
  cs ⊆ columns d →
  columns (fold_left (λ d c, assign c (λ row, to_numeric (row c)) d) cs d)
  = columns d.
Proof.
  revert d. induction cs as [| c cs IH]; intros d Hsub; [done |].
  cbn [fold_left].
  assert (columns (assign c (λ row, to_numeric (row c)) d) = columns d) as Hc.
  { apply columns_assign_present, Hsub. left. }
  rewrite IH; [done |]. rewrite Hc. intros x Hx. apply Hsub. by right.
Qed.

Lemma normalize_factors_columns (now : Z) (df : DataFrame) :
  df_empty df = false →
  columns (normalize_factors now df)
  = if bool_decide ("ingestion_ts" ∈ normalized_header df)
    then normalized_header df
    else normalized_header df ++ ["ingestion_ts"].
Proof.
  intros He. unfold normalize_factors. rewrite He. cbv zeta.
  rewrite columns_assign. unfold has_col.
  rewrite fold_to_numeric_columns; [done |].
  intros x Hx. by apply list_elem_of_filter in Hx as [_ Hx].
Qed.

Lemma normalized_header_fixed (df : DataFrame) (c : string) :
  c ∈ normalized_header df → strip (lower c) = c.
Proof.
  unfold normalized_header. intros Hc.
  apply list_elem_of_fmap in Hc as (c0 & -> & _). apply strip_lower_idem.
Qed.

(** X18. The header of a normalized factors table. Every column name of the
    result of [normalize_factors] on a table that is not empty is the
    lowercase, stripped form of a fetched name, or is [ingestion_ts]; each
    is left as it is by [c.lower().strip()], so that normalizing the result
    once more gives the same header. *)
Theorem normalize_factors_header (now now' : Z) (df : DataFrame) :
  df_empty df = false →
  (∀ c, c ∈ columns (normalize_factors now df) →
        (c ∈ normalized_header df ∨ c = "ingestion_ts")
        ∧ strip (lower c) = c)
  ∧ columns (normalize_factors now' (normalize_factors now df))
    = columns (normalize_factors now df).
Proof.
  intros He.
  assert (∀ c, c ∈ columns (normalize_factors now df) →
               (c ∈ normalized_header df ∨ c = "ingestion_ts")
               ∧ strip (lower c) = c) as Hall.
  { intros c. rewrite normalize_factors_columns by done.
    destruct (bool_decide ("ingestion_ts" ∈ normalized_header df)).
    - intros Hc. split; [by left |]. by apply normalized_header_fixed in Hc.
    - intros Hc. apply elem_of_app in Hc as [Hc | Hc].
      + split; [by left |]. by apply normalized_header_fixed in Hc.
      + apply list_elem_of_singleton in Hc as ->. split; [by right | done]. }
  split; [exact Hall |].
  assert (df_empty (normalize_factors now df) = false) as He'.
  { unfold df_empty in *.
    pose proof (normalize_factors_row_count now df) as Hlen.
    rewrite normalize_factors_columns by done.
    destruct (columns df) as [| c0 cs] eqn:Ec; [done |].
    destruct (rows df) as [| r0 rs]; [done |].
    destruct (rows (normalize_factors now df)); [done |].
    unfold normalized_header. rewrite Ec.
    by destruct (bool_decide _). }
  assert (normalized_header (normalize_factors now df)
          = columns (normalize_factors now df)) as Hfix.
  { unfold normalized_header at 1.
    rewrite <- (map_id (columns (normalize_factors now df))) at 2.
    apply map_ext_in. intros c Hc. apply Hall. by apply list_elem_of_In. }
  rewrite (normalize_factors_columns now') by done. rewrite Hfix.
  rewrite bool_decide_eq_true_2; [done |].
  rewrite normalize_factors_columns by done.
  destruct (bool_decide ("ingestion_ts" ∈ normalized_header df)) eqn:E.
  - by apply bool_decide_eq_true in E.
  - apply elem_of_app. right. left.
Qed.

End FactorTables.

Lemma normalize_factors_header_witness :
  columns (normalize_factors (H := Utc.conversions) Sample.noon
             (normalize_factors (H := Utc.conversions) Sample.noon
                Sample4.catalog_raw))
  = columns (normalize_factors (H := Utc.conversions) Sample.noon
               Sample4.catalog_raw).
Proof.
  assert (df_empty Sample4.catalog_raw = false) as He
    by (vm_compute; reflexivity).
  exact (proj2 (normalize_factors_header (H := Utc.conversions) Sample.noon
                  Sample.noon Sample4.catalog_raw He)).
Defined.

(** ** Sorting *)

Lemma is_sorted_cons {A} (leb : A → A → bool) (x : A) (l : list A) :
  is_sorted leb (x :: l) = true
  ↔ match l with [] => True | y :: _ => leb x y = true end
    ∧ is_sorted leb l = true.
Proof.
  cbn [is_sorted]. rewrite andb_true_iff. by destruct l.
Qed.

Lemma insert_sorted_is_sorted {A} (leb : A → A → bool) (x : A) (l : list A) :
  (∀ a b, leb a b = false → leb b a = true) →
  is_sorted leb l = true → is_sorted leb (insert_sorted leb x l) = true.
Proof.
  intros Htotal. induction l as [| y l IH]; intros Hs; [done |].
  cbn [insert_sorted]. destruct (leb y x) eqn:Eyx.
  - apply is_sorted_cons in Hs as [Hhd Hs]. apply is_sorted_cons.
    split; [| by apply IH].
    destruct l as [| z l']; [done |]. cbn [insert_sorted].
    by destruct (leb z x).
  - apply is_sorted_cons. split; [by apply Htotal | done].
Qed.

Lemma sort_by_is_sorted {A} (leb : A → A → bool) (l : list A) :
  (∀ a b, leb a b = false → leb b a = true) →
  is_sorted leb (sort_by leb l) = true.
Proof.
  intros Htotal. unfold sort_by.
  assert (is_sorted leb (@nil A) = true) as Hacc by done.
  revert Hacc. generalize (@nil A).
  induction l as [| x l IH]; intros acc Hacc; [done |].
  cbn [fold_left]. apply IH. by apply insert_sorted_is_sorted.
Qed.

Lemma is_sorted_map {A B} (f : A → B) (leb : B → B → bool) (l : list A) :
  is_sorted leb (map f l) = is_sorted (λ a b, leb (f a) (f b)) l.
Proof.
  induction l as [| x l IH]; [done |].
  cbn [map is_sorted]. rewrite <- IH. by destruct l.
Qed.

Lemma factor_leb_total (a b : option Qc) :
  factor_leb a b = false → factor_leb b a = true.
Proof.
  destruct a as [x |], b as [y |]; simpl; try done.
  intros Hlt. apply Qcleb_gt in Hlt. apply Qcleb_le.
  by apply Qclt_le_weak.
Qed.

Section TransformFactors.
Context `{Conversions}.

(** X19. The factors table with a factor column. When some normalized
    column name contains [gco2perkwh], [transform_factors] takes the first
    such column: the result has as many rows as the table, its rows are in
    ascending order of that column with the nulls last, and in every row
    [factor_level] is the class of the factor of that row. *)
Theorem transform_factors_sorted (now : Z) (df : DataFrame)
    (factor_col : string) (others : list string) :
  df_empty df = false →
  filter (λ c, contains "gco2perkwh" c = true) (normalized_header df)
  = factor_col :: others →
  let out := transform_factors now df in
  length (rows out) = length (rows df)
  ∧ is_sorted factor_leb (map float_of (series factor_col out)) = true
  ∧ ∀ r, r ∈ rows out →
         cell (columns out) "factor_level" r
         = VStr (classify_factor (float_of (cell (columns out) factor_col r))).
Proof.
  intros He Hf out.
  assert (factor_col ∈ normalized_header df
          ∧ contains "gco2perkwh" factor_col = true) as [Hin Hc].
  { apply and_comm, (list_elem_of_filter
                       (λ c, contains "gco2perkwh" c = true)).
    rewrite Hf. left. }
  assert (factor_col ≠ "processed_ts") as Hne1.
  { intros ->. vm_compute in Hc. discriminate Hc. }
  assert (factor_col ≠ "factor_level") as Hne2.
  { intros ->. vm_compute in Hc. discriminate Hc. }
  subst out. unfold transform_factors. rewrite He. cbv zeta.
  change (columns (rename (λ c, strip (lower c)) df))
    with (normalized_header df).
  rewrite Hf.
  set (df1 := rename (λ c, strip (lower c)) df).
  set (df2 := assign factor_col (λ row, to_numeric (row factor_col)) df1).
  set (leb := λ r1 r2 : list value,
                factor_leb (float_of (cell (columns df2) factor_col r1))
                           (float_of (cell (columns df2) factor_col r2))).
  set (df3 := sort_values leb df2).
  set (df4 := assign "factor_level"
                (λ row, VStr (classify_factor (float_of (row factor_col))))
                df3).
  split; [| split].
  - rewrite assign_row_count. unfold df4. rewrite assign_row_count.
    unfold df3, sort_values. cbn [rows].
    rewrite (Permutation_length (sort_by_perm leb (rows df2))).
    unfold df2. by rewrite assign_row_count.
  - rewrite series_assign_ne by done. unfold df4.
    rewrite series_assign_ne by done.
    unfold series, df3, sort_values. cbn [rows columns]. rewrite map_map.
    rewrite (is_sorted_map
               (λ r, float_of (cell (columns df2) factor_col r)) factor_leb).
    apply (sort_by_is_sorted leb). intros a b. apply factor_leb_total.
  - intros r Hr.
    apply in_assign in Hr as (r4 & Hr4 & Hcell). rewrite !Hcell.
    rewrite decide_False by done. rewrite (decide_False (P := factor_col = _))
      by done.
    apply in_assign in Hr4 as (r3 & Hr3 & Hcell'). rewrite !Hcell'.
    rewrite decide_True by done. by rewrite decide_False by done.
Qed.

(** X20. The factors table without a factor column. When no normalized
    column name contains [gco2perkwh], as with the fuel names of the
    catalog, [transform_factors] raises nothing and classifies nothing: it
    adds [processed_ts] and no [factor_level], and every other column keeps
    its cells, in the order of the table. *)
Theorem transform_factors_unclassified (now : Z) (df : DataFrame) :
  df_empty df = false →
  (∀ c, c ∈ normalized_header df → contains "gco2perkwh" c = false) →
  let out := transform_factors now df in
  (∀ c, c ∈ columns out ↔ c ∈ normalized_header df ∨ c = "processed_ts")
  ∧ series "processed_ts" out
    = map (λ _, VStr (isoformat_at now)) (rows df)
  ∧ ∀ c, c ≠ "processed_ts" →
         series c out = map (cell (normalized_header df) c) (rows df).
Proof.
  intros He Hnone out.
  assert (filter (λ c, contains "gco2perkwh" c = true) (normalized_header df)
          = []) as Hf.
  { apply filter_none, Forall_forall. intros c Hc Hcontains.
    apply Hnone in Hc. congruence. }
  subst out. unfold transform_factors. rewrite He. cbv zeta.
  change (columns (rename (λ c, strip (lower c)) df))
    with (normalized_header df).
  rewrite Hf. split; [| split].
  - intros c. rewrite columns_assign. unfold has_col.
    change (columns (rename (λ c, strip (lower c)) df))
      with (normalized_header df).
    destruct (bool_decide ("processed_ts" ∈ normalized_header df)) eqn:E.
    + apply bool_decide_eq_true in E. split; [by left |].
      by intros [Hc | ->].
    + rewrite elem_of_app, list_elem_of_singleton. done.
  - by rewrite series_assign_eq.
  - intros c Hc. by rewrite series_assign_ne.
Qed.

End TransformFactors.

Lemma transform_factors_sorted_witness :
  map float_of
      (series "gco2perkwh"
              (transform_factors (H := Utc.conversions) Sample.noon
                                 Sample4.emissions))
  = [Some (num 0); Some (num 394); Some (num 937); None]
  ∧ is_sorted factor_leb
      (map float_of
           (series "gco2perkwh"
                   (transform_factors (H := Utc.conversions) Sample.noon
                                      Sample4.emissions))) = true.
Proof.
  assert (df_empty Sample4.emissions = false) as He
    by (vm_compute; reflexivity).
  assert (filter (λ c, contains "gco2perkwh" c = true)
                 (normalized_header Sample4.emissions)
          = ["gco2perkwh"]) as Hf by (vm_compute; reflexivity).
  split; [vm_compute; reflexivity |].
  exact (proj1 (proj2 (transform_factors_sorted (H := Utc.conversions)
                         Sample.noon Sample4.emissions "gco2perkwh" []
                         He Hf))).
Defined.

Lemma transform_factors_unclassified_witness :
  series "coal" (transform_factors (H := Utc.conversions) Sample.noon
                   Sample4.catalog_raw)
  = [VNum (num 937)]
  ∧ ("factor_level" ∈ columns (transform_factors (H := Utc.conversions)
                                 Sample.noon Sample4.catalog_raw)
     ↔ "factor_level" ∈ normalized_header Sample4.catalog_raw
       ∨ "factor_level" = "processed_ts").
Proof.
  assert (df_empty Sample4.catalog_raw = false) as He
    by (vm_compute; reflexivity).
  assert (∀ c, c ∈ normalized_header Sample4.catalog_raw →
               contains "gco2perkwh" c = false) as Hnone.
  { intros c Hc.
    change (c ∈ ["biomass"; "coal"; "gas (combined cycle)"; "solar"; "wind"])
      in Hc.
    repeat (apply elem_of_cons in Hc as [-> | Hc]; [vm_compute; reflexivity |]).
    by apply elem_of_nil in Hc. }
  destruct (transform_factors_unclassified (H := Utc.conversions)
              Sample.noon Sample4.catalog_raw He Hnone)
    as (Hcols & _ & Hcells).
  split; [| exact (Hcols "factor_level")].
  rewrite (Hcells "coal") by discriminate. vm_compute. reflexivity.
Defined.

(** ** The processing on a lake that lacks its input *)

Section MissingInput.
Context `{Conversions} {libs : Libraries}.

(** X21. Without a bronze intensity table the processing raises at its
    first read and leaves the world as it was: nothing is written, and the
    factors are not processed either, whether their bronze table exists or
    not. *)
Theorem main_tp2_without_bronze_intensity (w : World) :
  lake w !! BRONZE_INTENSITY = None →
  (∃ e, process_intensity w = (Raise e, w))
  ∧ (∃ e, main_tp2 w = (Raise e, w))
  ∧ lake (main_tp2 w).2 !! SILVER_FACTORS = lake w !! SILVER_FACTORS.
Proof.
  intros Hnone.
  assert (process_intensity w = (Raise ValueError, w)) as Hp.
  { unfold process_intensity, bind, load_delta_to_df. by rewrite Hnone. }
  assert (main_tp2 w = (Raise ValueError, w)) as Hm.
  { unfold main_tp2, bind. by rewrite Hp. }
  split; [by eexists |]. split; [by eexists |]. by rewrite Hm.
Qed.

(** X22. An empty bronze intensity table stops the processing.
    [transform_intensity] returns an empty frame as it is, without the
    columns it derives; the detail table is partitioned by [year] and
    [month], so when the frame lacks one of them the first write is
    refused: the processing raises, nothing is stored, and the factors are
    not processed. *)
Theorem process_intensity_empty_bronze (w : World) (df : DataFrame) :
  lake w !! BRONZE_INTENSITY = Some df →
  df_empty df = true →
  "year" ∉ columns df ∨ "month" ∉ columns df →
  process_intensity w = (Raise DeltaError, w)
  ∧ main_tp2 w = (Raise DeltaError, w).
Proof.
  intros Hdf He Hno.
  assert (∃ c, c ∈ ["year"; "month"] ∧ c ∉ columns (arrow_table df))
    as (c & Hc & Hn).
  { assert (∀ c, c ∈ ["year"; "month"] → c ∉ columns df →
                 c ∉ columns (arrow_table df)) as Harrow.
    { intros c Hc Hn. destruct (arrow_table_cases df) as [-> | ->]; [done |].
      rewrite elem_of_app, list_elem_of_singleton. intros [Hin | ->]; [done |].
      rewrite !elem_of_cons, elem_of_nil in Hc.
      destruct Hc as [Hc | [Hc | []]]; discriminate Hc. }
    destruct Hno as [Hy | Hm].
    - exists "year". split; [left | apply Harrow; [left | done]].
    - exists "month". split; [right; left | apply Harrow; [right; left | done]]. }
  assert (process_intensity w = (Raise DeltaError, w)) as Hp.
  { unfold process_intensity, bind, load_delta_to_df, get_now, lift,
      get_store, transform_intensity.
    rewrite Hdf, He.
    by rewrite (write_deltalake_no_partition_column _ _ _ _ c Hc Hn). }
  split; [exact Hp |]. unfold main_tp2, bind. by rewrite Hp.
Qed.

End MissingInput.

Lemma main_tp2_without_bronze_intensity_witness :
  (∃ e, main_tp2 (H := Utc.conversions) (libs := Reference.libraries)
          Sample5.factors_only
        = (Raise e, Sample5.factors_only))
  ∧ lake Sample5.factors_only !! BRONZE_FACTORS = Some Sample4.catalog_raw.
Proof.
  assert (lake Sample5.factors_only !! BRONZE_INTENSITY = None) as Hnone
    by (vm_compute; reflexivity).
  split.
  - exact (proj1 (proj2 (main_tp2_without_bronze_intensity
                           (H := Utc.conversions)
                           (libs := Reference.libraries)
                           Sample5.factors_only Hnone))).
  - vm_compute. reflexivity.
Defined.

Lemma process_intensity_empty_bronze_witness :
  process_intensity (H := Utc.conversions) (libs := Reference.libraries)
    Sample5.empty_bronze
  = (Raise DeltaError, Sample5.empty_bronze)
  ∧ main_tp2 (H := Utc.conversions) (libs := Reference.libraries)
      Sample5.empty_bronze
    = (Raise DeltaError, Sample5.empty_bronze).
Proof.
  assert (lake Sample5.empty_bronze !! BRONZE_INTENSITY
          = Some Sample5.no_rows) as Hdf by (vm_compute; reflexivity).
  assert (df_empty Sample5.no_rows = true) as He by (vm_compute; reflexivity).
  assert ("year" ∉ columns Sample5.no_rows) as Hy by by_eval.
  exact (process_intensity_empty_bronze (H := Utc.conversions)
           (libs := Reference.libraries) Sample5.empty_bronze
           Sample5.no_rows Hdf He (or_introl Hy)).
Defined.

(** ** The factors chart *)

Lemma drop_column_row_count (c : string) (df : DataFrame) :
  length (rows (drop_column c df)) = length (rows df).
Proof. unfold drop_column. simpl. apply length_map. Qed.

Section FactorsChart.
Context `{Conversions}.

(** X23. The factors chart needs a one-row table. On a table that is not
    empty and has more than one row, [plot_factors] raises [ValueError] at
    the assignment of the two column names: the transposed table has one
    column per row of the table besides the one of the names. *)
Theorem plot_factors_many_rows (df : DataFrame) :
  df_empty df = false →
  (1 < length (rows df))%nat →
  plot_factors df = Raise ValueError.
Proof.
  intros He Hlen. unfold plot_factors, transpose_named. rewrite He.
  rewrite drop_column_row_count. cbn [length].
  destruct (decide (2%nat = S (length (rows df)))) as [E | _]; [lia | done].
Qed.

(** X24. The bars of the factors chart. On a one-row table [plot_factors]
    draws one bar per column of the table other than [ingestion_ts], so
    [processed_ts], which the processing adds, is drawn as a fuel and
    [ingestion_ts] never is; the bars are in ascending order of their
    value, those without a number last. *)
Theorem plot_factors_bars (df : DataFrame) :
  length (rows df) = 1%nat →
  columns df ≠ [] →
  ∃ bars,
    plot_factors df = Ok (Some bars)
    ∧ columns bars = ["fuel"; "gco2_value"]
    ∧ series "fuel" bars
      ≡ₚ map VStr (filter (λ c, c ≠ "ingestion_ts") (columns df))
    ∧ (VStr "ingestion_ts" ∉ series "fuel" bars)
    ∧ ("processed_ts" ∈ columns df → VStr "processed_ts" ∈ series "fuel" bars)
    ∧ is_sorted factor_leb (map float_of (series "gco2_value" bars)) = true.
Proof.
  intros Hlen Hcols.
  assert (df_empty df = false) as He.
  { unfold df_empty. destruct (columns df); [done |].
    by destruct (rows df). }
  unfold plot_factors, transpose_named. rewrite He.
  rewrite drop_column_row_count, Hlen. cbn [length].
  rewrite decide_True by done. cbn [rbind].
  set (df_t := mkDF ["fuel"; "gco2_value"]
                 (map (λ c, VStr c :: series c (drop_column "ingestion_ts" df))
                      (columns (drop_column "ingestion_ts" df)))).
  set (df_n := assign "gco2_value" (λ row, to_numeric (row "gco2_value")) df_t).
  set (leb := λ r1 r2 : list value,
                factor_leb (float_of (cell (columns df_n) "gco2_value" r1))
                           (float_of (cell (columns df_n) "gco2_value" r2))).
  assert (columns df_n = ["fuel"; "gco2_value"]) as Hcn by done.
  assert (series "fuel" (mkDF (columns df_n) (sort_by leb (rows df_n)))
          ≡ₚ map VStr (filter (λ c, c ≠ "ingestion_ts") (columns df))) as Hperm.
  { unfold series at 1. cbn [columns rows].
    rewrite (sort_by_perm leb (rows df_n)).
    change (map (cell (columns df_n) "fuel") (rows df_n))
      with (series "fuel" df_n).
    unfold df_n. rewrite series_assign_ne by done.
    unfold series, df_t. cbn [columns rows]. rewrite map_map.
    unfold drop_column at 2. cbn [columns].
    apply eq_subrelation; [apply _ |]. by apply map_ext. }
  eexists. split; [reflexivity |]. split; [done |]. split; [exact Hperm |].
  split; [| split].
  - rewrite Hperm. intros Hin. apply list_elem_of_fmap in Hin as (c & Hc & Hin).
    injection Hc as <-. by apply list_elem_of_filter in Hin as [Hne _].
  - intros Hin. rewrite Hperm. apply list_elem_of_fmap. exists "processed_ts".
    split; [done |]. by apply list_elem_of_filter.
  - unfold series. cbn [columns rows]. rewrite map_map.
    rewrite (is_sorted_map
               (λ r, float_of (cell (columns df_n) "gco2_value" r)) factor_leb).
    apply (sort_by_is_sorted leb). intros a b. apply factor_leb_total.
Qed.

End FactorsChart.

Lemma plot_factors_many_rows_witness :
  plot_factors (H := Utc.conversions) Sample6.per_fuel = Raise ValueError.
Proof.
  assert (df_empty Sample6.per_fuel = false) as He by (vm_compute; reflexivity).
  assert (1 < length (rows Sample6.per_fuel))%nat as Hlen
    by (vm_compute; lia).
  exact (plot_factors_many_rows (H := Utc.conversions) Sample6.per_fuel
           He Hlen).
Defined.

Lemma plot_factors_bars_witness :
  ∃ bars,
    plot_factors (H := Utc.conversions) Sample6.silver_factors = Ok (Some bars)
    ∧ VStr "processed_ts" ∈ series "fuel" bars
    ∧ (VStr "ingestion_ts" ∉ series "fuel" bars).
Proof.
  assert (length (rows Sample6.silver_factors) = 1%nat) as Hlen
    by (vm_compute; reflexivity).
  assert (columns Sample6.silver_factors ≠ []) as Hcols
    by (vm_compute; discriminate).
  assert ("processed_ts" ∈ columns Sample6.silver_factors) as Hin by by_eval.
  destruct (plot_factors_bars (H := Utc.conversions) Sample6.silver_factors
              Hlen Hcols) as (bars & Hrun & _ & _ & Hno & Hyes & _).
  exists bars. split; [exact Hrun |]. split; [exact (Hyes Hin) | exact Hno].
Defined.
